(** * YouTube downloader: worker orchestration

    A shallow embedding of [youtube_downloader.py]: the two background
    workers ([fetch_video_info], [download_videos]) and the coordinator
    loop ([handle_events], [update]) of class [YouTubeDownloader],
    together with the widgets the coordinator consults.

    The external services are oracles: the extraction library answers
    each [extract_info] call with a value or an exception text, the
    download call likewise, and [cancel_download.is_set()] is answered by
    the value the shared flag has when the worker polls it.  A text is a
    sequence of characters with code points below 256. *)

From Stdlib Require Import ZArith List String Ascii Bool Arith Lia DecimalString.
From Stdlib Require Import SpecFloat.
Import ListNotations.
Open Scope string_scope.
Open Scope list_scope.

(** ** Python values and builtins used by the program *)

Module Py.

(** [str(n)] for an [int]. *)
Definition str_int (z : Z) : string := NilZero.string_of_int (Z.to_int z).

Definition str_nat (n : nat) : string := str_int (Z.of_nat n).

(** [f"{n:02d}"] for an [int]: zero padding to width two; the sign counts
    in the width.  For a [float] the format code raises a [ValueError]
    with the text [format_d_float]. *)
Definition format_02d (z : Z) : string :=
  if ((0 <=? z) && (z <? 10))%Z then "0" ++ str_int z else str_int z.

Definition format_d_float : string :=
  "Unknown format code 'd' for object of type 'float'".

(** [str.lower], on the ASCII letters. *)
Definition lower_ascii (c : ascii) : ascii :=
  let n := nat_of_ascii c in
  if ((65 <=? n) && (n <=? 90))%nat then ascii_of_nat (n + 32) else c.

Fixpoint lower (s : string) : string :=
  match s with
  | EmptyString => EmptyString
  | String c s' => String (lower_ascii c) (lower s')
  end.

(** [needle in hay] for two strings. *)
Fixpoint contains (needle hay : string) : bool :=
  prefix needle hay ||
  match hay with
  | EmptyString => false
  | String _ hay' => contains needle hay'
  end.

(** [s[:n]] for [0 <= n]. *)
Definition slice_to (n : nat) (s : string) : string := substring 0 n s.

(** [str.isspace] on one character: the ASCII white space, the next-line
    control U+0085 and the no-break space U+00A0. *)
Definition is_space (c : ascii) : bool :=
  let n := nat_of_ascii c in
  (((9 <=? n) && (n <=? 13)) || ((28 <=? n) && (n <=? 32))
   || (n =? 133) || (n =? 160))%nat.

Fixpoint lstrip (s : string) : string :=
  match s with
  | EmptyString => EmptyString
  | String c s' => if is_space c then lstrip s' else s
  end.

Fixpoint rstrip (s : string) : string :=
  match s with
  | EmptyString => EmptyString
  | String c s' =>
      match rstrip s' with
      | EmptyString => if is_space c then EmptyString else String c EmptyString
      | t => String c t
      end
  end.

(** [s.strip()]. *)
Definition strip (s : string) : string := rstrip (lstrip s).

(** [bool(s)] for a string. *)
Definition truthy (s : string) : bool :=
  match s with EmptyString => false | String _ _ => true end.

(** The value of a dictionary key: missing, [None], or a value. *)
Inductive field (A : Type) : Type :=
| Absent
| Null
| Present (a : A).
Arguments Absent {A}.
Arguments Null {A}.
Arguments Present {A} a.

(** [d.get(k)]; the result [None] is Python's [None]. *)
Definition get {A} (f : field A) : option A :=
  match f with Present a => Some a | _ => None end.

(** [d.get(k, default)]. *)
Definition get_default {A} (f : field A) (default : option A) : option A :=
  match f with
  | Absent => default
  | Null => None
  | Present a => Some a
  end.

(** Python's [float], an IEEE 754 binary64 number: [m * 2 ** e] as a
    float, [float(z)] for an [int], addition and [<=]. *)
Definition float : Type := spec_float.

Definition float_of (m e : Z) : float := binary_normalize 53 1024 m e false.

Definition float_of_int (z : Z) : float := float_of z 0.

Definition float_add (x y : float) : float := SFadd 53 1024 x y.

Definition float_le (x y : float) : bool := SFleb x y.

(** A number: an [int] or a [float]. *)
Inductive number : Type :=
| Int (z : Z)
| Float (f : float).

(** [bool(x)] for a number: zero of either kind is false, and a [nan] is
    true. *)
Definition truthy_num (x : number) : bool :=
  match x with
  | Int z => negb (z =? 0)%Z
  | Float (S754_zero _) => false
  | Float _ => true
  end.

(** [x + dt] for a number [x] and a [float] [dt]. *)
Definition add_float (x : number) (dt : float) : float :=
  match x with
  | Int z => float_add (float_of_int z) dt
  | Float f => float_add f dt
  end.

(** [bool(v)] for [None] or a string, and for [None] or a number. *)
Definition truthy_str (v : option string) : bool :=
  match v with Some s => truthy s | None => false end.

Definition truthy_opt_num (v : option number) : bool :=
  match v with Some x => truthy_num x | None => false end.

(** [a or b]. *)
Definition or_str (a b : option string) : option string :=
  if truthy_str a then a else b.

Definition or_num (a b : option number) : option number :=
  if truthy_opt_num a then a else b.

(** [a or "literal"] and [a or 0]: the right operand is a plain value. *)
Definition or_lit (a : option string) (lit : string) : string :=
  match a with
  | Some s => if truthy s then s else lit
  | None => lit
  end.

Definition or_zero (a : option number) : number :=
  match a with
  | Some x => if truthy_num x then x else Int 0
  | None => Int 0
  end.

(** [f"{v}"] for [None] or a string. *)
Definition format_value (v : option string) : string :=
  match v with Some s => s | None => "None" end.

(** [os.path.join(a, b)] for a relative [b] (POSIX separator). *)
Definition os_path_join (a b : string) : string := a ++ "/" ++ b.

End Py.

Import Py.

(** ** Data model *)

(** [VideoInfo] dataclass.  [None] in a text field is Python's [None]:
    the dataclass does not enforce its annotations, and
    [info.get('title', ...)] can deliver it. *)
Record VideoInfo : Type := mkVideoInfo {
  video_id : option string;       (* id *)
  title : option string;
  duration : string;
  uploader : option string;
  url : string;
  thumbnail : option string;
  selected : bool
}.

(** [VideoInfo(...)] as both workers call it: [selected] takes its default. *)
Definition new_VideoInfo (i t : option string) (d : string) (u : option string)
    (l : string) (th : option string) : VideoInfo :=
  mkVideoInfo i t d u l th false.

(** The keys of an extractor's info dictionary that the program reads.
    [duration] is a number of seconds; the extraction service delivers
    an [int] or a [float]. *)
Record EntryDict : Type := mkEntryDict {
  k_id : field string;
  k_title : field string;
  k_duration : field number;
  k_uploader : field string;
  k_channel : field string;
  k_url : field string;
  k_webpage_url : field string;
  k_thumbnail : field string
}.

Record InfoDict : Type := mkInfoDict {
  keys : EntryDict;
  k_entries : field (list (option EntryDict))
}.

(** Messages put on [message_queue]: the pairs [("status", text)],
    [("progress", text)] and [("videos", list)]. *)
Inductive message : Type :=
| Status (text : string)
| Progress (text : string)
| Videos (data : list VideoInfo).

(** The result of a call that may raise; [text] is [str(e)]. *)
Inductive outcome (A : Type) : Type :=
| Returns (a : A)
| Raises (text : string).
Arguments Returns {A} a.
Arguments Raises {A} text.

(** ** A worker: the events it produced so far, then a value or an exception *)

Section Worker.
Context {Ev : Type}.

Definition worker (A : Type) : Type := (list Ev * outcome A)%type.

Definition ret {A} (a : A) : worker A := ([], Returns a).

Definition raise {A} (text : string) : worker A := ([], Raises text).

Definition bind {A B} (m : worker A) (k : A -> worker B) : worker B :=
  match m with
  | (evs, Returns a) => let (evs', r) := k a in (evs ++ evs', r)
  | (evs, Raises text) => (evs, Raises text)
  end.

Definition emit (e : Ev) : worker unit := ([e], Returns tt).

(** An external call: its outcome is the oracle's. *)
Definition call {A} (o : outcome A) : worker A := ([], o).

(** [try: m  except Exception as e: h e]. *)
Definition try_except {A} (m : worker A) (h : string -> worker A) : worker A :=
  match m with
  | (evs, Returns a) => (evs, Returns a)
  | (evs, Raises text) => let (evs', r) := h text in (evs ++ evs', r)
  end.

Definition events {A} (m : worker A) : list Ev := fst m.
End Worker.

Notation "x <- m ;; k" := (bind m (fun x => k))
  (at level 61, m at next level, right associativity).
Notation "m ;; k" := (bind m (fun _ => k))
  (at level 61, right associativity).

(** ** [YouTubeDownloader._format_duration] *)

(** The argument is what the callers pass: [None], an [int] or a
    [float].  On a [float] that is not zero, [//] and [%] give floats,
    and each of the two [return] statements formats one of them with
    [02d], which raises a [ValueError] for a [float] whatever its
    value. *)
Definition _format_duration (seconds : option number) : outcome string :=
  match seconds with
  | None => Returns "0:00"
  | Some (Int seconds) =>
      if (seconds =? 0)%Z then Returns "0:00"
      else
        let hours := (seconds / 3600)%Z in
        let minutes := ((seconds mod 3600) / 60)%Z in
        let seconds := (seconds mod 60)%Z in
        if negb (hours =? 0)%Z
        then Returns (str_int hours ++ ":" ++ format_02d minutes ++ ":"
                      ++ format_02d seconds)%string
        else Returns (str_int minutes ++ ":" ++ format_02d seconds)%string
  | Some (Float seconds) =>
      if negb (truthy_num (Float seconds)) then Returns "0:00"
      else Raises format_d_float
  end.

(** ** The extraction service *)

(** The options dictionaries handed to [yt_dlp.YoutubeDL]. *)
Record ydl_opts : Type := mk_ydl_opts {
  quiet : bool;
  no_warnings : bool;
  extract_flat : bool;
  socket_timeout : Z
}.

Definition ydl_opts_basic : ydl_opts := mk_ydl_opts true true true 30.
Definition ydl_opts_single : ydl_opts := mk_ydl_opts true true false 15.
Definition ydl_opts_detailed : ydl_opts := mk_ydl_opts true true false 30.

(** [YoutubeDL(opts).extract_info(url, download=False)]: the answer to the
    [n]-th such call of one worker run.  The library may return [None].
    Entering and leaving the [with YoutubeDL(...)] blocks is taken not to
    raise. *)
Definition extractor : Type :=
  nat -> ydl_opts -> string -> outcome (option InfoDict).

(** [x.get(...)] on the result of a call: [None] has no such attribute. *)
Definition deref {Ev} (x : option InfoDict) : worker (Ev:=Ev) EntryDict :=
  match x with
  | Some d => ret (keys d)
  | None => raise "'NoneType' object has no attribute 'get'"
  end.

(** ['entries' in info]: membership in [None] is a [TypeError]. *)
Definition check_iterable {Ev} (info : option InfoDict) : worker (Ev:=Ev) InfoDict :=
  match info with
  | Some d => ret d
  | None => raise "argument of type 'NoneType' is not iterable"
  end.

(** ['entries' in info and info['entries']], as a condition. *)
Definition has_entries (info : InfoDict) : bool :=
  match k_entries info with
  | Present (_ :: _) => true
  | _ => false
  end.

Definition info_entries (info : InfoDict) : list (option EntryDict) :=
  match k_entries info with
  | Present l => l
  | _ => []
  end.

(** [[e for e in l if e is not None]]. *)
Fixpoint not_none {A} (l : list (option A)) : list A :=
  match l with
  | [] => []
  | Some e :: l' => e :: not_none l'
  | None :: l' => not_none l'
  end.

(** ** [YouTubeDownloader.fetch_video_info] *)

(** The body of the [for] loop over the playlist entries, up to the
    construction of the [VideoInfo].  The bare [except] catches what the
    detailed pass raises, the formatter's exception included; what the
    fallback raises leaves the body. *)
Definition process_entry (ydl : extractor) (n i : nat) (entry : EntryDict)
    : worker (Ev:=message) VideoInfo :=
  emit (Status ("Processing video " ++ str_nat (i + 1) ++ "/" ++ str_nat n ++ "...")) ;;
  let video_id := get_default (k_id entry) (Some ("unknown_" ++ str_nat i)%string) in
  let video_url :=
    or_lit (or_str (get (k_url entry)) (get (k_webpage_url entry)))
           ("https://www.youtube.com/watch?v=" ++ format_value video_id) in
  d <- try_except
         (single_info <- call (ydl (S i) ydl_opts_single video_url) ;;
          single_info <- deref single_info ;;
          let title :=
            or_lit (or_str (get (k_title single_info)) (get (k_title entry)))
                   ("Video " ++ str_nat (i + 1)) in
          duration <- call (_format_duration
                              (Some (or_zero (or_num (get (k_duration single_info))
                                                     (get (k_duration entry)))))) ;;
          let uploader :=
            or_lit (or_str (or_str (get (k_uploader single_info))
                                   (get (k_channel single_info)))
                           (get (k_uploader entry)))
                   "Unknown Channel" in
          ret (title, duration, uploader))
         (fun _ =>
          (* Fall back to basic info if detailed extraction fails *)
          let title := or_lit (get (k_title entry)) ("Video " ++ str_nat (i + 1)) in
          duration <- call (_format_duration
                              (Some (or_zero (get (k_duration entry))))) ;;
          let uploader := or_lit (get (k_uploader entry)) "Unknown Channel" in
          ret (title, duration, uploader)) ;;
  let '(title, duration, uploader) := d in
  ret (new_VideoInfo video_id (Some title) duration (Some uploader) video_url
         (get_default (k_thumbnail entry) (Some EmptyString))).

(** [for i, entry in enumerate(entries)], from index [i] on, with the
    list [videos] built so far.  An exception of one entry is printed and
    the loop continues with the next. *)
Fixpoint process_entries (ydl : extractor) (n i : nat) (entries : list EntryDict)
    (videos : list VideoInfo) : worker (Ev:=message) (list VideoInfo) :=
  match entries with
  | [] => ret videos
  | entry :: rest =>
      videos' <- try_except
                   (v <- process_entry ydl n i entry ;; ret (videos ++ [v]))
                   (fun _ => ret videos) ;;
      process_entries ydl n (S i) rest videos'
  end.

(** The playlist branch. *)
Definition playlist (ydl : extractor) (info : InfoDict)
    : worker (Ev:=message) (list VideoInfo) :=
  let entries := firstn 20 (not_none (info_entries info)) in
  emit (Status ("Found playlist with " ++ str_nat (List.length entries)
                ++ " videos. Getting details...")) ;;
  process_entries ydl (List.length entries) 0 entries [].

(** The single-video branch.  What its fallback raises reaches the
    outermost handler of the worker. *)
Definition single_video (ydl : extractor) (url : string) (info : InfoDict)
    : worker (Ev:=message) (list VideoInfo) :=
  let info := keys info in
  emit (Status "Getting video details...") ;;
  try_except
    (detailed_info <- call (ydl 1%nat ydl_opts_detailed url) ;;
     detailed_info <- deref detailed_info ;;
     let title :=
       or_lit (or_str (get (k_title detailed_info)) (get (k_title info)))
              "Untitled Video" in
     duration <- call (_format_duration
                         (Some (or_zero (or_num (get (k_duration detailed_info))
                                                (get (k_duration info)))))) ;;
     let uploader :=
       or_lit (or_str (or_str (get (k_uploader detailed_info))
                              (get (k_channel detailed_info)))
                      (get (k_uploader info)))
              "Unknown Channel" in
     ret [new_VideoInfo
            (get_default (k_id detailed_info)
               (get_default (k_id info) (Some "unknown")))
            (Some title) duration (Some uploader) url
            (get_default (k_thumbnail detailed_info)
               (get_default (k_thumbnail info) (Some EmptyString)))])
    (fun _ =>
     (* Fall back to basic info if detailed extraction fails *)
     let title := get_default (k_title info) (Some "Untitled Video") in
     duration <- call (_format_duration
                         (get_default (k_duration info) (Some (Int 0)))) ;;
     let uploader := get_default (k_uploader info) (Some "Unknown Channel") in
     ret [new_VideoInfo (get_default (k_id info) (Some "unknown"))
            title duration uploader url
            (get_default (k_thumbnail info) (Some EmptyString))]).

(** The classification of the outermost handler. *)
Definition fetch_error_status (error_msg : string) : string :=
  if contains "timeout" (lower error_msg)
  then "Error: Request timed out. Check your internet connection."
  else if contains "unavailable" (lower error_msg)
  then "Error: Video is unavailable or private"
  else if contains "not found" (lower error_msg)
  then "Error: Video or playlist not found"
  else "Error: " ++ error_msg.

(** The statements inside the outermost [try].  The inner [try] around
    the first [extract_info] yields [None] when its handler has run and
    the function returns. *)
Definition fetch_body (ydl : extractor) (url : string) : worker (Ev:=message) unit :=
  emit (Status "Fetching video information...") ;;
  r <- try_except
         (info <- call (ydl 0%nat ydl_opts_basic url) ;; ret (Some info))
         (fun e => emit (Status ("Error fetching basic info: " ++ e)) ;; ret None) ;;
  match r with
  | None => ret tt
  | Some info =>
      info <- check_iterable info ;;
      videos <- (if has_entries info then playlist ydl info
                 else single_video ydl url info) ;;
      emit (Videos videos) ;;
      emit (Status ("Successfully loaded " ++ str_nat (List.length videos) ++ " video(s)"))
  end.

(** The messages one run of the worker puts on the queue, in order. *)
Definition fetch_video_info (ydl : extractor) (url : string) : list message :=
  events (try_except (fetch_body ydl url)
            (fun e => emit (Status (fetch_error_status e)))).

(** ** [YouTubeDownloader.download_videos] *)

(** The options of a download call. *)
Record download_opts : Type := mk_download_opts {
  outtmpl : string;
  format : string;
  dl_quiet : bool
}.

Definition download_path : string := "downloads".

Definition ydl_opts_download : download_opts :=
  mk_download_opts (os_path_join download_path "%(title)s.%(ext)s")
                   "best[height<=720]" true.

(** What the download worker does to the world: a message put on the
    queue, or a call [YoutubeDL(opts).download([url])]. *)
Inductive action : Type :=
| Put (m : message)
| Download (opts : download_opts) (url : string).

(** The world of one run: the value of [cancel_download.is_set()] at the
    check that precedes item [i], and the outcome of the download call of
    item [i]. *)
Record download_env : Type := mk_download_env {
  is_set : nat -> bool;
  download : nat -> string -> outcome unit
}.

(** [video.title[:50]]: [None] is not subscriptable. *)
Definition title_prefix (video : VideoInfo) : worker (Ev:=action) string :=
  match title video with
  | Some t => ret (slice_to 50 t)
  | None => raise "'NoneType' object is not subscriptable"
  end.

(** [for i, video in enumerate(selected_videos)], from index [i] on.
    The result is [false] when the loop left the function with [return],
    and [true] when it ran to its end. *)
Fixpoint download_loop (env : download_env) (total_videos i : nat)
    (selected_videos : list VideoInfo) : worker (Ev:=action) bool :=
  match selected_videos with
  | [] => ret true
  | video :: rest =>
      if is_set env i
      then emit (Put (Status "Download cancelled")) ;; ret false
      else
        t <- title_prefix video ;;
        emit (Put (Progress ("Downloading " ++ str_nat (i + 1) ++ "/"
                             ++ str_nat total_videos ++ ": " ++ t ++ "..."))) ;;
        emit (Download ydl_opts_download (url video)) ;;
        call (download env i (url video)) ;;
        download_loop env total_videos (S i) rest
  end.

Definition download_body (env : download_env) (videos : list VideoInfo)
    : worker (Ev:=action) unit :=
  let selected_videos := filter selected videos in
  match selected_videos with
  | [] => emit (Put (Status "No videos selected"))
  | _ :: _ =>
      let total_videos := List.length selected_videos in
      emit (Put (Status ("Downloading " ++ str_nat total_videos ++ " video(s)..."))) ;;
      completed <- download_loop env total_videos 0 selected_videos ;;
      if completed : bool
      then
        emit (Put (Status ("Successfully downloaded " ++ str_nat total_videos
                           ++ " video(s)"))) ;;
        emit (Put (Progress EmptyString))
      else ret tt
  end.

(** The actions of one run of the worker, in order. *)
Definition download_videos (env : download_env) (videos : list VideoInfo)
    : list action :=
  events (try_except (download_body env videos)
            (fun e => emit (Put (Status ("Download error: " ++ e))) ;;
                      emit (Put (Progress EmptyString)))).

(** The messages among the actions, and the URLs of the download calls. *)
Fixpoint messages_of (l : list action) : list message :=
  match l with
  | [] => []
  | Put m :: l' => m :: messages_of l'
  | Download _ _ :: l' => messages_of l'
  end.

Fixpoint downloads_of (l : list action) : list string :=
  match l with
  | [] => []
  | Put _ :: l' => downloads_of l'
  | Download _ u :: l' => u :: downloads_of l'
  end.

(** ** Widgets the coordinator consults *)

(** [pygame.Rect] and [Rect.collidepoint]. *)
Record Rect : Type := mkRect { left : Z; top : Z; width : Z; height : Z }.

Definition collidepoint (r : Rect) (pos : Z * Z) : bool :=
  let (x, y) := pos in
  ((left r <=? x) && (x <? left r + width r)
   && (top r <=? y) && (y <? top r + height r))%Z.

(** The [pygame] events the widgets tell apart. *)
Inductive Event : Type :=
| QUIT
| MOUSEMOTION (pos : Z * Z)
| MOUSEBUTTONDOWN (pos : Z * Z) (button : Z)
| MOUSEBUTTONUP (pos : Z * Z)
| MOUSEWHEEL (y : Z)
| KEYDOWN
| OTHER.

(** [Button]: the fields [handle_event] reads and writes. *)
Record Button : Type := mkButton {
  b_rect : Rect;
  pressed : bool;
  enabled : bool;
  hovered : bool
}.

Definition new_Button (x y w h : Z) : Button :=
  mkButton (mkRect x y w h) false true false.

(** [Button.handle_event]: the button after the event, and whether it was
    clicked. *)
Definition Button_handle_event (b : Button) (event : Event) : Button * bool :=
  if negb (enabled b) then (b, false)
  else
    match event with
    | MOUSEMOTION pos =>
        (mkButton (b_rect b) (pressed b) (enabled b) (collidepoint (b_rect b) pos), false)
    | MOUSEBUTTONDOWN pos _ =>
        if collidepoint (b_rect b) pos
        then (mkButton (b_rect b) true (enabled b) (hovered b), false)
        else (b, false)
    | MOUSEBUTTONUP pos =>
        if pressed b && collidepoint (b_rect b) pos
        then (mkButton (b_rect b) false (enabled b) (hovered b), true)
        else (mkButton (b_rect b) false (enabled b) (hovered b), false)
    | _ => (b, false)
    end.

Definition set_enabled (e : bool) (b : Button) : Button :=
  mkButton (b_rect b) (pressed b) e (hovered b).

(** [InputField]: its editing code reads the keyboard state and the
    clipboard; the coordinator only reads [text].  [cursor_timer] holds
    the [int] 0 that [__init__] and the blink store, or the [float] the
    elapsed time was added to. *)
Record InputField : Type := mkInputField {
  text : string;
  active : bool;
  cursor_pos : Z;
  cursor_visible : bool;
  cursor_timer : number
}.

(** [InputField.update]: the cursor blinks every 500 ms. *)
Definition InputField_update (f : InputField) (dt : float) : InputField :=
  let cursor_timer := add_float (cursor_timer f) dt in
  if float_le (float_of_int 500) cursor_timer
  then mkInputField (text f) (active f) (cursor_pos f)
                    (negb (cursor_visible f)) (Int 0)
  else mkInputField (text f) (active f) (cursor_pos f)
                    (cursor_visible f) (Float cursor_timer).

(** [ScrollableList].  Its [items] is the very list object
    [YouTubeDownloader.videos] (empty lists at first, then always
    [set_items(self.videos)]), so the list is passed in where it is read. *)
Record ScrollableList : Type := mkScrollableList {
  l_rect : Rect;
  scroll_y : Z;
  max_scroll : Z
}.

Definition item_height : Z := 60.
Definition scroll_speed : Z := 30.

Definition set_items (l : ScrollableList) (items : list VideoInfo) : ScrollableList :=
  let max_scroll :=
    Z.max 0 (Z.of_nat (List.length items) * item_height - height (l_rect l)) in
  mkScrollableList (l_rect l) (Z.min (scroll_y l) max_scroll) max_scroll.

(** [ScrollableList.handle_event]: the list after the event and the index
    of the clicked item, if any.  [mouse_pos] is [pygame.mouse.get_pos()]. *)
Definition ScrollableList_handle_event (l : ScrollableList) (items : list VideoInfo)
    (mouse_pos : Z * Z) (event : Event) : ScrollableList * option nat :=
  if negb (collidepoint (l_rect l) mouse_pos) then (l, None)
  else
    match event with
    | MOUSEWHEEL y =>
        (mkScrollableList (l_rect l)
           (Z.max 0 (Z.min (max_scroll l) (scroll_y l - y * scroll_speed)))
           (max_scroll l), None)
    | MOUSEBUTTONDOWN pos button =>
        if (button =? 1)%Z
        then
          let relative_y := (snd pos - top (l_rect l) + scroll_y l)%Z in
          let item_index := (relative_y / item_height)%Z in
          if ((0 <=? item_index) && (item_index <? Z.of_nat (List.length items)))%Z
          then (l, Some (Z.to_nat item_index))
          else (l, None)
        else (l, None)
    | _ => (l, None)
    end.

(** ** The coordinator: [YouTubeDownloader] *)

(** What a thread was started to run.  The download worker's argument is
    the list object [self.videos] itself; the worker reads it when it
    runs. *)
Inductive target : Type :=
| target_fetch_video_info (url : string)
| target_download_videos.

(** A [threading.Thread] that was started; [alive] is [is_alive()]. *)
Record Thread : Type := mkThread { thread_target : target; alive : bool }.

(** The application object, and the table of the threads it started; a
    thread handle is an index into the table. *)

Record App : Type := mkApp {
  running : bool;
  url_input : InputField;
  fetch_button : Button;
  download_button : Button;
  cancel_button : Button;
  play_bg_button : Button;
  stop_bg_button : Button;
  video_list : ScrollableList;
  status_text : string;
  progress_text : string;
  videos : list VideoInfo;
  fetch_thread : option nat;
  download_thread : option nat;
  cancel_download : bool;
  message_queue : list message;
  threads : list Thread
}.

Definition set_running (x : bool) (a : App) : App :=
  mkApp x (url_input a) (fetch_button a) (download_button a) (cancel_button a)
        (play_bg_button a) (stop_bg_button a) (video_list a) (status_text a)
        (progress_text a) (videos a) (fetch_thread a) (download_thread a)
        (cancel_download a) (message_queue a) (threads a) .

Definition set_url_input (x : InputField) (a : App) : App :=
  mkApp (running a) x (fetch_button a) (download_button a) (cancel_button a)
        (play_bg_button a) (stop_bg_button a) (video_list a) (status_text a)
        (progress_text a) (videos a) (fetch_thread a) (download_thread a)
        (cancel_download a) (message_queue a) (threads a) .

Definition set_fetch_button (x : Button) (a : App) : App :=
  mkApp (running a) (url_input a) x (download_button a) (cancel_button a)
        (play_bg_button a) (stop_bg_button a) (video_list a) (status_text a)
        (progress_text a) (videos a) (fetch_thread a) (download_thread a)
        (cancel_download a) (message_queue a) (threads a) .

Definition set_download_button (x : Button) (a : App) : App :=
  mkApp (running a) (url_input a) (fetch_button a) x (cancel_button a)
        (play_bg_button a) (stop_bg_button a) (video_list a) (status_text a)
        (progress_text a) (videos a) (fetch_thread a) (download_thread a)
        (cancel_download a) (message_queue a) (threads a) .

Definition set_cancel_button (x : Button) (a : App) : App :=
  mkApp (running a) (url_input a) (fetch_button a) (download_button a) x
        (play_bg_button a) (stop_bg_button a) (video_list a) (status_text a)
        (progress_text a) (videos a) (fetch_thread a) (download_thread a)
        (cancel_download a) (message_queue a) (threads a) .

Definition set_play_bg_button (x : Button) (a : App) : App :=
  mkApp (running a) (url_input a) (fetch_button a) (download_button a)
        (cancel_button a) x (stop_bg_button a) (video_list a) (status_text a)
        (progress_text a) (videos a) (fetch_thread a) (download_thread a)
        (cancel_download a) (message_queue a) (threads a) .

Definition set_stop_bg_button (x : Button) (a : App) : App :=
  mkApp (running a) (url_input a) (fetch_button a) (download_button a)
        (cancel_button a) (play_bg_button a) x (video_list a) (status_text a)
        (progress_text a) (videos a) (fetch_thread a) (download_thread a)
        (cancel_download a) (message_queue a) (threads a) .

Definition set_video_list (x : ScrollableList) (a : App) : App :=
  mkApp (running a) (url_input a) (fetch_button a) (download_button a)
        (cancel_button a) (play_bg_button a) (stop_bg_button a) x
        (status_text a) (progress_text a) (videos a) (fetch_thread a)
        (download_thread a) (cancel_download a) (message_queue a) (threads a)
        .

Definition set_status_text (x : string) (a : App) : App :=
  mkApp (running a) (url_input a) (fetch_button a) (download_button a)
        (cancel_button a) (play_bg_button a) (stop_bg_button a) (video_list a)
        x (progress_text a) (videos a) (fetch_thread a) (download_thread a)
        (cancel_download a) (message_queue a) (threads a) .

Definition set_progress_text (x : string) (a : App) : App :=
  mkApp (running a) (url_input a) (fetch_button a) (download_button a)
        (cancel_button a) (play_bg_button a) (stop_bg_button a) (video_list a)
        (status_text a) x (videos a) (fetch_thread a) (download_thread a)
        (cancel_download a) (message_queue a) (threads a) .

Definition set_videos (x : list VideoInfo) (a : App) : App :=
  mkApp (running a) (url_input a) (fetch_button a) (download_button a)
        (cancel_button a) (play_bg_button a) (stop_bg_button a) (video_list a)
        (status_text a) (progress_text a) x (fetch_thread a)
        (download_thread a) (cancel_download a) (message_queue a) (threads a)
        .

Definition set_fetch_thread (x : option nat) (a : App) : App :=
  mkApp (running a) (url_input a) (fetch_button a) (download_button a)
        (cancel_button a) (play_bg_button a) (stop_bg_button a) (video_list a)
        (status_text a) (progress_text a) (videos a) x (download_thread a)
        (cancel_download a) (message_queue a) (threads a) .

Definition set_download_thread (x : option nat) (a : App) : App :=
  mkApp (running a) (url_input a) (fetch_button a) (download_button a)
        (cancel_button a) (play_bg_button a) (stop_bg_button a) (video_list a)
        (status_text a) (progress_text a) (videos a) (fetch_thread a) x
        (cancel_download a) (message_queue a) (threads a) .

Definition set_cancel_download (x : bool) (a : App) : App :=
  mkApp (running a) (url_input a) (fetch_button a) (download_button a)
        (cancel_button a) (play_bg_button a) (stop_bg_button a) (video_list a)
        (status_text a) (progress_text a) (videos a) (fetch_thread a)
        (download_thread a) x (message_queue a) (threads a) .

Definition set_message_queue (x : list message) (a : App) : App :=
  mkApp (running a) (url_input a) (fetch_button a) (download_button a)
        (cancel_button a) (play_bg_button a) (stop_bg_button a) (video_list a)
        (status_text a) (progress_text a) (videos a) (fetch_thread a)
        (download_thread a) (cancel_download a) x (threads a) .

Definition set_threads (x : list Thread) (a : App) : App :=
  mkApp (running a) (url_input a) (fetch_button a) (download_button a)
        (cancel_button a) (play_bg_button a) (stop_bg_button a) (video_list a)
        (status_text a) (progress_text a) (videos a) (fetch_thread a)
        (download_thread a) (cancel_download a) (message_queue a) x.

(** [YouTubeDownloader.__init__]. *)
Definition WINDOW_WIDTH : Z := 1200.
Definition WINDOW_HEIGHT : Z := 800.

Definition init : App :=
  mkApp true
        (mkInputField EmptyString false 0 true (Int 0))
        (new_Button 670 50 100 40)
        (new_Button 780 50 100 40)
        (new_Button 890 50 100 40)
        (new_Button 1000 50 80 40)
        (new_Button 1090 50 80 40)
        (mkScrollableList (mkRect 50 150 (WINDOW_WIDTH - 100) (WINDOW_HEIGHT - 250)) 0 0)
        "Ready" EmptyString [] None None false [] [].

(** [t.is_alive()] for the thread with handle [h]. *)
Definition is_alive (a : App) (h : nat) : bool :=
  match nth_error (threads a) h with
  | Some t => alive t
  | None => false
  end.

(** [self.x_thread and self.x_thread.is_alive()], as a condition. *)
Definition thread_alive (a : App) (handle : option nat) : bool :=
  match handle with
  | Some h => is_alive a h
  | None => false
  end.

(** [threading.Thread(target=..., daemon=True)] followed by [start()]:
    the application with the new thread, and its handle. *)
Definition start_thread (tg : target) (a : App) : App * nat :=
  (set_threads (threads a ++ [mkThread tg true]) a, List.length (threads a)).

(** One input event, with what the handlers read from the environment
    while they process it: [pygame.mouse.get_pos()], and the effect of
    [url_input.handle_event(event)] on the text field. *)
Record Input : Type := mkInput {
  event : Event;
  mouse_get_pos : Z * Z;
  url_input_handle_event : InputField -> InputField
}.

(** [self.videos[i].selected = not self.videos[i].selected]. *)
Definition toggle (v : VideoInfo) : VideoInfo :=
  mkVideoInfo (video_id v) (title v) (duration v) (uploader v) (url v)
              (thumbnail v) (negb (selected v)).

Fixpoint toggle_selected (i : nat) (l : list VideoInfo) : list VideoInfo :=
  match l, i with
  | [], _ => []
  | v :: l', O => toggle v :: l'
  | v :: l', S i' => v :: toggle_selected i' l'
  end.

(** The fetch-button statement of the loop body: the application after
    it, and whether it ended the iteration with [continue]. *)
Definition on_fetch_button (a : App) (ev : Event) : App * bool :=
  let (b, clicked) := Button_handle_event (fetch_button a) ev in
  let a := set_fetch_button b a in
  if clicked then
    if truthy (strip (text (url_input a))) then
      if thread_alive a (fetch_thread a) then (a, true)
      else
        let (a, h) := start_thread (target_fetch_video_info (strip (text (url_input a)))) a in
        (set_fetch_thread (Some h) a, false)
    else (a, false)
  else (a, false).

Definition on_download_button (a : App) (ev : Event) : App :=
  let (b, clicked) := Button_handle_event (download_button a) ev in
  let a := set_download_button b a in
  if clicked then
    if negb (Nat.eqb (List.length (videos a)) 0)
       && negb (thread_alive a (download_thread a))
    then
      let a := set_cancel_download false a in
      let (a, h) := start_thread target_download_videos a in
      set_download_thread (Some h) a
    else a
  else a.

Definition on_cancel_button (a : App) (ev : Event) : App :=
  let (b, clicked) := Button_handle_event (cancel_button a) ev in
  let a := set_cancel_button b a in
  if clicked then set_cancel_download true a else a.

(** The two background-video buttons: what they start and stop is the
    playback object, outside this state.  So is the volume slider, whose
    statement follows them in the loop body. *)
Definition on_bg_buttons (a : App) (ev : Event) : App :=
  let a := set_play_bg_button (fst (Button_handle_event (play_bg_button a) ev)) a in
  set_stop_bg_button (fst (Button_handle_event (stop_bg_button a) ev)) a.

Definition on_video_list (a : App) (i : Input) : App :=
  let (l, clicked_item) :=
    ScrollableList_handle_event (video_list a) (videos a) (mouse_get_pos i) (event i) in
  let a := set_video_list l a in
  match clicked_item with
  | Some n =>
      let a := set_videos (toggle_selected n (videos a)) a in
      set_video_list (set_items (video_list a) (videos a)) a
  | None => a
  end.

(** The first two statements of the loop body: the [QUIT] test and the
    text field. *)
Definition on_quit_and_url_input (a : App) (i : Input) : App :=
  let a := match event i with QUIT => set_running false a | _ => a end in
  set_url_input (url_input_handle_event i (url_input a)) a.

(** The statements after the fetch button, skipped by its [continue]. *)
Definition after_fetch_button (a : App) (i : Input) : App :=
  let a := on_download_button a (event i) in
  let a := on_cancel_button a (event i) in
  let a := on_bg_buttons a (event i) in
  on_video_list a i.

(** The body of the loop of [handle_events], for one event. *)
Definition handle_event (a : App) (i : Input) : App :=
  let a := on_quit_and_url_input a i in
  let (a, continue) := on_fetch_button a (event i) in
  if continue then a else after_fetch_button a i.

(** [handle_events]: the loop over [pygame.event.get()]. *)
Definition handle_events (a : App) (inputs : list Input) : App :=
  fold_left handle_event inputs a.

(** One message taken from the queue in [update]. *)
Definition apply_message (a : App) (m : message) : App :=
  match m with
  | Status data => set_status_text data a
  | Progress data => set_progress_text data a
  | Videos data =>
      let a := set_videos data a in
      set_video_list (set_items (video_list a) (videos a)) a
  end.

(** The [get_nowait] loop of [update]: every queued message, in order. *)
Definition drain (a : App) : App :=
  fold_left apply_message (message_queue a) (set_message_queue [] a).

(** [update]: let the cursor blink, drain the queue, then recompute the
    button states.  [dt] is the time since the pass before, in
    milliseconds. *)
Definition update (a : App) (dt : float) : App :=
  let a := set_url_input (InputField_update (url_input a) dt) a in
  let a := drain a in
  let a := set_fetch_button
             (set_enabled (truthy (strip (text (url_input a)))) (fetch_button a)) a in
  let a := set_download_button
             (set_enabled (negb (Nat.eqb (List.length (videos a)) 0)
                           && negb (thread_alive a (download_thread a)))
                          (download_button a)) a in
  set_cancel_button
    (set_enabled (thread_alive a (download_thread a)) (cancel_button a)) a.

(** [message_queue.put(m)], by a worker. *)
Definition put (m : message) (a : App) : App :=
  set_message_queue (message_queue a ++ [m]) a.

(** The thread with handle [h] has run to its end. *)
Fixpoint finish (h : nat) (l : list Thread) : list Thread :=
  match l, h with
  | [], _ => []
  | t :: l', O => mkThread (thread_target t) false :: l'
  | t :: l', S h' => t :: finish h' l'
  end.

Definition thread_exit (h : nat) (a : App) : App :=
  set_threads (finish h (threads a)) a.

(** The steps of the running system: the coordinator handles an event or
    runs [update]; a live worker puts a message; a worker ends; [run]
    sets the flag once the loop has stopped. *)
Inductive step : App -> App -> Prop :=
| step_event (a : App) (i : Input) : step a (handle_event a i)
| step_update (a : App) (dt : float) : step a (update a dt)
| step_put (a : App) (h : nat) (m : message) :
    is_alive a h = true -> step a (put m a)
| step_exit (a : App) (h : nat) : step a (thread_exit h a)
| step_cleanup (a : App) :
    running a = false -> step a (set_cancel_download true a).

Inductive reachable : App -> Prop :=
| reachable_init : reachable init
| reachable_step (a a' : App) : reachable a -> step a a' -> reachable a'.

(** The handles of the live threads of each kind. *)
Definition is_fetch (t : Thread) : bool :=
  match thread_target t with target_fetch_video_info _ => true | _ => false end.

Definition is_download (t : Thread) : bool :=
  match thread_target t with target_download_videos => true | _ => false end.

Fixpoint live_from (kind : Thread -> bool) (h : nat) (l : list Thread) : list nat :=
  match l with
  | [] => []
  | t :: l' =>
      if alive t && kind t then h :: live_from kind (S h) l'
      else live_from kind (S h) l'
  end.

Definition live (kind : Thread -> bool) (a : App) : list nat :=
  live_from kind 0 (threads a).

(** ** Specification-side definitions *)

(** The duration text in the words of the specification: [H:MM:SS] when
    there is at least one hour, [M:SS] otherwise, with two-digit fields. *)
Definition digit (d : Z) : ascii := ascii_of_nat (48 + Z.to_nat d).

Definition two_digits (n : Z) : string :=
  String (digit (n / 10)) (String (digit (n mod 10)) EmptyString).

Definition clock_text (s : Z) : string :=
  if (3600 <=? s)%Z
  then str_int (s / 3600) ++ ":" ++ two_digits ((s / 60) mod 60) ++ ":"
       ++ two_digits (s mod 60)
  else str_int (s / 60) ++ ":" ++ two_digits (s mod 60).

(** The texts of the [Status] messages of a trace, and its [Videos] lists. *)
Fixpoint statuses (l : list message) : list string :=
  match l with
  | [] => []
  | Status t :: l' => t :: statuses l'
  | _ :: l' => statuses l'
  end.

Fixpoint results (l : list message) : list (list VideoInfo) :=
  match l with
  | [] => []
  | Videos d :: l' => d :: results l'
  | _ :: l' => results l'
  end.

Fixpoint progresses (l : list message) : list string :=
  match l with
  | [] => []
  | Progress t :: l' => t :: progresses l'
  | _ :: l' => progresses l'
  end.

(** The identifier and the URL the loop body computes for entry
    [entry] at position [i], and the text of its progress notice. *)
Definition entry_video_id (i : nat) (entry : EntryDict) : option string :=
  get_default (k_id entry) (Some ("unknown_" ++ str_nat i)%string).

Definition entry_video_url (i : nat) (entry : EntryDict) : string :=
  or_lit (or_str (get (k_url entry)) (get (k_webpage_url entry)))
         ("https://www.youtube.com/watch?v=" ++ format_value (entry_video_id i entry)).

Definition processing_line (n i : nat) : string :=
  "Processing video " ++ str_nat (i + 1) ++ "/" ++ str_nat n ++ "...".

(** The entries of a collection that the worker processes. *)
Definition processed_entries (info : InfoDict) : list EntryDict :=
  firstn 20 (not_none (info_entries info)).

(** The formatter returns on the duration [d]: it is not a [float]
    other than zero. *)
Definition formattable (d : option number) : bool :=
  match d with
  | Some (Float f) => negb (truthy_num (Float f))
  | _ => true
  end.

(** A detailed pass whose call was answered by [r] yields a title, a
    duration text and an uploader: the call returned a dictionary, and
    the duration chosen from it and from the dictionary [shallow] of the
    shallow pass can be formatted. *)
Definition detail_ok (r : outcome (option InfoDict)) (shallow : EntryDict) : bool :=
  match r with
  | Returns (Some d) =>
      formattable (or_num (get (k_duration (keys d))) (get (k_duration shallow)))
  | _ => false
  end.

(** The entry at position [i] gets a descriptor: its detailed pass yields
    one, or the fallback can format the entry's own duration.  Otherwise
    the loop skips the entry. *)
Definition entry_kept (ydl : extractor) (i : nat) (entry : EntryDict) : bool :=
  detail_ok (ydl (S i) ydl_opts_single (entry_video_url i entry)) entry
  || formattable (get (k_duration entry)).

(** Every entry of [entries], which starts at position [i], is kept; and
    the number of those that are. *)
Fixpoint entries_kept (ydl : extractor) (i : nat) (entries : list EntryDict) : bool :=
  match entries with
  | [] => true
  | entry :: rest => entry_kept ydl i entry && entries_kept ydl (S i) rest
  end.

Fixpoint kept_count (ydl : extractor) (i : nat) (entries : list EntryDict) : nat :=
  match entries with
  | [] => 0%nat
  | entry :: rest =>
      ((if entry_kept ydl i entry then 1 else 0) + kept_count ydl (S i) rest)%nat
  end.

(** The single-video branch builds its descriptor: the detailed pass
    yields one, or the fallback can format the duration of the shallow
    pass. *)
Definition single_builds (ydl : extractor) (url : string) (info : InfoDict) : bool :=
  detail_ok (ydl 1%nat ydl_opts_detailed url) (keys info)
  || formattable (get (k_duration (keys info))).


(** Descriptor [v] was built from entry [e] at position [i] of the
    processed entries. *)
Definition describes (i : nat) (e : EntryDict) (v : VideoInfo) : Prop :=
  video_id v = get_default (k_id e) (Some ("unknown_" ++ str_nat i)%string)
  /\ url v = or_lit (or_str (get (k_url e)) (get (k_webpage_url e)))
                    ("https://www.youtube.com/watch?v=" ++ format_value (video_id v))
  /\ thumbnail v = get_default (k_thumbnail e) (Some EmptyString)
  /\ selected v = false.

Inductive described_from : nat -> list EntryDict -> list VideoInfo -> Prop :=
| described_nil (i : nat) : described_from i [] []
| described_cons (i : nat) (e : EntryDict) (es : list EntryDict)
    (v : VideoInfo) (vs : list VideoInfo) :
    describes i e v -> described_from (S i) es vs ->
    described_from i (e :: es) (v :: vs).

(** The descriptors [vs] were built, in order, from those of the entries
    that are kept, each at its entry's position. *)
Inductive described_kept (ydl : extractor)
    : nat -> list EntryDict -> list VideoInfo -> Prop :=
| kept_nil (i : nat) : described_kept ydl i [] []
| kept_cons (i : nat) (e : EntryDict) (es : list EntryDict)
    (v : VideoInfo) (vs : list VideoInfo) :
    entry_kept ydl i e = true -> describes i e v ->
    described_kept ydl (S i) es vs ->
    described_kept ydl i (e :: es) (v :: vs)
| kept_skip (i : nat) (e : EntryDict) (es : list EntryDict) (vs : list VideoInfo) :
    entry_kept ydl i e = false ->
    described_kept ydl (S i) es vs ->
    described_kept ydl i (e :: es) vs.

(** Item [video], at position [i] of the selected list, is passed: the
    flag is clear at its check, its title can be sliced and its download
    returns. *)
Definition item_passes (env : download_env) (i : nat) (video : VideoInfo) : bool :=
  negb (is_set env i)
  && match title video with Some _ => true | None => false end
  && match download env i (url video) with Returns _ => true | Raises _ => false end.

Fixpoint items_pass (env : download_env) (i : nat) (l : list VideoInfo) : bool :=
  match l with
  | [] => true
  | video :: l' => item_passes env i video && items_pass env (S i) l'
  end.

(** The exception that item [video] raises at position [i], if any. *)
Definition item_raises (env : download_env) (i : nat) (video : VideoInfo)
    : option string :=
  match title video with
  | None => Some "'NoneType' object is not subscriptable"
  | Some _ =>
      match download env i (url video) with
      | Raises e => Some e
      | Returns _ => None
      end
  end.

(** The progress line of item [video] at position [i]. *)
Definition progress_line (total i : nat) (video : VideoInfo) : string :=
  "Downloading " ++ str_nat (i + 1) ++ "/" ++ str_nat total ++ ": "
  ++ slice_to 50 (match title video with Some t => t | None => EmptyString end) ++ "...".

Fixpoint progress_lines (total i : nat) (l : list VideoInfo) : list string :=
  match l with
  | [] => []
  | video :: l' => progress_line total i video :: progress_lines total (S i) l'
  end.

(** The actions of the items that were passed. *)
Fixpoint passed_actions (total i : nat) (l : list VideoInfo) : list action :=
  match l with
  | [] => []
  | video :: l' =>
      Put (Progress (progress_line total i video))
      :: Download ydl_opts_download (url video)
      :: passed_actions total (S i) l'
  end.

(** The actions of the item at which an exception is raised: none when
    the title cannot be sliced, the progress line and the call when the
    download itself raises. *)
Definition raising_actions (total i : nat) (video : VideoInfo) : list action :=
  match title video with
  | None => []
  | Some _ =>
      [Put (Progress (progress_line total i video));
       Download ydl_opts_download (url video)]
  end.

(** How one coordinator statement may change the thread table and the
    two handles: not at all, or by starting one worker while no worker of
    that kind is alive. *)
Inductive thread_change (a a' : App) : Prop :=
| change_none :
    threads a' = threads a ->
    fetch_thread a' = fetch_thread a ->
    download_thread a' = download_thread a ->
    thread_change a a'
| change_fetch (u : string) :
    thread_alive a (fetch_thread a) = false ->
    threads a' = threads a ++ [mkThread (target_fetch_video_info u) true] ->
    fetch_thread a' = Some (List.length (threads a)) ->
    download_thread a' = download_thread a ->
    thread_change a a'
| change_download :
    thread_alive a (download_thread a) = false ->
    threads a' = threads a ++ [mkThread target_download_videos true] ->
    fetch_thread a' = fetch_thread a ->
    download_thread a' = Some (List.length (threads a)) ->
    thread_change a a'.

(** The invariant of the thread table: a handle points into the table,
    at a thread of its kind, and every live worker is the one its
    handle names. *)
Definition handle_ok (kind : Thread -> bool) (ths : list Thread)
    (handle : option nat) : Prop :=
  (forall h, handle = Some h ->
     exists t, nth_error ths h = Some t /\ kind t = true)
  /\ (forall h t, nth_error ths h = Some t -> alive t = true -> kind t = true ->
       handle = Some h).

Definition handles_ok (a : App) : Prop :=
  handle_ok is_fetch (threads a) (fetch_thread a)
  /\ handle_ok is_download (threads a) (download_thread a).

(** The coordinator starts a download worker in the step from [a] to
    [a']: no download worker of [a] is alive, the table of [a'] is that
    of [a] followed by what the step started, the new download worker
    last, and the flag is clear. *)
Definition starts_download (a a' : App) : Prop :=
  exists started,
    threads a' = threads a ++ started ++ [mkThread target_download_videos true]
    /\ download_thread a' = Some (List.length (threads a ++ started))
    /\ thread_alive a (download_thread a) = false
    /\ cancel_download a' = false.

(** ** The claims that the code does not satisfy, as they are stated *)

(** A failed first resolution yields one classified [Status] and no
    [Videos] message. *)
Definition shallow_failure_classified (ydl : extractor) (url : string) : Prop :=
  forall text,
    ydl 0%nat ydl_opts_basic url = Raises text ->
    statuses (fetch_video_info ydl url) = [fetch_error_status text]
    /\ results (fetch_video_info ydl url) = [].

(** A collection of more than twenty items yields twenty descriptors. *)
Definition playlist_yields_twenty (ydl : extractor) (url : string) : Prop :=
  forall info vs,
    ydl 0%nat ydl_opts_basic url = Returns (Some info) ->
    has_entries info = true ->
    (20 < List.length (info_entries info))%nat ->
    In (Videos vs) (fetch_video_info ydl url) ->
    List.length vs = 20%nat.

(** An extraction service whose every call times out. *)
Definition ydl_timeout : extractor := fun _ _ _ => Raises "Connection timeout".

Definition blank_entry : EntryDict :=
  mkEntryDict Absent Absent Absent Absent Absent Absent Absent Absent.

Definition entry_of (vid : string) : EntryDict :=
  mkEntryDict (Present vid) (Present ("Title " ++ vid)%string) (Present (Int 65)) Absent
              Absent Absent Absent Absent.

(** A playlist of twenty-one items, two of them [None]. *)
Definition sparse_playlist : InfoDict :=
  mkInfoDict blank_entry
             (Present (None :: None :: repeat (Some (entry_of "a")) 19)).

Definition ydl_sparse : extractor :=
  fun n _ _ =>
    match n with
    | O => Returns (Some sparse_playlist)
    | _ => Returns (Some (mkInfoDict (entry_of "a") Absent))
    end.

(** A playlist of twenty-five items, none of them [None]. *)
Definition full_playlist : InfoDict :=
  mkInfoDict blank_entry (Present (repeat (Some (entry_of "a")) 25)).

Definition ydl_full : extractor :=
  fun n _ _ =>
    match n with
    | O => Returns (Some full_playlist)
    | _ => Returns (Some (mkInfoDict (entry_of "a") Absent))
    end.

(** A duration of 212.5 seconds, and an entry that carries it. *)
Definition seconds_212_5 : number := Float (float_of 425 (-1)).

Definition float_entry (vid : string) : EntryDict :=
  mkEntryDict (Present vid) (Present ("Title " ++ vid)%string) (Present seconds_212_5)
              Absent Absent Absent Absent Absent.

(** A single video with a [float] duration whose detailed resolution
    raises. *)
Definition ydl_float_detail_fails : extractor :=
  fun n _ _ =>
    match n with
    | O => Returns (Some (mkInfoDict (float_entry "a") Absent))
    | _ => Raises "HTTP Error 429"
    end.

(** A single video whose detailed resolution raises. *)
Definition ydl_detail_fails : extractor :=
  fun n _ _ =>
    match n with
    | O => Returns (Some (mkInfoDict (entry_of "a") Absent))
    | _ => Raises "HTTP Error 429"
    end.

(** Sample runs of the download worker. *)
Definition video_of (vid : string) (sel : bool) : VideoInfo :=
  mkVideoInfo (Some vid) (Some ("Title " ++ vid)%string) "1:05" (Some "Channel")
              ("https://www.youtube.com/watch?v=" ++ vid) (Some EmptyString) sel.

Definition three_videos : list VideoInfo :=
  [video_of "a" true; video_of "b" false; video_of "c" true; video_of "d" true].

(** The flag is seen set at the check before the third selected item. *)
Definition env_cancel_at_2 : download_env :=
  mk_download_env (fun i => Nat.eqb i 2) (fun _ _ => Returns tt).

(** The second download raises. *)
Definition env_fail_at_1 : download_env :=
  mk_download_env (fun _ => false)
    (fun i _ => if Nat.eqb i 1 then Raises "HTTP Error 403" else Returns tt).

(** The download action with nothing selected starts no worker. *)
Definition nothing_selected_starts_nothing (a : App) (i : Input) : Prop :=
  filter selected (videos a) = [] ->
  snd (Button_handle_event (download_button a) (event i)) = true ->
  threads (handle_event a i) = threads a.

(** Sample inputs: a press and a release of the left mouse button at
    [pos], the text field holding [txt] afterwards. *)
Definition press (pos : Z * Z) (txt : string) : Input :=
  mkInput (MOUSEBUTTONDOWN pos 1) pos
          (fun f => mkInputField txt (active f) (cursor_pos f)
                                 (cursor_visible f) (cursor_timer f)).

Definition release (pos : Z * Z) (txt : string) : Input :=
  mkInput (MOUSEBUTTONUP pos) pos
          (fun f => mkInputField txt (active f) (cursor_pos f)
                                 (cursor_visible f) (cursor_timer f)).

(** The time of one pass at sixty passes a second, in milliseconds. *)
Definition frame_time : float := float_of 266 (-4).

(** A fetched list of two videos, none selected, has been delivered and
    the download button is held down. *)
Definition app_listed : App :=
  update (put (Videos [video_of "a" false; video_of "b" false]) init) frame_time.

Definition app_download_pressed : App :=
  handle_event app_listed (press (800, 60)%Z EmptyString).

(** The fetch button was clicked with a URL in the text field. *)
Definition app_fetching : App :=
  handle_event (handle_event init (press (700, 60)%Z "https://youtu.be/x"))
               (release (700, 60)%Z "https://youtu.be/x").

(** ** Further specification-side definitions *)

(** Sample collections: four items of which one is [None] and one has a
    [float] duration, with every detailed call failing; items that are
    all [None]; an empty list of entries; and a first call that returns
    [None]. *)
Definition small_playlist : InfoDict :=
  mkInfoDict blank_entry
             (Present [Some (entry_of "a"); Some (float_entry "b"); None;
                       Some blank_entry]).

Definition ydl_small_no_details : extractor :=
  fun n _ _ =>
    match n with
    | O => Returns (Some small_playlist)
    | _ => Raises "HTTP Error 429"
    end.

Definition null_playlist : InfoDict :=
  mkInfoDict blank_entry (Present [None; None]).

Definition ydl_null_playlist : extractor :=
  fun _ _ _ => Returns (Some null_playlist).

Definition empty_playlist : InfoDict :=
  mkInfoDict (entry_of "list") (Present []).

Definition ydl_empty_playlist : extractor :=
  fun _ _ _ => Returns (Some empty_playlist).

Definition ydl_returns_none : extractor := fun _ _ _ => Returns None.

(** A single video for which both resolutions return the same, complete
    dictionary. *)
Definition ydl_video_a : extractor :=
  fun _ _ _ =>
    Returns (Some (mkInfoDict
                     (mkEntryDict (Present "a") (Present "Title a") (Present (Int 65))
                        (Present "Channel") Absent Absent Absent
                        (Present EmptyString))
                     Absent)).

(** [l] is an initial part of [l']. *)
Definition is_prefix_of {A} (l l' : list A) : Prop := exists rest, l' = l ++ rest.

(** The list widget is within its scroll range. *)
Definition scroll_ok (l : ScrollableList) : Prop :=
  (0 <= scroll_y l <= max_scroll l)%Z.

(** Twelve fetched videos, and a left click on the row at the top of the
    list widget. *)
Definition app_twelve : App :=
  update (put (Videos (repeat (video_of "a" false) 12)) init) frame_time.

Definition click_first_row : Input :=
  mkInput (MOUSEBUTTONDOWN (100, 170)%Z 1) (100, 170)%Z (fun f => f).

(** The four fields that queued messages write, as [update] folds over
    them. *)
Definition view : Type := (ScrollableList * string * string * list VideoInfo)%type.

Definition view_of (a : App) : view :=
  (video_list a, status_text a, progress_text a, videos a).

Definition with_view (v : view) (a : App) : App :=
  let '(l, st, pt, vs) := v in
  set_video_list l (set_status_text st (set_progress_text pt (set_videos vs a))).

Definition apply_view (v : view) (m : message) : view :=
  let '(l, st, pt, vs) := v in
  match m with
  | Status data => (l, data, pt, vs)
  | Progress data => (l, st, data, vs)
  | Videos data => (set_items l data, st, pt, data)
  end.

(** The scroll range [set_items] computes for a list of [n] items. *)
Definition scroll_range (l : ScrollableList) (n : nat) : Z :=
  Z.max 0 (Z.of_nat n * item_height - height (l_rect l)).

(** A turn of the mouse wheel over the list. *)
Definition wheel (y : Z) : Input :=
  mkInput (MOUSEWHEEL y) (100, 170)%Z (fun f => f).

(** The list widget is in range and in step with the list. *)
Definition list_in_step (a : App) : Prop :=
  scroll_ok (video_list a)
  /\ max_scroll (video_list a)
     = scroll_range (video_list a) (List.length (videos a)).

(** ** The text field: [InputField.handle_event] *)

(** Python's slices [s[:n]] and [s[n:]] for any integer [n]: a negative
    bound counts from the end, and every bound is brought into the
    string. *)
Definition py_len (s : string) : Z := Z.of_nat (String.length s).

Definition slice_bound (n : Z) (s : string) : nat :=
  Z.to_nat (Z.max 0 (Z.min (py_len s) (if (n <? 0)%Z then py_len s + n else n))).

Definition slice_until (n : Z) (s : string) : string :=
  substring 0 (slice_bound n s) s.

Definition slice_from (n : Z) (s : string) : string :=
  substring (slice_bound n s) (String.length s) s.

(** [str.isprintable], on characters below code point 256: the ASCII
    range from the space to the tilde, and the Latin-1 range without the
    no-break space and the soft hyphen.  The empty string is printable. *)
Definition is_printable_char (c : ascii) : bool :=
  let n := nat_of_ascii c in
  (((32 <=? n) && (n <=? 126)) || ((161 <=? n) && negb (n =? 173)))%nat.

Fixpoint isprintable (s : string) : bool :=
  match s with
  | EmptyString => true
  | String c s' => is_printable_char c && isprintable s'
  end.

(** The keys the field tells apart. *)
Inductive Key : Type :=
| K_v | K_c | K_a | K_x
| K_BACKSPACE | K_DELETE | K_LEFT | K_RIGHT | K_HOME | K_END
| K_other.

(** What the handler reads for a [KEYDOWN] event: the event's [key] and
    [unicode], whether a control key is held
    ([pygame.key.get_pressed()]), the clipboard text ([None] when a
    [tkinter] call of the paste raises), and whether the [tkinter] calls
    of a cut succeed. *)
Record KeyInfo : Type := mkKeyInfo {
  key : Key;
  unicode : string;
  ctrl_held : bool;
  clipboard_get : option string;
  clipboard_set : bool
}.

(** [InputField.handle_event], for a field whose rectangle is [rect]. *)
Definition InputField_handle_event (rect : Rect) (f : InputField) (ev : Event)
    (k : KeyInfo) : InputField :=
  match ev with
  | MOUSEBUTTONDOWN pos _ =>
      mkInputField (text f) (collidepoint rect pos) (cursor_pos f)
                   (cursor_visible f) (cursor_timer f)
  | KEYDOWN =>
      if active f then
        if ctrl_held k then
          match key k with
          | K_v =>
              match clipboard_get k with
              | Some clipboard_text =>
                  mkInputField
                    (slice_until (cursor_pos f) (text f) ++ clipboard_text
                     ++ slice_from (cursor_pos f) (text f))
                    (active f) (cursor_pos f + py_len clipboard_text)
                    (cursor_visible f) (cursor_timer f)
              | None => f
              end
          | K_c => f
          | K_a => mkInputField (text f) (active f) (py_len (text f))
                                (cursor_visible f) (cursor_timer f)
          | K_x =>
              if clipboard_set k
              then mkInputField EmptyString (active f) 0
                                (cursor_visible f) (cursor_timer f)
              else f
          | _ => f
          end
        else
          match key k with
          | K_BACKSPACE =>
              if (0 <? cursor_pos f)%Z
              then mkInputField
                     (slice_until (cursor_pos f - 1) (text f)
                      ++ slice_from (cursor_pos f) (text f))
                     (active f) (cursor_pos f - 1)
                     (cursor_visible f) (cursor_timer f)
              else f
          | K_DELETE =>
              if (cursor_pos f <? py_len (text f))%Z
              then mkInputField
                     (slice_until (cursor_pos f) (text f)
                      ++ slice_from (cursor_pos f + 1) (text f))
                     (active f) (cursor_pos f)
                     (cursor_visible f) (cursor_timer f)
              else f
          | K_LEFT =>
              mkInputField (text f) (active f) (Z.max 0 (cursor_pos f - 1))
                           (cursor_visible f) (cursor_timer f)
          | K_RIGHT =>
              mkInputField (text f) (active f)
                           (Z.min (py_len (text f)) (cursor_pos f + 1))
                           (cursor_visible f) (cursor_timer f)
          | K_HOME => mkInputField (text f) (active f) 0
                                   (cursor_visible f) (cursor_timer f)
          | K_END => mkInputField (text f) (active f) (py_len (text f))
                                  (cursor_visible f) (cursor_timer f)
          | _ =>
              if isprintable (unicode k)
              then mkInputField
                     (slice_until (cursor_pos f) (text f) ++ unicode k
                      ++ slice_from (cursor_pos f) (text f))
                     (active f) (cursor_pos f + 1)
                     (cursor_visible f) (cursor_timer f)
              else f
          end
      else f
  | _ => f
  end.

(** The rectangle of [url_input], and an input whose effect on the text
    field is the handler's. *)
Definition url_input_rect : Rect := mkRect 50 50 600 40.

Definition keyboard_input (ev : Event) (pos : Z * Z) (k : KeyInfo) : Input :=
  mkInput ev pos (fun f => InputField_handle_event url_input_rect f ev k).

(** The key press goes to the last branch of the handler, which inserts
    [unicode]. *)
Definition inserts_text (k : KeyInfo) : bool :=
  negb (ctrl_held k)
  && match key k with
     | K_v | K_c | K_a | K_x | K_other => true
     | _ => false
     end
  && isprintable (unicode k).

(** The cursor is inside the text or at one of its ends. *)
Definition cursor_ok (f : InputField) : Prop :=
  (0 <= cursor_pos f <= py_len (text f))%Z.

(** Sample key presses: the letter [c] typed, the backspace key, and a
    shift key, which carries no text. *)
Definition typed (c : ascii) : KeyInfo :=
  mkKeyInfo K_other (String c EmptyString) false None false.

Definition backspace : KeyInfo := mkKeyInfo K_BACKSPACE EmptyString false None false.

Definition shift_key : KeyInfo := mkKeyInfo K_other EmptyString false None false.

(** ** The loop of [run] *)

(** One pass of the loop, with what the workers did since the pass
    before it: the threads that ended and the messages that were put,
    and with the time [elapsed] that [run] measures as its [dt].  The
    pass handles the pending events and runs [update]; drawing is left
    out. *)
Record Frame : Type := mkFrame {
  ended : list nat;
  arrived : list message;
  inputs : list Input;
  elapsed : float
}.

Definition workers_before (a : App) (f : Frame) : App :=
  fold_left (fun a m => put m a) (arrived f)
            (fold_left (fun a h => thread_exit h a) (ended f) a).

Definition frame (a : App) (f : Frame) : App :=
  update (handle_events (workers_before a f) (inputs f)) (elapsed f).

(** [run]: the application when the loop has stopped, the flag set on the
    way out; [None] when the frames given are used up with the loop still
    running. *)
Fixpoint run (a : App) (frames : list Frame) : option App :=
  match frames with
  | [] => if running a then None else Some (set_cancel_download true a)
  | f :: rest =>
      if running a then run (frame a f) rest
      else Some (set_cancel_download true a)
  end.

(** ** [VideoBackground]: starting and stopping the playback *)

(** The fields [start_playback] and [stop_playback] read and write;
    [cap] and [clip] say whether [load_video] has set them. *)
Record VideoBackground : Type := mkVideoBackground {
  cap : bool;
  clip : bool;
  is_playing : bool;
  audio_started : bool
}.

(** [start_playback]: the object afterwards, and whether the call started
    the audio thread. *)
Definition start_playback (v : VideoBackground) : VideoBackground * bool :=
  if cap v && clip v
  then (mkVideoBackground (cap v) (clip v) true true, negb (audio_started v))
  else (v, false).

Definition stop_playback (v : VideoBackground) : VideoBackground :=
  mkVideoBackground (cap v) (clip v) false (audio_started v).

(** A sequence of calls, [true] for [start_playback] and [false] for
    [stop_playback]: the object afterwards and the number of audio
    threads the calls started. *)
Fixpoint playback_calls (calls : list bool) (v : VideoBackground)
    : VideoBackground * nat :=
  match calls with
  | [] => (v, 0%nat)
  | true :: rest =>
      let (v', started) := start_playback v in
      let (v'', n) := playback_calls rest v' in
      (v'', ((if started then 1 else 0) + n)%nat)
  | false :: rest => playback_calls rest (stop_playback v)
  end.

(** A frame that holds a [QUIT] event followed by a click on nothing. *)
Definition quit_frame : Frame :=
  mkFrame [] [] [mkInput QUIT (0, 0)%Z (fun f => f); press (5, 5)%Z "x"] frame_time.

Definition idle_frame : Frame := mkFrame [] [] [wheel 1] frame_time.

(** ** The duration formatter *)

Lemma format_02d_two_digits (m : Z) :
  (0 <= m < 60)%Z -> format_02d m = two_digits m.
Proof.
  intros Hm.
  assert (Hn : exists n, (n < 60)%nat /\ m = Z.of_nat n).
  { exists (Z.to_nat m). split; lia. }
  destruct Hn as (n & Hn & ->).
  do 60 (destruct n as [|n]; [reflexivity|]).
  lia.
Qed.

Lemma minutes_field (s : Z) : ((s mod 3600) / 60 = (s / 60) mod 60)%Z.
Proof.
  replace 3600%Z with (60 * 60)%Z by reflexivity.
  rewrite Z.rem_mul_r by lia.
  rewrite (Z.mul_comm 60 ((s / 60) mod 60)), Z.div_add by lia.
  rewrite Z.div_small by (apply Z.mod_pos_bound; lia).
  reflexivity.
Qed.

(** C7: the formatter maps 0 to "0:00", 65 to "1:05" and 3725 to
    "1:02:05"; for every non-negative number of seconds its result is the
    clock text of the specification, H:MM:SS from one hour on and M:SS
    below. *)
Theorem format_duration_clock (s : Z) (Hs : (0 <= s)%Z) :
  _format_duration (Some (Int s)) = Returns (clock_text s)
  /\ _format_duration (Some (Int 0)) = Returns "0:00"
  /\ _format_duration (Some (Int 65)) = Returns "1:05"
  /\ _format_duration (Some (Int 3725)) = Returns "1:02:05".
Proof.
  split; [|repeat split; reflexivity].
  unfold _format_duration, clock_text.
  destruct (Z.eqb_spec s 0) as [->|Hne]; [reflexivity|].
  assert (Hsec : (0 <= s mod 60 < 60)%Z) by (apply Z.mod_pos_bound; lia).
  assert (Hmin : (0 <= (s / 60) mod 60 < 60)%Z) by (apply Z.mod_pos_bound; lia).
  rewrite minutes_field.
  destruct (Z.leb_spec 3600 s) as [Hge|Hlt].
  - assert (Hh : (1 <= s / 3600)%Z) by (apply Z.div_le_lower_bound; lia).
    destruct (Z.eqb_spec (s / 3600) 0) as [H0|_]; [lia|]. cbn [negb].
    now rewrite !format_02d_two_digits.
  - rewrite Z.div_small by lia. cbn [Z.eqb negb].
    assert (Hq : (s / 60 < 60)%Z) by (apply Z.div_lt_upper_bound; lia).
    rewrite (Z.mod_small (s / 60)) by (split; [apply Z.div_pos; lia | lia]).
    now rewrite format_02d_two_digits.
Qed.

Lemma format_duration_clock_witness :
  (0 <= 3725)%Z /\ _format_duration (Some (Int 3725)) = Returns (clock_text 3725).
Proof.
  split; [lia | apply (format_duration_clock 3725); lia].
Defined.

(** ** The fetch worker *)

Lemma statuses_app (l1 l2 : list message) :
  statuses (l1 ++ l2) = statuses l1 ++ statuses l2.
Proof.
  induction l1 as [|[t|t|d] l1 IH]; cbn; [reflexivity| |assumption|assumption].
  now rewrite IH.
Qed.

Lemma results_app (l1 l2 : list message) :
  results (l1 ++ l2) = results l1 ++ results l2.
Proof.
  induction l1 as [|[t|t|d] l1 IH]; cbn; [reflexivity|assumption|assumption|].
  now rewrite IH.
Qed.

Lemma progresses_app (l1 l2 : list message) :
  progresses (l1 ++ l2) = progresses l1 ++ progresses l2.
Proof.
  induction l1 as [|[t|t|d] l1 IH]; cbn; [reflexivity|assumption| |assumption].
  now rewrite IH.
Qed.

(** The formatter on the duration a pass chooses: it returns unless the
    duration is a [float] other than zero. *)
Lemma format_or_zero_returns (x : option number) :
  formattable x = true ->
  exists t, _format_duration (Some (or_zero x)) = Returns t.
Proof.
  destruct x as [[z|f]|]; cbn; intros H.
  - unfold or_zero, truthy_num.
    destruct (Z.eqb_spec z 0) as [->|Hz]; cbn; [eexists; reflexivity|].
    destruct (Z.eqb_spec z 0) as [E|_]; [contradiction|].
    destruct (negb (z / 3600 =? 0)%Z); eexists; reflexivity.
  - destruct f; try discriminate H; eexists; reflexivity.
  - eexists; reflexivity.
Qed.

Lemma format_or_zero_raises (x : option number) :
  formattable x = false ->
  _format_duration (Some (or_zero x)) = Raises format_d_float.
Proof.
  destruct x as [[z|f]|]; cbn; intros H; try discriminate H.
  destruct f; try discriminate H; reflexivity.
Qed.

Lemma format_get_default_returns (d : field number) :
  formattable (get d) = true ->
  exists t, _format_duration (get_default d (Some (Int 0))) = Returns t.
Proof.
  destruct d as [| |[z|f]]; cbn; intros H; try (eexists; reflexivity).
  - destruct (z =? 0)%Z; [eexists; reflexivity|].
    destruct (negb (z / 3600 =? 0)%Z); eexists; reflexivity.
  - destruct f; try discriminate H; eexists; reflexivity.
Qed.

Lemma format_get_default_raises (d : field number) :
  formattable (get d) = false ->
  _format_duration (get_default d (Some (Int 0))) = Raises format_d_float.
Proof.
  destruct d as [| |[z|f]]; cbn; intros H; try discriminate H.
  destruct f; try discriminate H; reflexivity.
Qed.

(** The loop body: an entry that is kept yields its descriptor, and one
    that is not leaves the body with the formatter's exception; the
    notice is put either way. *)
Lemma process_entry_kept (ydl : extractor) (n i : nat) (e : EntryDict) :
  entry_kept ydl i e = true ->
  exists v,
    process_entry ydl n i e = ([Status (processing_line n i)], Returns v)
    /\ describes i e v.
Proof.
  unfold entry_kept, detail_ok, entry_video_url, entry_video_id, process_entry,
    processing_line.
  unfold bind, emit, call, try_except, deref, ret, raise.
  destruct (ydl (S i) ydl_opts_single _) as [[d|]|t].
  - destruct (formattable (or_num (get (k_duration (keys d))) (get (k_duration e))))
      eqn:Hd.
    + intros _. destruct (format_or_zero_returns _ Hd) as (t & ->).
      eexists. split; [reflexivity | repeat split].
    + rewrite (format_or_zero_raises _ Hd). cbn [orb]. intros He.
      destruct (format_or_zero_returns _ He) as (t & ->).
      eexists. split; [reflexivity | repeat split].
  - cbn [orb]. intros He. destruct (format_or_zero_returns _ He) as (t & ->).
    eexists. split; [reflexivity | repeat split].
  - cbn [orb]. intros He. destruct (format_or_zero_returns _ He) as (t0 & ->).
    eexists. split; [reflexivity | repeat split].
Qed.

Lemma process_entry_skipped (ydl : extractor) (n i : nat) (e : EntryDict) :
  entry_kept ydl i e = false ->
  process_entry ydl n i e = ([Status (processing_line n i)], Raises format_d_float).
Proof.
  unfold entry_kept, detail_ok, entry_video_url, entry_video_id, process_entry,
    processing_line.
  unfold bind, emit, call, try_except, deref, ret, raise.
  destruct (ydl (S i) ydl_opts_single _) as [[d|]|t].
  - intros H. apply orb_false_iff in H as [Hd He].
    rewrite (format_or_zero_raises _ Hd), (format_or_zero_raises _ He). reflexivity.
  - cbn [orb]. intros He. rewrite (format_or_zero_raises _ He). reflexivity.
  - cbn [orb]. intros He. rewrite (format_or_zero_raises _ He). reflexivity.
Qed.

(** The loop puts one notice per entry, in order, and appends the
    descriptors of the entries that are kept.  The descriptor of a kept
    entry stands after those of the kept entries before it. *)
Lemma process_entries_run (ydl : extractor) (n : nat) (es : list EntryDict) :
  forall (i : nat) (videos : list VideoInfo),
  exists vs,
    process_entries ydl n i es videos
    = (map (fun k => Status (processing_line n k)) (seq i (List.length es)),
       Returns (videos ++ vs))
    /\ described_kept ydl i es vs
    /\ List.length vs = kept_count ydl i es
    /\ forall j e, nth_error es j = Some e -> entry_kept ydl (i + j) e = true ->
         exists v, nth_error vs (kept_count ydl i (firstn j es)) = Some v
                   /\ process_entry ydl n (i + j) e
                      = ([Status (processing_line n (i + j))], Returns v).
Proof.
  induction es as [|e es IH]; intros i videos.
  - exists []. cbn. rewrite app_nil_r. repeat split; [constructor|].
    intros j e H. destruct j; discriminate H.
  - destruct (entry_kept ydl i e) eqn:Hk.
    + destruct (process_entry_kept ydl n i e Hk) as (v & Hv & Hd).
      destruct (IH (S i) (videos ++ [v])) as (vs & Hrun & Hdk & Hlen & Hpt).
      exists (v :: vs). split; [|split; [|split]].
      * cbn [process_entries]. rewrite Hv. cbn. rewrite Hrun.
        rewrite <- app_assoc. reflexivity.
      * now apply kept_cons.
      * cbn [List.length kept_count]. rewrite Hk, Hlen. reflexivity.
      * intros j e' Hj Hk'. destruct j as [|j]; cbn [nth_error firstn kept_count] in *.
        -- injection Hj as <-. exists v. rewrite Nat.add_0_r. split; [reflexivity|exact Hv].
        -- rewrite Hk. rewrite Nat.add_succ_r in Hk' |- *.
           destruct (Hpt j e' Hj Hk') as (v' & Hn & Hp). exists v'.
           split; assumption.
    + pose proof (process_entry_skipped ydl n i e Hk) as Hv.
      destruct (IH (S i) videos) as (vs & Hrun & Hdk & Hlen & Hpt).
      exists vs. split; [|split; [|split]].
      * cbn [process_entries]. rewrite Hv. cbn. rewrite Hrun. reflexivity.
      * now apply kept_skip.
      * cbn [kept_count]. rewrite Hk, Hlen. reflexivity.
      * intros j e' Hj Hk'. destruct j as [|j]; cbn [nth_error firstn kept_count] in *.
        -- injection Hj as <-. rewrite Nat.add_0_r in Hk'. congruence.
        -- rewrite Hk. rewrite Nat.add_succ_r in Hk' |- *.
           destruct (Hpt j e' Hj Hk') as (v' & Hn & Hp). exists v'.
           split; assumption.
Qed.

Lemma described_from_length (i : nat) (es : list EntryDict) (vs : list VideoInfo) :
  described_from i es vs -> List.length vs = List.length es.
Proof. induction 1; cbn; congruence. Qed.

(** With every entry kept, the descriptors are those of all entries. *)
Lemma described_all_kept (ydl : extractor) (i : nat) (es : list EntryDict)
    (vs : list VideoInfo) :
  described_kept ydl i es vs -> entries_kept ydl i es = true ->
  described_from i es vs.
Proof.
  induction 1 as [i|i e es v vs Hk Hd _ IH|i e es vs Hk _ IH];
    cbn [entries_kept]; intros Hall.
  - constructor.
  - apply andb_true_iff in Hall as [_ Hall]. constructor; [assumption | now apply IH].
  - rewrite Hk in Hall. discriminate Hall.
Qed.

Lemma kept_count_le (ydl : extractor) (es : list EntryDict) :
  forall i, (kept_count ydl i es <= List.length es)%nat.
Proof.
  induction es as [|e es IH]; intros i; cbn; [lia|].
  specialize (IH (S i)). destruct (entry_kept ydl i e); lia.
Qed.

Lemma statuses_notices {A} (f : A -> string) (l : list A) :
  statuses (map (fun k => Status (f k)) l) = map f l.
Proof. induction l as [|t l IH]; cbn; [reflexivity | now rewrite IH]. Qed.

Lemma results_notices {A} (f : A -> string) (l : list A) :
  results (map (fun k => Status (f k)) l) = [].
Proof. induction l as [|t l IH]; cbn; [reflexivity | assumption]. Qed.

Lemma progresses_notices {A} (f : A -> string) (l : list A) :
  progresses (map (fun k => Status (f k)) l) = [].
Proof. induction l as [|t l IH]; cbn; [reflexivity | assumption]. Qed.

(** The single-video branch: its descriptor when it is built, and the
    formatter's exception when it is not. *)
Lemma single_video_built (ydl : extractor) (link : string) (info : InfoDict) :
  single_builds ydl link info = true ->
  exists v,
    single_video ydl link info = ([Status "Getting video details..."], Returns [v])
    /\ url v = link /\ selected v = false.
Proof.
  unfold single_builds, detail_ok, single_video.
  unfold bind, emit, call, try_except, deref, ret, raise.
  destruct (ydl 1%nat ydl_opts_detailed link) as [[d|]|t].
  - destruct (formattable (or_num (get (k_duration (keys d)))
                                  (get (k_duration (keys info))))) eqn:Hd.
    + intros _. destruct (format_or_zero_returns _ Hd) as (t & ->).
      eexists. split; [reflexivity | split; reflexivity].
    + rewrite (format_or_zero_raises _ Hd). cbn [orb]. intros He.
      destruct (format_get_default_returns _ He) as (t & ->).
      eexists. split; [reflexivity | split; reflexivity].
  - cbn [orb]. intros He. destruct (format_get_default_returns _ He) as (t & ->).
    eexists. split; [reflexivity | split; reflexivity].
  - cbn [orb]. intros He. destruct (format_get_default_returns _ He) as (t0 & ->).
    eexists. split; [reflexivity | split; reflexivity].
Qed.

Lemma single_video_raises (ydl : extractor) (link : string) (info : InfoDict) :
  single_builds ydl link info = false ->
  single_video ydl link info
  = ([Status "Getting video details..."], Raises format_d_float).
Proof.
  unfold single_builds, detail_ok, single_video.
  unfold bind, emit, call, try_except, deref, ret, raise.
  destruct (ydl 1%nat ydl_opts_detailed link) as [[d|]|t].
  - intros H. apply orb_false_iff in H as [Hd He].
    rewrite (format_or_zero_raises _ Hd), (format_get_default_raises _ He).
    reflexivity.
  - cbn [orb]. intros He. rewrite (format_get_default_raises _ He). reflexivity.
  - cbn [orb]. intros He. rewrite (format_get_default_raises _ He). reflexivity.
Qed.

(** The outermost handler is reached when the first call returns [None]:
    its status text is the classifier's. *)
Lemma fetch_none_classified (ydl : extractor) (url : string) :
  ydl 0%nat ydl_opts_basic url = Returns None ->
  fetch_video_info ydl url
  = [Status "Fetching video information...";
     Status (fetch_error_status "argument of type 'NoneType' is not iterable")].
Proof.
  intros H. unfold fetch_video_info, fetch_body. cbn. rewrite H. reflexivity.
Qed.

(** The classifier looks for its three patterns in the lowercased text,
    in this order, and otherwise keeps the text. *)
Lemma fetch_error_status_examples :
  fetch_error_status "Read TIMEOUT after 30s"
  = "Error: Request timed out. Check your internet connection."
  /\ fetch_error_status "Video unavailable"
     = "Error: Video is unavailable or private"
  /\ fetch_error_status "Playlist Not Found"
     = "Error: Video or playlist not found"
  /\ fetch_error_status "unavailable: timeout"
     = "Error: Request timed out. Check your internet connection."
  /\ fetch_error_status "HTTP Error 403" = "Error: HTTP Error 403".
Proof. repeat split. Qed.

(** C1, as the code has it: when the first, shallow resolution raises
    with text [text], the run puts exactly two messages, both [Status]:
    the opening notice and "Error fetching basic info: " followed by the
    text as it is, not classified; no [Videos] message is put. *)
Theorem fetch_shallow_failure (ydl : extractor) (url text : string)
    (Hfail : ydl 0%nat ydl_opts_basic url = Raises text) :
  fetch_video_info ydl url
  = [Status "Fetching video information...";
     Status ("Error fetching basic info: " ++ text)].
Proof.
  unfold fetch_video_info, fetch_body. cbn. rewrite Hfail. reflexivity.
Qed.

Lemma fetch_shallow_failure_witness :
  ydl_timeout 0%nat ydl_opts_basic "https://youtu.be/x" = Raises "Connection timeout"
  /\ fetch_video_info ydl_timeout "https://youtu.be/x"
     = [Status "Fetching video information...";
        Status "Error fetching basic info: Connection timeout"].
Proof.
  split; [reflexivity | apply (fetch_shallow_failure ydl_timeout); reflexivity].
Defined.

(** C1 as stated fails: a timeout of the first resolution leaves two
    [Status] messages, none of them the classified text. *)
Lemma shallow_failure_not_classified :
  ~ shallow_failure_classified ydl_timeout "https://youtu.be/x".
Proof.
  intros H. destruct (H "Connection timeout" eq_refl) as [Hst _].
  vm_compute in Hst. discriminate Hst.
Qed.

(** The shapes of a run whose first resolution returned a dictionary,
    shared by the results below. *)
Lemma fetch_playlist_trace (ydl : extractor) (url : string) (info : InfoDict) :
  ydl 0%nat ydl_opts_basic url = Returns (Some info) ->
  has_entries info = true ->
  exists vs,
    fetch_video_info ydl url
    = Status "Fetching video information..."
      :: Status ("Found playlist with "
                 ++ str_nat (List.length (processed_entries info))
                 ++ " videos. Getting details...")
      :: map (fun k => Status (processing_line
                                 (List.length (processed_entries info)) k))
             (seq 0 (List.length (processed_entries info)))
      ++ [Videos vs;
          Status ("Successfully loaded " ++ str_nat (List.length vs) ++ " video(s)")]
    /\ described_kept ydl 0 (processed_entries info) vs
    /\ List.length vs = kept_count ydl 0 (processed_entries info)
    /\ forall j e, nth_error (processed_entries info) j = Some e ->
         entry_kept ydl j e = true ->
         exists v, nth_error vs (kept_count ydl 0 (firstn j (processed_entries info)))
                   = Some v
                   /\ process_entry ydl (List.length (processed_entries info)) j e
                      = ([Status (processing_line
                                    (List.length (processed_entries info)) j)],
                         Returns v).
Proof.
  intros Hshallow Hpl.
  destruct (process_entries_run ydl (List.length (processed_entries info))
              (processed_entries info) 0 []) as (vs & Hrun & Hdk & Hlen & Hpt).
  exists vs. split; [|split; [|split]]; try assumption.
  unfold fetch_video_info, fetch_body.
  cbn -[playlist single_video]. rewrite Hshallow. cbn -[playlist single_video].
  rewrite Hpl. unfold playlist. cbv zeta.
  fold (processed_entries info).
  unfold bind at 2. unfold emit at 1. rewrite Hrun. cbn. reflexivity.
Qed.

Lemma fetch_playlist_run (ydl : extractor) (url : string) (info : InfoDict) :
  ydl 0%nat ydl_opts_basic url = Returns (Some info) ->
  has_entries info = true ->
  exists msgs vs,
    fetch_video_info ydl url
    = (Status "Fetching video information..." :: msgs)
      ++ [Videos vs;
          Status ("Successfully loaded " ++ str_nat (List.length vs) ++ " video(s)")]
    /\ described_kept ydl 0 (processed_entries info) vs
    /\ results msgs = [] /\ progresses msgs = [].
Proof.
  intros Hshallow Hpl.
  destruct (fetch_playlist_trace ydl url info Hshallow Hpl) as (vs & Hrun & Hdk & _).
  exists (Status ("Found playlist with "
                  ++ str_nat (List.length (processed_entries info))
                  ++ " videos. Getting details...")
          :: map (fun k => Status (processing_line
                                     (List.length (processed_entries info)) k))
                 (seq 0 (List.length (processed_entries info)))), vs.
  split; [|split; [exact Hdk|]].
  - rewrite Hrun. reflexivity.
  - cbn [results progresses]. now rewrite results_notices, progresses_notices.
Qed.

Lemma fetch_single_run (ydl : extractor) (url : string) (info : InfoDict) :
  ydl 0%nat ydl_opts_basic url = Returns (Some info) ->
  has_entries info = false ->
  single_builds ydl url info = true ->
  exists v,
    single_video ydl url info = ([Status "Getting video details..."], Returns [v])
    /\ fetch_video_info ydl url
       = [Status "Fetching video information..."; Status "Getting video details...";
          Videos [v]; Status "Successfully loaded 1 video(s)"].
Proof.
  intros Hshallow Hsg Hb.
  unfold fetch_video_info, fetch_body.
  cbn -[playlist single_video]. rewrite Hshallow. cbn -[playlist single_video].
  rewrite Hsg.
  destruct (single_video_built ydl url info Hb) as (v & Hrun & _).
  rewrite Hrun. cbn. exists v. split; reflexivity.
Qed.

(** A single video whose descriptor is not built: the formatter's
    exception reaches the outermost handler, and no list is delivered. *)
Lemma fetch_single_failed (ydl : extractor) (url : string) (info : InfoDict) :
  ydl 0%nat ydl_opts_basic url = Returns (Some info) ->
  has_entries info = false ->
  single_builds ydl url info = false ->
  fetch_video_info ydl url
  = [Status "Fetching video information..."; Status "Getting video details...";
     Status ("Error: " ++ format_d_float)].
Proof.
  intros Hshallow Hsg Hb.
  unfold fetch_video_info, fetch_body.
  cbn -[playlist single_video]. rewrite Hshallow. cbn -[playlist single_video].
  rewrite Hsg, (single_video_raises ydl url info Hb). reflexivity.
Qed.

Lemma results_In (l : list message) (vs : list VideoInfo) :
  In vs (results l) -> In (Videos vs) l.
Proof.
  induction l as [|m l IH]; cbn; intros H; [contradiction|].
  destruct m as [t|t|d]; cbn in H.
  - right. now apply IH.
  - right. now apply IH.
  - destruct H as [->|H]; [now left | right; now apply IH].
Qed.

Lemma has_entries_of_not_none (info : InfoDict) :
  (0 < List.length (not_none (info_entries info)))%nat -> has_entries info = true.
Proof.
  unfold has_entries, info_entries.
  destruct (k_entries info) as [| |[|e l]]; cbn; intros H; try lia; reflexivity.
Qed.



(** C2, as the code has it: for a collection with more than twenty
    entries that are not [None], of which the loop skips none of the
    first twenty, the [Videos] message carries exactly twenty
    descriptors, built in order from the first twenty such entries. *)
Theorem playlist_first_twenty (ydl : extractor) (url : string) (info : InfoDict)
    (Hshallow : ydl 0%nat ydl_opts_basic url = Returns (Some info))
    (Hmany : (20 < List.length (not_none (info_entries info)))%nat)
    (Hkept : entries_kept ydl 0 (firstn 20 (not_none (info_entries info))) = true) :
  exists vs,
    results (fetch_video_info ydl url) = [vs]
    /\ List.length vs = 20%nat
    /\ described_from 0 (firstn 20 (not_none (info_entries info))) vs.
Proof.
  assert (Hkind : has_entries info = true) by (apply has_entries_of_not_none; lia).
  destruct (fetch_playlist_run ydl url info Hshallow Hkind)
    as (msgs & vs & Hrun & Hdk & Hr & Hp).
  pose proof (described_all_kept _ _ _ _ Hdk Hkept) as Hdf.
  exists vs. rewrite Hrun, results_app. cbn. rewrite Hr.
  repeat split; [|assumption].
  rewrite (described_from_length _ _ _ Hdf).
  unfold processed_entries. rewrite length_firstn. lia.
Qed.

Lemma playlist_first_twenty_witness :
  ydl_full 0%nat ydl_opts_basic "https://youtu.be/list" = Returns (Some full_playlist)
  /\ (20 < List.length (not_none (info_entries full_playlist)))%nat
  /\ entries_kept ydl_full 0 (firstn 20 (not_none (info_entries full_playlist))) = true
  /\ exists vs,
       results (fetch_video_info ydl_full "https://youtu.be/list") = [vs]
       /\ List.length vs = 20%nat
       /\ described_from 0 (firstn 20 (not_none (info_entries full_playlist))) vs.
Proof.
  split; [reflexivity|]. split; [cbn; lia|]. split; [reflexivity|].
  apply (playlist_first_twenty ydl_full "https://youtu.be/list" full_playlist);
    [reflexivity | cbn; lia | reflexivity].
Defined.

(** C2 as stated fails: a collection of twenty-one items of which two
    are [None] yields nineteen descriptors. *)
Lemma sparse_playlist_yields_nineteen :
  ~ playlist_yields_twenty ydl_sparse "https://youtu.be/list".
Proof.
  intros H.
  pose (vs := hd [] (results (fetch_video_info ydl_sparse "https://youtu.be/list"))).
  assert (Hin : In (Videos vs) (fetch_video_info ydl_sparse "https://youtu.be/list")).
  { apply results_In. vm_compute. left. reflexivity. }
  assert (Hlen : (20 < List.length (info_entries sparse_playlist))%nat) by (cbn; lia).
  specialize (H sparse_playlist vs eq_refl eq_refl Hlen Hin).
  vm_compute in H. discriminate H.
Qed.

(** C9 fails on the code: a single video whose shallow pass delivers the
    [float] duration 212.5 and whose detailed resolution raises gets no
    descriptor.  The fallback formats the duration outside any inner
    handler, the formatter's [ValueError] reaches the outermost handler,
    and the run ends with its "Error: ..." notice and no [Videos]
    message. *)
Theorem single_video_fallback_float_duration :
  ydl_float_detail_fails 0%nat ydl_opts_basic "https://youtu.be/a"
  = Returns (Some (mkInfoDict (float_entry "a") Absent))
  /\ ydl_float_detail_fails 1%nat ydl_opts_detailed "https://youtu.be/a"
     = Raises "HTTP Error 429"
  /\ fetch_video_info ydl_float_detail_fails "https://youtu.be/a"
     = [Status "Fetching video information..."; Status "Getting video details...";
        Status "Error: Unknown format code 'd' for object of type 'float'"]
  /\ results (fetch_video_info ydl_float_detail_fails "https://youtu.be/a") = [].
Proof. repeat split. Qed.

(** ** The download worker *)

Lemma messages_of_app (l1 l2 : list action) :
  messages_of (l1 ++ l2) = messages_of l1 ++ messages_of l2.
Proof.
  induction l1 as [|[m|o u] l1 IH]; cbn; [reflexivity| |assumption].
  now rewrite IH.
Qed.

Lemma downloads_of_app (l1 l2 : list action) :
  downloads_of (l1 ++ l2) = downloads_of l1 ++ downloads_of l2.
Proof.
  induction l1 as [|[m|o u] l1 IH]; cbn; [reflexivity|assumption|].
  now rewrite IH.
Qed.

Lemma downloads_of_passed (total i : nat) (l : list VideoInfo) :
  downloads_of (passed_actions total i l) = map url l.
Proof.
  revert i. induction l as [|v l IH]; intros i; cbn; [reflexivity|].
  now rewrite IH.
Qed.

Lemma messages_of_passed (total i : nat) (l : list VideoInfo) :
  messages_of (passed_actions total i l) = map Progress (progress_lines total i l).
Proof.
  revert i. induction l as [|v l IH]; intros i; cbn; [reflexivity|].
  now rewrite IH.
Qed.

Lemma item_passes_inv (env : download_env) (i : nat) (v : VideoInfo) :
  item_passes env i v = true ->
  is_set env i = false
  /\ (exists t, title v = Some t)
  /\ download env i (url v) = Returns tt.
Proof.
  unfold item_passes. intros H.
  destruct (is_set env i); [discriminate|].
  destruct (title v) as [t|]; [|discriminate].
  destruct (download env i (url v)) as [[]|e]; [|discriminate].
  repeat split. now exists t.
Qed.

(** One iteration for an item that is passed. *)
Lemma download_loop_step (env : download_env) (total i : nat) (v : VideoInfo)
    (rest : list VideoInfo) :
  item_passes env i v = true ->
  download_loop env total i (v :: rest)
  = (passed_actions total i [v] ++ fst (download_loop env total (S i) rest),
     snd (download_loop env total (S i) rest)).
Proof.
  intros H. destruct (item_passes_inv env i v H) as (Hset & (t & Ht) & Hdl).
  cbn [download_loop passed_actions]. rewrite Hset.
  unfold title_prefix, progress_line. rewrite Ht, Hdl.
  destruct (download_loop env total (S i) rest) as [acts r]. reflexivity.
Qed.

(** The loop over a passed prefix [done] continues with the rest. *)
Lemma download_loop_passed (env : download_env) (total : nat) (done : list VideoInfo) :
  forall (i : nat) (rest : list VideoInfo),
    items_pass env i done = true ->
    download_loop env total i (done ++ rest)
    = (passed_actions total i done
       ++ fst (download_loop env total (i + List.length done) rest),
       snd (download_loop env total (i + List.length done) rest)).
Proof.
  induction done as [|v done IH]; intros i rest H.
  - cbn [app List.length passed_actions]. rewrite Nat.add_0_r.
    now destruct (download_loop env total i rest).
  - cbn [items_pass] in H. apply andb_prop in H. destruct H as [Hv Hdone].
    change ((v :: done) ++ rest) with (v :: (done ++ rest)).
    rewrite (download_loop_step _ _ _ _ _ Hv), (IH _ _ Hdone).
    cbn [fst snd List.length]. rewrite Nat.add_succ_r.
    cbn [passed_actions app]. reflexivity.
Qed.

(** How a loop can end: every item passed, or a first item at which the
    flag was seen set, or a first item that raised. *)
Lemma download_loop_raises (env : download_env) (total : nat) (sel : list VideoInfo) :
  forall (i : nat) (acts : list action) (e : string),
    download_loop env total i sel = (acts, Raises e) ->
    exists done video rest,
      sel = done ++ video :: rest
      /\ items_pass env i done = true
      /\ is_set env (i + List.length done) = false
      /\ item_raises env (i + List.length done) video = Some e
      /\ acts = passed_actions total i done
                ++ raising_actions total (i + List.length done) video.
Proof.
  induction sel as [|v sel IH]; intros i acts e H.
  - discriminate H.
  - destruct (item_passes env i v) eqn:Hv.
    + rewrite (download_loop_step _ _ _ _ _ Hv) in H.
      destruct (download_loop env total (S i) sel) as [acts' r] eqn:Hrest.
      cbn [fst snd] in H. injection H as <- ->.
      destruct (IH _ _ _ Hrest) as (done & video & rest & -> & Hd & Hs & Hr & ->).
      exists (v :: done), video, rest. cbn [List.length items_pass].
      rewrite Nat.add_succ_r, Hv, Hd. cbn [andb].
      repeat split; assumption.
    + exists [], v, sel. cbn [List.length items_pass passed_actions app].
      rewrite Nat.add_0_r.
      cbn [download_loop] in H. unfold item_passes in Hv.
      unfold item_raises, raising_actions, title_prefix, progress_line in *.
      destruct (is_set env i); [discriminate H|].
      destruct (title v) as [t|].
      * destruct (download env i (url v)) as [[]|e']; [discriminate Hv|].
        cbn in H. injection H as <- <-. repeat split.
      * cbn in H. injection H as <- <-. repeat split.
Qed.

(** One iteration for an item that raises: slicing a [None] title before
    anything is put, or the download call after its progress line. *)
Lemma download_loop_raising (env : download_env) (total i : nat) (video : VideoInfo)
    (rest : list VideoInfo) (e : string) :
  is_set env i = false ->
  item_raises env i video = Some e ->
  download_loop env total i (video :: rest)
  = (raising_actions total i video, Raises e).
Proof.
  intros Hclear Hraise. cbn [download_loop]. rewrite Hclear.
  unfold item_raises, raising_actions, title_prefix, progress_line in *.
  destruct (title video) as [t|].
  - destruct (download env i (url video)) as [[]|e']; [discriminate Hraise|].
    injection Hraise as ->. reflexivity.
  - injection Hraise as <-. reflexivity.
Qed.

(** The three ways a run of the worker ends after its first message. *)
Lemma download_cancelled_run (env : download_env) (videos : list VideoInfo)
    (done rest : list VideoInfo) (video : VideoInfo) :
  filter selected videos = done ++ video :: rest ->
  items_pass env 0 done = true ->
  is_set env (List.length done) = true ->
  download_videos env videos
  = Put (Status ("Downloading " ++ str_nat (List.length (done ++ video :: rest))
                 ++ " video(s)..."))
    :: passed_actions (List.length (done ++ video :: rest)) 0 done
    ++ [Put (Status "Download cancelled")].
Proof.
  intros Hsel Hdone Hset.
  unfold download_videos, download_body. rewrite Hsel.
  destruct (done ++ video :: rest) as [|v0 l0] eqn:E;
    [now destruct done|]. rewrite <- E.
  rewrite (download_loop_passed env _ done 0 (video :: rest) Hdone).
  cbn [Nat.add download_loop]. rewrite Hset. cbn. now rewrite app_nil_r.
Qed.

Lemma download_completed_run (env : download_env) (videos : list VideoInfo) :
  filter selected videos <> [] ->
  items_pass env 0 (filter selected videos) = true ->
  download_videos env videos
  = Put (Status ("Downloading " ++ str_nat (List.length (filter selected videos))
                 ++ " video(s)..."))
    :: passed_actions (List.length (filter selected videos)) 0 (filter selected videos)
    ++ [Put (Status ("Successfully downloaded "
                     ++ str_nat (List.length (filter selected videos))
                     ++ " video(s)"));
        Put (Progress EmptyString)].
Proof.
  intros Hne Hall.
  unfold download_videos, download_body.
  destruct (filter selected videos) as [|v0 l0] eqn:E; [contradiction|].
  pose proof (download_loop_passed env (List.length (v0 :: l0)) (v0 :: l0) 0 [] Hall)
    as Hloop.
  rewrite app_nil_r in Hloop. rewrite Hloop.
  cbn. now rewrite app_nil_r.
Qed.

Lemma download_raised_run (env : download_env) (videos : list VideoInfo)
    (pre : list action) (e : string) :
  download_body env videos = (pre, Raises e) ->
  exists done video rest,
    filter selected videos = done ++ video :: rest
    /\ items_pass env 0 done = true
    /\ is_set env (List.length done) = false
    /\ item_raises env (List.length done) video = Some e
    /\ pre = Put (Status ("Downloading "
                          ++ str_nat (List.length (filter selected videos))
                          ++ " video(s)..."))
             :: passed_actions (List.length (filter selected videos)) 0 done
             ++ raising_actions (List.length (filter selected videos))
                  (List.length done) video.
Proof.
  unfold download_body.
  destruct (filter selected videos) as [|v0 l0] eqn:E; [discriminate|].
  intros H.
  destruct (download_loop env (List.length (v0 :: l0)) 0 (v0 :: l0))
    as [acts [[|]|e']] eqn:Hloop; cbn in H; try discriminate H.
  injection H as <- <-.
  destruct (download_loop_raises _ _ _ _ _ _ Hloop)
    as (done & video & rest & Hsel & Hd & Hs & Hr & ->).
  exists done, video, rest. cbn [Nat.add] in *. repeat split; assumption.
Qed.

(** ** The coordinator *)

Lemma on_fetch_button_spec (a : App) (ev : Event) :
  cancel_download (fst (on_fetch_button a ev)) = cancel_download a
  /\ videos (fst (on_fetch_button a ev)) = videos a
  /\ download_button (fst (on_fetch_button a ev)) = download_button a
  /\ download_thread (fst (on_fetch_button a ev)) = download_thread a
  /\ ((threads (fst (on_fetch_button a ev)) = threads a
       /\ fetch_thread (fst (on_fetch_button a ev)) = fetch_thread a)
      \/ (snd (on_fetch_button a ev) = false
          /\ thread_alive a (fetch_thread a) = false
          /\ exists u,
               threads (fst (on_fetch_button a ev))
               = threads a ++ [mkThread (target_fetch_video_info u) true]
               /\ fetch_thread (fst (on_fetch_button a ev))
                  = Some (List.length (threads a)))).
Proof.
  unfold on_fetch_button.
  destruct (Button_handle_event (fetch_button a) ev) as [b [|]];
    [|cbn; repeat split; left; split; reflexivity].
  destruct (truthy (strip (text (url_input (set_fetch_button b a)))));
    [|cbn; repeat split; left; split; reflexivity].
  change (thread_alive (set_fetch_button b a) (fetch_thread (set_fetch_button b a)))
    with (thread_alive a (fetch_thread a)).
  destruct (thread_alive a (fetch_thread a)) eqn:Halive;
    cbn; repeat split; [left; split; reflexivity|].
  right. repeat split. eexists. split; reflexivity.
Qed.

Lemma on_download_button_spec (a : App) (ev : Event) :
  fetch_thread (on_download_button a ev) = fetch_thread a
  /\ ((threads (on_download_button a ev) = threads a
       /\ download_thread (on_download_button a ev) = download_thread a
       /\ cancel_download (on_download_button a ev) = cancel_download a)
      \/ (snd (Button_handle_event (download_button a) ev) = true
          /\ videos a <> []
          /\ thread_alive a (download_thread a) = false
          /\ threads (on_download_button a ev)
             = threads a ++ [mkThread target_download_videos true]
          /\ download_thread (on_download_button a ev)
             = Some (List.length (threads a))
          /\ cancel_download (on_download_button a ev) = false)).
Proof.
  unfold on_download_button.
  destruct (Button_handle_event (download_button a) ev) as [b [|]];
    [|cbn; split; [|left]; repeat split].
  change (videos (set_download_button b a)) with (videos a).
  change (thread_alive (set_download_button b a)
            (download_thread (set_download_button b a)))
    with (thread_alive a (download_thread a)).
  destruct (videos a) as [|v vs] eqn:Hv; [cbn; split; [|left]; repeat split|].
  destruct (thread_alive a (download_thread a)) eqn:Halive;
    cbn; (split; [reflexivity|]); [left; repeat split|].
  right. repeat split. discriminate.
Qed.

Lemma on_cancel_button_spec (a : App) (ev : Event) :
  threads (on_cancel_button a ev) = threads a
  /\ fetch_thread (on_cancel_button a ev) = fetch_thread a
  /\ download_thread (on_cancel_button a ev) = download_thread a
  /\ cancel_download (on_cancel_button a ev)
     = cancel_download a || snd (Button_handle_event (cancel_button a) ev).
Proof.
  unfold on_cancel_button.
  destruct (Button_handle_event (cancel_button a) ev) as [b [|]]; cbn;
    repeat split; now rewrite ?orb_true_r, ?orb_false_r.
Qed.

Lemma on_bg_buttons_spec (a : App) (ev : Event) :
  threads (on_bg_buttons a ev) = threads a
  /\ fetch_thread (on_bg_buttons a ev) = fetch_thread a
  /\ download_thread (on_bg_buttons a ev) = download_thread a
  /\ cancel_download (on_bg_buttons a ev) = cancel_download a.
Proof. repeat split. Qed.

Lemma on_video_list_spec (a : App) (i : Input) :
  threads (on_video_list a i) = threads a
  /\ fetch_thread (on_video_list a i) = fetch_thread a
  /\ download_thread (on_video_list a i) = download_thread a
  /\ cancel_download (on_video_list a i) = cancel_download a.
Proof.
  unfold on_video_list.
  destruct (ScrollableList_handle_event (video_list a) (videos a)
              (mouse_get_pos i) (event i)) as [l [n|]]; repeat split.
Qed.

Lemma on_quit_and_url_input_spec (a : App) (i : Input) :
  threads (on_quit_and_url_input a i) = threads a
  /\ fetch_thread (on_quit_and_url_input a i) = fetch_thread a
  /\ download_thread (on_quit_and_url_input a i) = download_thread a
  /\ cancel_download (on_quit_and_url_input a i) = cancel_download a
  /\ videos (on_quit_and_url_input a i) = videos a
  /\ download_button (on_quit_and_url_input a i) = download_button a.
Proof.
  unfold on_quit_and_url_input. destruct (event i); repeat split.
Qed.

Lemma handle_event_eq (a : App) (i : Input) :
  handle_event a i
  = if snd (on_fetch_button (on_quit_and_url_input a i) (event i))
    then fst (on_fetch_button (on_quit_and_url_input a i) (event i))
    else after_fetch_button
           (fst (on_fetch_button (on_quit_and_url_input a i) (event i))) i.
Proof.
  unfold handle_event.
  now destruct (on_fetch_button (on_quit_and_url_input a i) (event i)).
Qed.

Lemma thread_alive_threads (a a' : App) (handle : option nat) :
  threads a' = threads a -> thread_alive a' handle = thread_alive a handle.
Proof.
  intros H. unfold thread_alive, is_alive. now rewrite H.
Qed.

(** A live thread stays live when the table grows at its end. *)
Lemma thread_alive_app (a a' : App) (handle : option nat) (t : Thread) :
  threads a' = threads a ++ [t] ->
  thread_alive a handle = true -> thread_alive a' handle = true.
Proof.
  intros H. unfold thread_alive, is_alive. rewrite H.
  destruct handle as [h|]; [|trivial].
  destruct (nth_error (threads a) h) as [t0|] eqn:E; [|discriminate].
  rewrite nth_error_app1 by (apply nth_error_Some; congruence).
  now rewrite E.
Qed.

(** The statements after the fetch button start at most a download
    worker, and only when none is alive. *)
Lemma after_fetch_button_spec (a : App) (i : Input) :
  fetch_thread (after_fetch_button a i) = fetch_thread a
  /\ ((threads (after_fetch_button a i) = threads a
       /\ download_thread (after_fetch_button a i) = download_thread a
       /\ (cancel_download a = true -> cancel_download (after_fetch_button a i) = true))
      \/ (snd (Button_handle_event (download_button a) (event i)) = true
          /\ videos a <> []
          /\ thread_alive a (download_thread a) = false
          /\ threads (after_fetch_button a i)
             = threads a ++ [mkThread target_download_videos true]
          /\ download_thread (after_fetch_button a i)
             = Some (List.length (threads a)))).
Proof.
  unfold after_fetch_button. cbv zeta.
  pose (a1 := on_download_button a (event i)).
  pose (a2 := on_cancel_button a1 (event i)).
  pose (a3 := on_bg_buttons a2 (event i)).
  change (on_video_list (on_bg_buttons (on_cancel_button (on_download_button a (event i))
            (event i)) (event i)) i) with (on_video_list a3 i).
  destruct (on_video_list_spec a3 i) as (T4 & F4 & D4 & C4).
  destruct (on_bg_buttons_spec a2 (event i)) as (T3 & F3 & D3 & C3).
  destruct (on_cancel_button_spec a1 (event i)) as (T2 & F2 & D2 & C2).
  destruct (on_download_button_spec a (event i)) as (F1 & Hd).
  change (on_bg_buttons a2 (event i)) with a3 in T3, F3, D3, C3.
  change (on_cancel_button a1 (event i)) with a2 in T2, F2, D2, C2.
  change (on_download_button a (event i)) with a1 in F1, Hd.
  clearbody a1 a2 a3.
  split; [congruence|].
  destruct Hd as [(T1 & D1 & C1)|(Hc & Hv & Ha & T1 & D1 & C1)].
  - left. repeat split; try congruence.
    intros Hset. rewrite C4, C3, C2, C1, Hset. reflexivity.
  - right. repeat split; congruence.
Qed.

(** A step of the coordinator on one event: the flag, once set, stays
    set unless a download worker is started. *)
Lemma handle_event_flag (a : App) (i : Input) :
  cancel_download a = true ->
  cancel_download (handle_event a i) = true
  \/ starts_download a (handle_event a i).
Proof.
  intros Hset. rewrite handle_event_eq.
  destruct (on_quit_and_url_input_spec a i) as (T0 & F0 & D0 & C0 & V0 & B0).
  destruct (on_fetch_button_spec (on_quit_and_url_input a i) (event i))
    as (C1 & V1 & B1 & D1 & Hf).
  generalize dependent (on_quit_and_url_input a i). intros a0; intros.
  destruct (snd (on_fetch_button a0 (event i))); [left; congruence|].
  generalize dependent (fst (on_fetch_button a0 (event i))). intros a1; intros.
  destruct (after_fetch_button_spec a1 i)
    as (F2 & [(T2 & D2 & C2)|(_ & _ & Hidle & T2 & D2)]).
  - left. apply C2. congruence.
  - destruct (cancel_download (after_fetch_button a1 i)) eqn:Hfinal; [now left|].
    right.
    destruct Hf as [(T1 & F1)|(_ & _ & u & T1 & F1)].
    + exists []. rewrite app_nil_r, T2, D2, T1, T0. cbn [app].
      repeat split; try assumption.
      rewrite <- Hidle, D1, D0. symmetry. apply thread_alive_threads. congruence.
    + exists [mkThread (target_fetch_video_info u) true].
      rewrite T2, D2, T1, T0, <- app_assoc. repeat split; try assumption.
      destruct (thread_alive a (download_thread a)) eqn:Halive; [|reflexivity].
      rewrite <- Hidle, D1, D0. symmetry.
      apply (thread_alive_app a a1 _ (mkThread (target_fetch_video_info u) true));
        [congruence | assumption].
Qed.

Lemma drain_fields (msgs : list message) :
  forall a : App,
    threads (fold_left apply_message msgs a) = threads a
    /\ fetch_thread (fold_left apply_message msgs a) = fetch_thread a
    /\ download_thread (fold_left apply_message msgs a) = download_thread a
    /\ cancel_download (fold_left apply_message msgs a) = cancel_download a.
Proof.
  induction msgs as [|m msgs IH]; intros a; [repeat split|].
  cbn [fold_left]. destruct (IH (apply_message a m)) as (T & F & D & C).
  rewrite T, F, D, C. destruct m; repeat split.
Qed.

Lemma update_fields (a : App) (dt : float) :
  threads (update a dt) = threads a
  /\ fetch_thread (update a dt) = fetch_thread a
  /\ download_thread (update a dt) = download_thread a
  /\ cancel_download (update a dt) = cancel_download a.
Proof.
  unfold update, drain. cbn.
  destruct (drain_fields (message_queue a)
              (set_message_queue []
                 (set_url_input (InputField_update (url_input a) dt) a)))
    as (T & F & D & C).
  repeat split; assumption.
Qed.

(** Every step of the system keeps the flag set, except the coordinator's
    start of a download worker. *)
Lemma step_flag (a a' : App) :
  step a a' -> cancel_download a = true ->
  cancel_download a' = true \/ starts_download a a'.
Proof.
  intros Hstep Hset. destruct Hstep as [a i|a dt|a h m Halive|a h|a Hstop].
  - now apply handle_event_flag.
  - left. destruct (update_fields a dt) as (_ & _ & _ & C). congruence.
  - left. exact Hset.
  - left. exact Hset.
  - left. reflexivity.
Qed.

(** ** Cancellation, failure and the progress line *)

(** C3: when the flag is first seen set at the check before item
    [video], the items [done] before it having been passed, the worker
    puts "Download cancelled" and returns: the download calls of the run
    are those of [done], each completed (the last of them was already
    running if the flag was set during it), and none is made for [video]
    or a later item.  In the running system the flag, once set, stays set
    in every step except the coordinator's start of a download worker,
    which clears it. *)
Theorem cancel_before_item (env : download_env) (videos done rest : list VideoInfo)
    (video : VideoInfo)
    (Hsel : filter selected videos = done ++ video :: rest)
    (Hdone : items_pass env 0 done = true)
    (Hset : is_set env (List.length done) = true) :
  download_videos env videos
  = Put (Status ("Downloading " ++ str_nat (List.length (filter selected videos))
                 ++ " video(s)..."))
    :: passed_actions (List.length (filter selected videos)) 0 done
    ++ [Put (Status "Download cancelled")]
  /\ downloads_of (download_videos env videos) = map url done
  /\ (forall a a' : App,
        step a a' -> cancel_download a = true ->
        cancel_download a' = true \/ starts_download a a').
Proof.
  pose proof (download_cancelled_run env videos done rest video Hsel Hdone Hset) as Hrun.
  rewrite <- Hsel in Hrun.
  split; [exact Hrun|]. split; [|exact step_flag].
  rewrite Hrun. cbn [downloads_of].
  rewrite downloads_of_app, downloads_of_passed. cbn. apply app_nil_r.
Qed.

Lemma cancel_before_item_witness :
  filter selected three_videos
  = [video_of "a" true; video_of "c" true] ++ video_of "d" true :: []
  /\ items_pass env_cancel_at_2 0 [video_of "a" true; video_of "c" true] = true
  /\ is_set env_cancel_at_2 2 = true
  /\ downloads_of (download_videos env_cancel_at_2 three_videos)
     = ["https://www.youtube.com/watch?v=a"; "https://www.youtube.com/watch?v=c"].
Proof.
  repeat (split; [reflexivity|]).
  apply (cancel_before_item env_cancel_at_2 three_videos
           [video_of "a" true; video_of "c" true] [] (video_of "d" true));
    reflexivity.
Defined.

(** C8: when an item [video] of the selected list raises (its download
    call raises, or its title is [None] and cannot be sliced), the items
    [done] before it having been passed and the flag being clear at its
    check, the worker puts a [Status] with the error text
    ("Download error: " and the text) and then a [Progress] of the
    empty string, and returns.  The download calls of the run are those
    of [done] and, if [video] got that far, the call for [video] itself:
    none is made for a later item. *)
Theorem download_exception_stops_batch (env : download_env)
    (videos done rest : list VideoInfo) (video : VideoInfo) (e : string)
    (Hsel : filter selected videos = done ++ video :: rest)
    (Hdone : items_pass env 0 done = true)
    (Hclear : is_set env (List.length done) = false)
    (Hraise : item_raises env (List.length done) video = Some e) :
  download_videos env videos
  = Put (Status ("Downloading " ++ str_nat (List.length (filter selected videos))
                 ++ " video(s)..."))
    :: passed_actions (List.length (filter selected videos)) 0 done
    ++ raising_actions (List.length (filter selected videos)) (List.length done) video
    ++ [Put (Status ("Download error: " ++ e)); Put (Progress EmptyString)]
  /\ downloads_of (download_videos env videos)
     = map url done ++ match title video with Some _ => [url video] | None => [] end.
Proof.
  assert (Hrun : download_videos env videos
                 = Put (Status ("Downloading "
                                ++ str_nat (List.length (filter selected videos))
                                ++ " video(s)..."))
                   :: passed_actions (List.length (filter selected videos)) 0 done
                   ++ raising_actions (List.length (filter selected videos))
                        (List.length done) video
                   ++ [Put (Status ("Download error: " ++ e));
                       Put (Progress EmptyString)]).
  { unfold download_videos, download_body. rewrite Hsel.
    destruct (done ++ video :: rest) as [|v0 l0] eqn:E;
      [now destruct done|]. rewrite <- E.
    rewrite (download_loop_passed env _ done 0 (video :: rest) Hdone).
    cbn [Nat.add].
    rewrite (download_loop_raising env _ _ video rest e Hclear Hraise).
    cbn. now rewrite <- app_assoc. }
  split; [exact Hrun|].
  rewrite Hrun. cbn [downloads_of].
  rewrite !downloads_of_app, downloads_of_passed. cbn [downloads_of].
  rewrite app_nil_r. f_equal.
  unfold raising_actions. now destruct (title video).
Qed.

Lemma download_exception_stops_batch_witness :
  filter selected three_videos
  = [video_of "a" true] ++ video_of "c" true :: [video_of "d" true]
  /\ items_pass env_fail_at_1 0 [video_of "a" true] = true
  /\ is_set env_fail_at_1 1 = false
  /\ item_raises env_fail_at_1 1 (video_of "c" true) = Some "HTTP Error 403"
  /\ download_videos env_fail_at_1 three_videos
     = [Put (Status "Downloading 3 video(s)...");
        Put (Progress "Downloading 1/3: Title a...");
        Download ydl_opts_download "https://www.youtube.com/watch?v=a";
        Put (Progress "Downloading 2/3: Title c...");
        Download ydl_opts_download "https://www.youtube.com/watch?v=c";
        Put (Status "Download error: HTTP Error 403");
        Put (Progress EmptyString)]
  /\ downloads_of (download_videos env_fail_at_1 three_videos)
     = ["https://www.youtube.com/watch?v=a"; "https://www.youtube.com/watch?v=c"].
Proof.
  repeat (split; [reflexivity|]).
  apply (download_exception_stops_batch env_fail_at_1 three_videos
           [video_of "a" true] [video_of "d" true] (video_of "c" true)
           "HTTP Error 403");
    reflexivity.
Defined.

Lemma last_cons_any {A} (l : list A) (x d : A) : last (x :: l) d = last l x.
Proof.
  revert x d. induction l as [|y l IH]; intros x d; [reflexivity|].
  change (last (x :: y :: l) d) with (last (y :: l) d).
  now rewrite (IH y d), (IH y x).
Qed.

(** Draining leaves in [progress_text] the last [Progress] text of the
    queue, or what it held when the queue has none. *)
Lemma fold_progress_text (msgs : list message) :
  forall a : App,
    progress_text (fold_left apply_message msgs a)
    = last (progresses msgs) (progress_text a).
Proof.
  induction msgs as [|m msgs IH]; intros a; [reflexivity|].
  cbn [fold_left]. rewrite IH.
  destruct m as [t|t|d]; cbn [progresses]; try reflexivity.
  rewrite last_cons_any. reflexivity.
Qed.

Lemma update_progress_text (a : App) (dt : float) :
  progress_text (update a dt) = last (progresses (message_queue a)) (progress_text a).
Proof.
  unfold update, drain. cbn. rewrite fold_progress_text. reflexivity.
Qed.

Lemma progresses_map_Progress (l : list string) : progresses (map Progress l) = l.
Proof. induction l as [|t l IH]; cbn; [reflexivity | now rewrite IH]. Qed.

(** C10: on the cancellation path the worker's messages are the opening
    [Status], the progress lines of the items passed, and the [Status]
    "Download cancelled": no [Progress] follows the last item's line.
    After [update] has drained them, [progress_text] is the line of the
    last item passed (or what it was before, when no item was passed).
    On the completion path and on the error path the drained messages
    end with an empty [Progress], and [progress_text] is empty. *)
Theorem cancel_keeps_progress_text (env : download_env)
    (videos done rest : list VideoInfo) (video : VideoInfo) (a : App) (dt : float)
    (Hsel : filter selected videos = done ++ video :: rest)
    (Hdone : items_pass env 0 done = true)
    (Hset : is_set env (List.length done) = true) :
  messages_of (download_videos env videos)
  = Status ("Downloading " ++ str_nat (List.length (filter selected videos))
            ++ " video(s)...")
    :: map Progress (progress_lines (List.length (filter selected videos)) 0 done)
    ++ [Status "Download cancelled"]
  /\ progress_text
       (update (set_message_queue (messages_of (download_videos env videos)) a) dt)
     = last (progress_lines (List.length (filter selected videos)) 0 done)
            (progress_text a)
  /\ (forall env' : download_env,
        items_pass env' 0 (filter selected videos) = true ->
        progress_text
          (update (set_message_queue (messages_of (download_videos env' videos)) a) dt)
        = EmptyString)
  /\ (forall (env' : download_env) (pre : list action) (e : string),
        download_body env' videos = (pre, Raises e) ->
        progress_text
          (update (set_message_queue (messages_of (download_videos env' videos)) a) dt)
        = EmptyString).
Proof.
  assert (Hmsgs : messages_of (download_videos env videos)
                  = Status ("Downloading "
                            ++ str_nat (List.length (filter selected videos))
                            ++ " video(s)...")
                    :: map Progress
                         (progress_lines (List.length (filter selected videos)) 0 done)
                    ++ [Status "Download cancelled"]).
  { rewrite (download_cancelled_run env videos done rest video Hsel Hdone Hset).
    rewrite <- Hsel. cbn [messages_of].
    now rewrite messages_of_app, messages_of_passed. }
  split; [exact Hmsgs|]. split; [|split].
  - rewrite update_progress_text. cbn [message_queue set_message_queue progress_text].
    rewrite Hmsgs. cbn [progresses].
    rewrite progresses_app, progresses_map_Progress. cbn [progresses].
    now rewrite app_nil_r.
  - intros env' Hall.
    assert (Hne : filter selected videos <> []) by (rewrite Hsel; now destruct done).
    rewrite update_progress_text. cbn [message_queue set_message_queue progress_text].
    rewrite (download_completed_run env' videos Hne Hall). cbn [messages_of progresses].
    rewrite messages_of_app, progresses_app. cbn [messages_of progresses].
    apply last_last.
  - intros env' pre e Hraise.
    rewrite update_progress_text. cbn [message_queue set_message_queue progress_text].
    unfold download_videos. rewrite Hraise. cbn [try_except bind emit events fst].
    rewrite messages_of_app, progresses_app. cbn [app messages_of progresses].
    apply last_last.
Qed.

Lemma cancel_keeps_progress_text_witness :
  filter selected three_videos
  = [video_of "a" true; video_of "c" true] ++ video_of "d" true :: []
  /\ items_pass env_cancel_at_2 0 [video_of "a" true; video_of "c" true] = true
  /\ is_set env_cancel_at_2 2 = true
  /\ progress_text
       (update (set_message_queue
                  (messages_of (download_videos env_cancel_at_2 three_videos)) init)
          frame_time)
     = "Downloading 2/3: Title c...".
Proof.
  repeat (split; [reflexivity|]).
  apply (cancel_keeps_progress_text env_cancel_at_2 three_videos
           [video_of "a" true; video_of "c" true] [] (video_of "d" true) init
           frame_time);
    reflexivity.
Defined.

(** ** At most one worker of each kind *)

Lemma nth_error_finish (h0 : nat) (l : list Thread) :
  forall (h : nat) (t : Thread),
    nth_error (finish h0 l) h = Some t ->
    exists t0,
      nth_error l h = Some t0
      /\ thread_target t = thread_target t0
      /\ (alive t = true -> t = t0).
Proof.
  revert h0. induction l as [|x l IH]; intros h0 h t H.
  - destruct h0, h; discriminate H.
  - destruct h0 as [|h0], h as [|h]; cbn in H |- *.
    + injection H as <-. exists x. repeat split. cbn. discriminate.
    + exists t. repeat split. assumption.
    + injection H as <-. exists x. repeat split.
    + now apply (IH h0).
Qed.

Lemma nth_error_finish_inv (h0 : nat) (l : list Thread) :
  forall (h : nat) (t0 : Thread),
    nth_error l h = Some t0 ->
    exists t, nth_error (finish h0 l) h = Some t
              /\ thread_target t = thread_target t0.
Proof.
  revert h0. induction l as [|x l IH]; intros h0 h t0 H.
  - destruct h; discriminate H.
  - destruct h0 as [|h0], h as [|h]; cbn in H |- *.
    + injection H as <-. eexists. split; reflexivity.
    + exists t0. split; [assumption|reflexivity].
    + exists t0. split; [assumption|reflexivity].
    + now apply (IH h0).
Qed.

Section Handle.
Variable kind : Thread -> bool.
Hypothesis kind_target :
  forall t t', thread_target t = thread_target t' -> kind t = kind t'.

Lemma handle_ok_app_other (ths : list Thread) (handle : option nat) (x : Thread) :
  kind x = false ->
  handle_ok kind ths handle -> handle_ok kind (ths ++ [x]) handle.
Proof.
  intros Hx [Hin Huniq]. split.
  - intros h Hh. destruct (Hin h Hh) as (t & Ht & Hk).
    exists t. split; [|assumption].
    rewrite nth_error_app1 by (apply nth_error_Some; congruence). assumption.
  - intros h t Ht Ha Hk.
    destruct (Nat.lt_ge_cases h (List.length ths)) as [Hlt|Hge].
    + rewrite nth_error_app1 in Ht by assumption. now apply (Huniq h t).
    + rewrite nth_error_app2 in Ht by assumption.
      destruct (h - List.length ths) as [|n]; cbn in Ht.
      * injection Ht as <-. congruence.
      * destruct n; discriminate Ht.
Qed.

Lemma handle_ok_app_new (ths : list Thread) (handle : option nat) (x : Thread) :
  kind x = true ->
  match handle with
  | Some h => match nth_error ths h with Some t => alive t | None => false end
  | None => false
  end = false ->
  handle_ok kind ths handle ->
  handle_ok kind (ths ++ [x]) (Some (List.length ths)).
Proof.
  intros Hx Hidle [Hin Huniq]. split.
  - intros h Hh. injection Hh as <-. exists x. split; [|assumption].
    rewrite nth_error_app2 by lia. now rewrite Nat.sub_diag.
  - intros h t Ht Ha Hk.
    destruct (Nat.lt_ge_cases h (List.length ths)) as [Hlt|Hge].
    + rewrite nth_error_app1 in Ht by assumption.
      pose proof (Huniq h t Ht Ha Hk) as Hh. rewrite Hh, Ht in Hidle. congruence.
    + rewrite nth_error_app2 in Ht by assumption.
      destruct (h - List.length ths) as [|n] eqn:E; cbn in Ht.
      * f_equal. lia.
      * destruct n; discriminate Ht.
Qed.

Lemma handle_ok_finish (ths : list Thread) (handle : option nat) (h0 : nat) :
  handle_ok kind ths handle -> handle_ok kind (finish h0 ths) handle.
Proof.
  intros [Hin Huniq]. split.
  - intros h Hh. destruct (Hin h Hh) as (t0 & Ht0 & Hk).
    destruct (nth_error_finish_inv h0 ths h t0 Ht0) as (t & Ht & Htg).
    exists t. split; [assumption|]. now rewrite (kind_target t t0 Htg).
  - intros h t Ht Ha Hk.
    destruct (nth_error_finish h0 ths h t Ht) as (t0 & Ht0 & _ & Heq).
    rewrite <- (Heq Ha) in Ht0. now apply (Huniq h t).
Qed.
End Handle.

Lemma is_fetch_target (t t' : Thread) :
  thread_target t = thread_target t' -> is_fetch t = is_fetch t'.
Proof. unfold is_fetch. now intros ->. Qed.

Lemma is_download_target (t t' : Thread) :
  thread_target t = thread_target t' -> is_download t = is_download t'.
Proof. unfold is_download. now intros ->. Qed.

Lemma handles_ok_same (a a' : App) :
  threads a' = threads a -> fetch_thread a' = fetch_thread a ->
  download_thread a' = download_thread a ->
  handles_ok a -> handles_ok a'.
Proof. unfold handles_ok. now intros -> -> ->. Qed.

Lemma handles_ok_fetch_started (a a' : App) (u : string) :
  thread_alive a (fetch_thread a) = false ->
  threads a' = threads a ++ [mkThread (target_fetch_video_info u) true] ->
  fetch_thread a' = Some (List.length (threads a)) ->
  download_thread a' = download_thread a ->
  handles_ok a -> handles_ok a'.
Proof.
  unfold handles_ok. intros Hidle -> -> -> [Hf Hd]. split.
  - apply (handle_ok_app_new is_fetch (threads a) (fetch_thread a));
      [reflexivity | exact Hidle | exact Hf].
  - now apply handle_ok_app_other.
Qed.

Lemma handles_ok_download_started (a a' : App) :
  thread_alive a (download_thread a) = false ->
  threads a' = threads a ++ [mkThread target_download_videos true] ->
  fetch_thread a' = fetch_thread a ->
  download_thread a' = Some (List.length (threads a)) ->
  handles_ok a -> handles_ok a'.
Proof.
  unfold handles_ok. intros Hidle -> -> -> [Hf Hd]. split.
  - now apply handle_ok_app_other.
  - apply (handle_ok_app_new is_download (threads a) (download_thread a));
      [reflexivity | exact Hidle | exact Hd].
Qed.

Lemma handles_ok_handle_event (a : App) (i : Input) :
  handles_ok a -> handles_ok (handle_event a i).
Proof.
  intros Hok. rewrite handle_event_eq.
  destruct (on_quit_and_url_input_spec a i) as (T0 & F0 & D0 & _).
  assert (Hok0 : handles_ok (on_quit_and_url_input a i))
    by (now apply (handles_ok_same a)).
  destruct (on_fetch_button_spec (on_quit_and_url_input a i) (event i))
    as (_ & _ & _ & D1 & Hf).
  clear T0 F0 D0 Hok.
  generalize dependent (on_quit_and_url_input a i). intros a0; intros.
  assert (Hok1 : handles_ok (fst (on_fetch_button a0 (event i)))).
  { destruct Hf as [(T1 & F1)|(_ & Hidle & u & T1 & F1)].
    - now apply (handles_ok_same a0).
    - now apply (handles_ok_fetch_started a0 _ u). }
  destruct (snd (on_fetch_button a0 (event i))); [assumption|].
  clear Hf D1 Hok0.
  generalize dependent (fst (on_fetch_button a0 (event i))). intros a1; intros.
  destruct (after_fetch_button_spec a1 i)
    as (F2 & [(T2 & D2 & _)|(_ & _ & Hidle & T2 & D2)]).
  - now apply (handles_ok_same a1).
  - now apply (handles_ok_download_started a1).
Qed.

Lemma handles_ok_step (a a' : App) : step a a' -> handles_ok a -> handles_ok a'.
Proof.
  intros Hstep Hok. destruct Hstep as [a i|a|a h m Halive|a h|a Hstop].
  - now apply handles_ok_handle_event.
  - destruct (update_fields a dt) as (T & F & D & _). now apply (handles_ok_same a).
  - exact Hok.
  - destruct Hok as [Hf Hd]. split; cbn.
    + apply handle_ok_finish; [exact is_fetch_target | exact Hf].
    + apply handle_ok_finish; [exact is_download_target | exact Hd].
  - exact Hok.
Qed.

Lemma handles_ok_reachable (a : App) : reachable a -> handles_ok a.
Proof.
  induction 1 as [|a a' _ IH Hstep].
  - split; (split; [intros h Hh; discriminate Hh
                   | intros h t Ht; destruct h; discriminate Ht]).
  - now apply (handles_ok_step a).
Qed.

(** [live_from] lists, in increasing order, the handles of the live
    threads of the kind. *)
Lemma live_from_In (kind : Thread -> bool) (l : list Thread) :
  forall k h,
    In h (live_from kind k l) ->
    (k <= h)%nat
    /\ exists t, nth_error l (h - k) = Some t /\ alive t = true /\ kind t = true.
Proof.
  induction l as [|x l IH]; intros k h H; [contradiction|].
  cbn [live_from] in H.
  assert (Hrest : In h (live_from kind (S k) l) ->
                  (k <= h)%nat
                  /\ exists t, nth_error (x :: l) (h - k) = Some t
                               /\ alive t = true /\ kind t = true).
  { intros Hin. destruct (IH (S k) h Hin) as (Hle & t & Ht & Ha & Hk).
    split; [lia|]. exists t. repeat split; try assumption.
    replace (h - k)%nat with (S (h - S k)) by lia. exact Ht. }
  destruct (alive x && kind x) eqn:E; [|now apply Hrest].
  destruct H as [<-|H]; [|now apply Hrest].
  apply andb_prop in E. destruct E as [Ha Hk].
  split; [lia|]. exists x. rewrite Nat.sub_diag. repeat split; assumption.
Qed.

Lemma live_from_NoDup (kind : Thread -> bool) (l : list Thread) :
  forall k, NoDup (live_from kind k l).
Proof.
  induction l as [|x l IH]; intros k; cbn [live_from]; [constructor|].
  destruct (alive x && kind x); [|apply IH].
  constructor; [|apply IH].
  intros Hin. apply live_from_In in Hin. lia.
Qed.

Lemma handle_ok_live (kind : Thread -> bool) (ths : list Thread)
    (handle : option nat) :
  handle_ok kind ths handle -> (List.length (live_from kind 0 ths) <= 1)%nat.
Proof.
  intros [_ Huniq].
  pose proof (live_from_NoDup kind ths 0) as Hnd.
  assert (Hall : forall h, In h (live_from kind 0 ths) -> handle = Some h).
  { intros h Hin. destruct (live_from_In kind ths 0 h Hin) as (_ & t & Ht & Ha & Hk).
    rewrite Nat.sub_0_r in Ht. now apply (Huniq h t). }
  destruct (live_from kind 0 ths) as [|x [|y l]]; cbn; try lia.
  exfalso.
  assert (Hx : handle = Some x) by (apply Hall; now left).
  assert (Hy : handle = Some y) by (apply Hall; right; now left).
  inversion Hnd as [|? ? Hnotin _]; subst. apply Hnotin. left. congruence.
Qed.

Lemma filter_app_singleton_false {A} (f : A -> bool) (l : list A) (x : A) :
  f x = false -> filter f (l ++ [x]) = filter f l.
Proof.
  intros H. rewrite filter_app. cbn. rewrite H. apply app_nil_r.
Qed.

(** While a fetch worker is alive, no event starts a fetch worker. *)
Lemma fetch_alive_no_start (a : App) (i : Input) :
  thread_alive a (fetch_thread a) = true ->
  filter is_fetch (threads (handle_event a i)) = filter is_fetch (threads a).
Proof.
  intros Halive. rewrite handle_event_eq.
  destruct (on_quit_and_url_input_spec a i) as (T0 & F0 & _).
  destruct (on_fetch_button_spec (on_quit_and_url_input a i) (event i))
    as (_ & _ & _ & _ & Hf).
  assert (Halive0 : thread_alive (on_quit_and_url_input a i)
                      (fetch_thread (on_quit_and_url_input a i)) = true).
  { rewrite F0, <- Halive. now apply thread_alive_threads. }
  generalize dependent (on_quit_and_url_input a i). intros a0; intros.
  destruct Hf as [(T1 & _)|(_ & Hidle & _)]; [|congruence].
  destruct (snd (on_fetch_button a0 (event i))); [congruence|].
  generalize dependent (fst (on_fetch_button a0 (event i))). intros a1; intros.
  destruct (after_fetch_button_spec a1 i)
    as (_ & [(T2 & _)|(_ & _ & _ & T2 & _)]).
  - congruence.
  - rewrite T2, filter_app_singleton_false by reflexivity. congruence.
Qed.

(** While a download worker is alive, no event starts a download worker. *)
Lemma download_alive_no_start (a : App) (i : Input) :
  thread_alive a (download_thread a) = true ->
  filter is_download (threads (handle_event a i)) = filter is_download (threads a).
Proof.
  intros Halive. rewrite handle_event_eq.
  destruct (on_quit_and_url_input_spec a i) as (T0 & _ & D0 & _).
  destruct (on_fetch_button_spec (on_quit_and_url_input a i) (event i))
    as (_ & _ & _ & D1 & Hf).
  assert (Halive0 : thread_alive (on_quit_and_url_input a i)
                      (download_thread (on_quit_and_url_input a i)) = true).
  { rewrite D0, <- Halive. now apply thread_alive_threads. }
  generalize dependent (on_quit_and_url_input a i). intros a0; intros.
  assert (H1 : filter is_download (threads (fst (on_fetch_button a0 (event i))))
               = filter is_download (threads a)
               /\ thread_alive (fst (on_fetch_button a0 (event i)))
                    (download_thread (fst (on_fetch_button a0 (event i)))) = true).
  { destruct Hf as [(T1 & _)|(_ & _ & u & T1 & _)].
    - split; [congruence|]. rewrite D1, <- Halive0. now apply thread_alive_threads.
    - split.
      + rewrite T1, filter_app_singleton_false by reflexivity. congruence.
      + rewrite D1. eapply thread_alive_app; [exact T1 | exact Halive0]. }
  destruct H1 as [Hfilter Halive1].
  destruct (snd (on_fetch_button a0 (event i))); [assumption|].
  clear Hf D1.
  generalize dependent (fst (on_fetch_button a0 (event i))). intros a1; intros.
  destruct (after_fetch_button_spec a1 i)
    as (_ & [(T2 & _)|(_ & _ & Hidle & _)]); congruence.
Qed.

(** C6: in every reachable state at most one fetch worker and at most
    one download worker is alive; and while a worker of a kind is alive,
    handling an event, whatever it is, starts no worker of that kind. *)
Theorem one_worker_of_each_kind (a : App) (Hreach : reachable a) :
  (List.length (live is_fetch a) <= 1)%nat
  /\ (List.length (live is_download a) <= 1)%nat
  /\ (forall i : Input,
        thread_alive a (fetch_thread a) = true ->
        filter is_fetch (threads (handle_event a i)) = filter is_fetch (threads a))
  /\ (forall i : Input,
        thread_alive a (download_thread a) = true ->
        filter is_download (threads (handle_event a i))
        = filter is_download (threads a)).
Proof.
  destruct (handles_ok_reachable a Hreach) as [Hf Hd].
  split; [exact (handle_ok_live _ _ _ Hf)|].
  split; [exact (handle_ok_live _ _ _ Hd)|].
  split; intros i; [apply fetch_alive_no_start | apply download_alive_no_start].
Qed.

Lemma one_worker_of_each_kind_witness :
  reachable app_fetching
  /\ live is_fetch app_fetching = [0%nat]
  /\ (List.length (live is_fetch app_fetching) <= 1)%nat
  /\ filter is_fetch
       (threads (handle_event
                   (handle_event app_fetching (press (700, 60)%Z "https://youtu.be/y"))
                   (release (700, 60)%Z "https://youtu.be/y")))
     = filter is_fetch (threads app_fetching).
Proof.
  assert (Hr : reachable app_fetching).
  { unfold app_fetching.
    eapply reachable_step; [eapply reachable_step; [apply reachable_init|]|];
      apply step_event. }
  split; [exact Hr|]. split; [vm_compute; reflexivity|].
  split; [apply (one_worker_of_each_kind app_fetching Hr)|vm_compute; reflexivity].
Defined.

(** ** The download action with nothing selected *)

Lemma Button_clicked_release (b : Button) (ev : Event) :
  snd (Button_handle_event b ev) = true -> exists pos, ev = MOUSEBUTTONUP pos.
Proof.
  unfold Button_handle_event.
  destruct (negb (enabled b)); [discriminate|].
  destruct ev as [|pos|pos button|pos|y| |]; cbn; try discriminate.
  - destruct (collidepoint (b_rect b) pos); discriminate.
  - intros _. now exists pos.
Qed.

Lemma on_download_button_starts (a : App) (ev : Event) :
  snd (Button_handle_event (download_button a) ev) = true ->
  videos a <> [] ->
  thread_alive a (download_thread a) = false ->
  threads (on_download_button a ev)
  = threads a ++ [mkThread target_download_videos true]
  /\ download_thread (on_download_button a ev) = Some (List.length (threads a))
  /\ cancel_download (on_download_button a ev) = false
  /\ videos (on_download_button a ev) = videos a.
Proof.
  intros Hclick Hlist Hidle. unfold on_download_button.
  destruct (Button_handle_event (download_button a) ev) as [b c].
  cbn in Hclick. subst c.
  change (videos (set_download_button b a)) with (videos a).
  change (thread_alive (set_download_button b a)
            (download_thread (set_download_button b a)))
    with (thread_alive a (download_thread a)).
  rewrite Hidle. destruct (videos a) as [|v vs] eqn:Hv; [contradiction|].
  cbn. rewrite Hv. repeat split.
Qed.

Lemma on_fetch_button_not_clicked (a : App) (ev : Event) :
  snd (Button_handle_event (fetch_button a) ev) = false ->
  on_fetch_button a ev
  = (set_fetch_button (fst (Button_handle_event (fetch_button a) ev)) a, false).
Proof.
  intros H. unfold on_fetch_button.
  destruct (Button_handle_event (fetch_button a) ev) as [b c].
  cbn in H. now subst c.
Qed.

(** After a mouse release the rest of the loop body leaves the table and
    the list as the download statement left them. *)
Lemma rest_after_download_button (a : App) (i : Input) (pos : Z * Z) :
  event i = MOUSEBUTTONUP pos ->
  threads (on_video_list (on_bg_buttons (on_cancel_button a (event i)) (event i)) i)
  = threads a
  /\ download_thread
       (on_video_list (on_bg_buttons (on_cancel_button a (event i)) (event i)) i)
     = download_thread a
  /\ videos (on_video_list (on_bg_buttons (on_cancel_button a (event i)) (event i)) i)
     = videos a.
Proof.
  intros He.
  assert (Hv : forall b : App, videos (on_video_list b i) = videos b).
  { intros b. unfold on_video_list, ScrollableList_handle_event. rewrite He.
    destruct (negb (collidepoint (l_rect (video_list b)) (mouse_get_pos i)));
      reflexivity. }
  destruct (on_video_list_spec
              (on_bg_buttons (on_cancel_button a (event i)) (event i)) i)
    as (T3 & _ & D3 & _).
  destruct (on_bg_buttons_spec (on_cancel_button a (event i)) (event i))
    as (T2 & _ & D2 & _).
  destruct (on_cancel_button_spec a (event i)) as (T1 & _ & D1 & _).
  rewrite T3, T2, T1, D3, D2, D1, Hv. repeat split.
  unfold on_cancel_button.
  destruct (Button_handle_event (cancel_button a) (event i)) as [b [|]]; reflexivity.
Qed.

(** C4, as the code has it: the coordinator does not look at the
    selection.  When a list is present, no download worker is alive and the
    event clicks the download button (and not the fetch button), handling
    the event starts a download worker; run on a list with nothing
    selected, that worker puts exactly one message, the [Status]
    "No videos selected", and makes no download call. *)
Theorem nothing_selected_still_starts_worker (a : App) (i : Input)
    (env : download_env)
    (Hnone : filter selected (videos a) = [])
    (Hlist : videos a <> [])
    (Hidle : thread_alive a (download_thread a) = false)
    (Hclick : snd (Button_handle_event (download_button a) (event i)) = true)
    (Hfetch : snd (Button_handle_event (fetch_button a) (event i)) = false) :
  threads (handle_event a i) = threads a ++ [mkThread target_download_videos true]
  /\ download_thread (handle_event a i) = Some (List.length (threads a))
  /\ videos (handle_event a i) = videos a
  /\ download_videos env (videos (handle_event a i))
     = [Put (Status "No videos selected")].
Proof.
  destruct (Button_clicked_release _ _ Hclick) as (pos & He).
  destruct (on_quit_and_url_input_spec a i) as (T0 & _ & D0 & _ & V0 & B0).
  assert (F0 : fetch_button (on_quit_and_url_input a i) = fetch_button a).
  { unfold on_quit_and_url_input. now destruct (event i). }
  unfold handle_event.
  rewrite on_fetch_button_not_clicked by (now rewrite F0).
  set (a1 := set_fetch_button _ (on_quit_and_url_input a i)).
  assert (T1 : threads a1 = threads a) by exact T0.
  assert (D1 : download_thread a1 = download_thread a) by exact D0.
  assert (V1 : videos a1 = videos a) by exact V0.
  assert (B1 : download_button a1 = download_button a) by exact B0.
  assert (Hidle1 : thread_alive a1 (download_thread a1) = false).
  { rewrite D1, <- Hidle. now apply thread_alive_threads. }
  destruct (on_download_button_starts a1 (event i)) as (T2 & D2 & _ & V2);
    [now rewrite B1 | now rewrite V1 | assumption |].
  unfold after_fetch_button. cbv zeta.
  destruct (rest_after_download_button (on_download_button a1 (event i)) i pos He)
    as (T3 & D3 & V3).
  assert (Hv : videos (on_video_list
                         (on_bg_buttons
                            (on_cancel_button (on_download_button a1 (event i))
                               (event i)) (event i)) i) = videos a)
    by congruence.
  rewrite T3, D3, T2, D2, T1, Hv.
  repeat split.
  unfold download_videos, download_body. now rewrite Hnone.
Qed.

Lemma nothing_selected_still_starts_worker_witness :
  filter selected (videos app_download_pressed) = []
  /\ videos app_download_pressed <> []
  /\ thread_alive app_download_pressed (download_thread app_download_pressed) = false
  /\ snd (Button_handle_event (download_button app_download_pressed)
            (event (release (800, 60)%Z EmptyString))) = true
  /\ snd (Button_handle_event (fetch_button app_download_pressed)
            (event (release (800, 60)%Z EmptyString))) = false
  /\ threads (handle_event app_download_pressed (release (800, 60)%Z EmptyString))
     = threads app_download_pressed ++ [mkThread target_download_videos true].
Proof.
  assert (H1 : filter selected (videos app_download_pressed) = [])
    by (vm_compute; reflexivity).
  assert (H2 : videos app_download_pressed <> []) by (vm_compute; discriminate).
  assert (H3 : thread_alive app_download_pressed
                 (download_thread app_download_pressed) = false)
    by (vm_compute; reflexivity).
  assert (H4 : snd (Button_handle_event (download_button app_download_pressed)
                      (event (release (800, 60)%Z EmptyString))) = true)
    by (vm_compute; reflexivity).
  assert (H5 : snd (Button_handle_event (fetch_button app_download_pressed)
                      (event (release (800, 60)%Z EmptyString))) = false)
    by (vm_compute; reflexivity).
  repeat (split; [assumption|]).
  apply (nothing_selected_still_starts_worker app_download_pressed
           (release (800, 60)%Z EmptyString)
           (mk_download_env (fun _ => false) (fun _ _ => Returns tt))
           H1 H2 H3 H4 H5).
Defined.

(** C4 as stated fails: with two videos listed and none selected, the
    click on the download button starts a worker. *)
Lemma nothing_selected_starts_a_worker :
  ~ nothing_selected_starts_nothing app_download_pressed (release (800, 60)%Z EmptyString).
Proof.
  intros H.
  assert (H1 : filter selected (videos app_download_pressed) = [])
    by (vm_compute; reflexivity).
  assert (H2 : snd (Button_handle_event (download_button app_download_pressed)
                      (event (release (800, 60)%Z EmptyString))) = true)
    by (vm_compute; reflexivity).
  specialize (H H1 H2). vm_compute in H. discriminate H.
Qed.

(** * Further properties of the workers and the coordinator *)

(** ** The fetch worker: the playlist pass, entry by entry *)

Lemma In_Videos_results (l : list message) (vs : list VideoInfo) :
  In (Videos vs) l -> In vs (results l).
Proof.
  induction l as [|m l IH]; cbn; [trivial|].
  intros [->|H]; [now left|].
  destruct m; cbn; [now apply IH | now apply IH | right; now apply IH].
Qed.

Lemma processed_entries_length (info : InfoDict) :
  List.length (processed_entries info)
  = Nat.min 20 (List.length (not_none (info_entries info))).
Proof. unfold processed_entries. apply length_firstn. Qed.

Lemma results_playlist_trace (n : nat) (found : string) (vs : list VideoInfo)
    (t : string) :
  results (Status "Fetching video information..."
           :: Status found
           :: map (fun k => Status (processing_line n k)) (seq 0 n)
           ++ [Videos vs; Status t])
  = [vs].
Proof. cbn [results]. rewrite results_app, results_notices. reflexivity. Qed.

(** X1: in a collection, an entry whose detailed resolution raises (or
    returns [None]) and whose own duration can be formatted (it is not a
    [float] other than zero) still yields its descriptor: identifier and
    URL from the entry, title, duration and uploader from the entry's
    own shallow fields, with the defaults "Video i", "0:00" and
    "Unknown Channel" for what the entry lacks.  The descriptor stands
    after those of the entries before it that were not skipped. *)
Theorem playlist_entry_fallback (ydl : extractor) (link : string) (info : InfoDict)
    (j : nat) (e : EntryDict)
    (Hshallow : ydl 0%nat ydl_opts_basic link = Returns (Some info))
    (Hkind : has_entries info = true)
    (Hentry : nth_error (processed_entries info) j = Some e)
    (Hdetail : (exists text, ydl (S j) ydl_opts_single (entry_video_url j e)
                             = Raises text)
               \/ ydl (S j) ydl_opts_single (entry_video_url j e) = Returns None)
    (Hdur : formattable (get (k_duration e)) = true) :
  exists vs v,
    results (fetch_video_info ydl link) = [vs]
    /\ nth_error vs (kept_count ydl 0 (firstn j (processed_entries info))) = Some v
    /\ video_id v = entry_video_id j e
    /\ url v = entry_video_url j e
    /\ title v = Some (or_lit (get (k_title e)) ("Video " ++ str_nat (j + 1)))
    /\ _format_duration (Some (or_zero (get (k_duration e)))) = Returns (duration v)
    /\ uploader v = Some (or_lit (get (k_uploader e)) "Unknown Channel").
Proof.
  destruct (fetch_playlist_trace ydl link info Hshallow Hkind)
    as (vs & Hrun & _ & _ & Hpt).
  assert (Hk : entry_kept ydl j e = true).
  { unfold entry_kept. rewrite Hdur. apply orb_true_r. }
  destruct (Hpt j e Hentry Hk) as (v & Hv & Hbody).
  exists vs, v. split; [|split; [exact Hv|]].
  - rewrite Hrun. apply results_playlist_trace.
  - destruct (format_or_zero_returns _ Hdur) as (t & Ht).
    unfold process_entry, bind, emit, call, try_except, deref, raise, ret in Hbody.
    unfold entry_video_url, entry_video_id in Hdetail |- *.
    rewrite Ht in Hbody |- *.
    destruct Hdetail as [(text & Hd)|Hd]; rewrite Hd in Hbody; cbn in Hbody;
      injection Hbody as <-; repeat split.
Qed.

Lemma playlist_entry_fallback_witness :
  ydl_small_no_details 0%nat ydl_opts_basic "https://youtu.be/list"
  = Returns (Some small_playlist)
  /\ has_entries small_playlist = true
  /\ nth_error (processed_entries small_playlist) 2 = Some blank_entry
  /\ formattable (get (k_duration blank_entry)) = true
  /\ exists vs v,
       results (fetch_video_info ydl_small_no_details "https://youtu.be/list") = [vs]
       /\ nth_error vs 1 = Some v
       /\ video_id v = Some "unknown_2"
       /\ url v = "https://www.youtube.com/watch?v=unknown_2"
       /\ title v = Some "Video 3"
       /\ _format_duration (Some (Int 0)) = Returns (duration v)
       /\ uploader v = Some "Unknown Channel".
Proof.
  repeat (split; [reflexivity|]).
  apply (playlist_entry_fallback ydl_small_no_details "https://youtu.be/list"
           small_playlist 2 blank_entry); try reflexivity.
  left. exists "HTTP Error 429". reflexivity.
Defined.

(** X2: on a collection the worker's [Status] texts are, in order: the
    opening notice, "Found playlist with N videos. Getting details...",
    one "Processing video i/N..." for each i from 1 to N, and
    "Successfully loaded M video(s)", where N is the number of entries
    that are not [None], capped at 20, and M is the number of those N
    entries that the loop did not skip. *)
Theorem playlist_notices (ydl : extractor) (url : string) (info : InfoDict)
    (Hshallow : ydl 0%nat ydl_opts_basic url = Returns (Some info))
    (Hkind : has_entries info = true) :
  statuses (fetch_video_info ydl url)
  = "Fetching video information..."
    :: ("Found playlist with "
        ++ str_nat (Nat.min 20 (List.length (not_none (info_entries info))))
        ++ " videos. Getting details...")%string
    :: map (processing_line (Nat.min 20 (List.length (not_none (info_entries info)))))
           (seq 0 (Nat.min 20 (List.length (not_none (info_entries info)))))
    ++ [("Successfully loaded "
         ++ str_nat (kept_count ydl 0 (firstn 20 (not_none (info_entries info))))
         ++ " video(s)")%string]
  /\ (kept_count ydl 0 (firstn 20 (not_none (info_entries info)))
      <= Nat.min 20 (List.length (not_none (info_entries info))))%nat.
Proof.
  destruct (fetch_playlist_trace ydl url info Hshallow Hkind)
    as (vs & Hrun & _ & Hlen & _).
  split.
  - rewrite Hrun, Hlen, processed_entries_length. cbn [statuses].
    rewrite statuses_app, statuses_notices. reflexivity.
  - rewrite <- processed_entries_length. apply kept_count_le.
Qed.

Lemma playlist_notices_witness :
  ydl_small_no_details 0%nat ydl_opts_basic "https://youtu.be/list"
  = Returns (Some small_playlist)
  /\ has_entries small_playlist = true
  /\ statuses (fetch_video_info ydl_small_no_details "https://youtu.be/list")
     = ["Fetching video information...";
        "Found playlist with 3 videos. Getting details...";
        "Processing video 1/3..."; "Processing video 2/3...";
        "Processing video 3/3...";
        "Successfully loaded 2 video(s)"].
Proof.
  repeat (split; [reflexivity|]).
  apply (playlist_notices ydl_small_no_details "https://youtu.be/list" small_playlist);
    reflexivity.
Defined.

Lemma kept_count_lt (ydl : extractor) (es : list EntryDict) :
  forall (i j : nat) (e : EntryDict),
    nth_error es j = Some e -> entry_kept ydl (i + j) e = false ->
    (kept_count ydl i es < List.length es)%nat.
Proof.
  induction es as [|e0 es IH]; intros i j e Hj Hk; [destruct j; discriminate Hj|].
  cbn [kept_count List.length]. destruct j as [|j]; cbn [nth_error] in Hj.
  - injection Hj as ->. rewrite Nat.add_0_r in Hk. rewrite Hk.
    pose proof (kept_count_le ydl es (S i)). lia.
  - rewrite Nat.add_succ_r in Hk. specialize (IH (S i) j e Hj Hk).
    destruct (entry_kept ydl i e0); lia.
Qed.

(** X30: in a collection, an entry whose own duration is a [float] other
    than zero and whose detailed resolution raises (or returns [None])
    gets no descriptor.  Its "Processing video" notice is put, the
    fallback's formatting raises, the loop goes on with the next entry,
    and the delivered list is shorter than the list of the processed
    entries; the closing notice counts the delivered ones. *)
Theorem float_duration_entry_is_skipped (ydl : extractor) (link : string)
    (info : InfoDict) (j : nat) (e : EntryDict)
    (Hshallow : ydl 0%nat ydl_opts_basic link = Returns (Some info))
    (Hkind : has_entries info = true)
    (Hentry : nth_error (processed_entries info) j = Some e)
    (Hdetail : (exists text, ydl (S j) ydl_opts_single (entry_video_url j e)
                             = Raises text)
               \/ ydl (S j) ydl_opts_single (entry_video_url j e) = Returns None)
    (Hfloat : formattable (get (k_duration e)) = false) :
  exists vs,
    results (fetch_video_info ydl link) = [vs]
    /\ (List.length vs < List.length (processed_entries info))%nat
    /\ In (processing_line (List.length (processed_entries info)) j)
          (statuses (fetch_video_info ydl link))
    /\ last (statuses (fetch_video_info ydl link)) EmptyString
       = ("Successfully loaded " ++ str_nat (List.length vs) ++ " video(s)")%string.
Proof.
  destruct (fetch_playlist_trace ydl link info Hshallow Hkind)
    as (vs & Hrun & _ & Hlen & _).
  assert (Hk : entry_kept ydl j e = false).
  { unfold entry_kept, detail_ok. rewrite Hfloat.
    destruct Hdetail as [(text & ->)| ->]; reflexivity. }
  exists vs. split; [|split; [|split]].
  - rewrite Hrun. apply results_playlist_trace.
  - rewrite Hlen. apply (kept_count_lt ydl _ 0 j e Hentry Hk).
  - rewrite Hrun. cbn [statuses]. rewrite statuses_app, statuses_notices.
    right. right. apply in_or_app. left. apply in_map, in_seq.
    assert (j < List.length (processed_entries info))%nat
      by (apply nth_error_Some; congruence).
    lia.
  - rewrite Hrun. cbn [statuses]. rewrite statuses_app, statuses_notices.
    cbn [statuses].
    rewrite !app_comm_cons. apply last_last.
Qed.

Lemma float_duration_entry_is_skipped_witness :
  ydl_small_no_details 0%nat ydl_opts_basic "https://youtu.be/list"
  = Returns (Some small_playlist)
  /\ has_entries small_playlist = true
  /\ nth_error (processed_entries small_playlist) 1 = Some (float_entry "b")
  /\ formattable (get (k_duration (float_entry "b"))) = false
  /\ exists vs,
       results (fetch_video_info ydl_small_no_details "https://youtu.be/list") = [vs]
       /\ (List.length vs < 3)%nat
       /\ In "Processing video 2/3..."
             (statuses (fetch_video_info ydl_small_no_details "https://youtu.be/list"))
       /\ last (statuses (fetch_video_info ydl_small_no_details "https://youtu.be/list"))
               EmptyString
          = ("Successfully loaded " ++ str_nat (List.length vs) ++ " video(s)")%string.
Proof.
  repeat (split; [reflexivity|]).
  apply (float_duration_entry_is_skipped ydl_small_no_details "https://youtu.be/list"
           small_playlist 1 (float_entry "b")); try reflexivity.
  left. exists "HTTP Error 429". reflexivity.
Defined.

(** X3: a collection whose entries are all [None] is a success with an
    empty list: the run puts the opening notice, "Found playlist with 0
    videos. Getting details...", a [Videos] message with the empty list
    and "Successfully loaded 0 video(s)", and makes no detailed call. *)
Theorem playlist_of_none_entries (ydl : extractor) (url : string) (info : InfoDict)
    (Hshallow : ydl 0%nat ydl_opts_basic url = Returns (Some info))
    (Hkind : has_entries info = true)
    (Hnone : not_none (info_entries info) = []) :
  fetch_video_info ydl url
  = [Status "Fetching video information...";
     Status "Found playlist with 0 videos. Getting details...";
     Videos [];
     Status "Successfully loaded 0 video(s)"].
Proof.
  destruct (fetch_playlist_trace ydl url info Hshallow Hkind)
    as (vs & Hrun & _ & Hlen & _).
  assert (Hp : processed_entries info = []) by (unfold processed_entries; now rewrite Hnone).
  rewrite Hp in Hrun, Hlen. destruct vs; [|discriminate Hlen]. exact Hrun.
Qed.

Lemma playlist_of_none_entries_witness :
  ydl_null_playlist 0%nat ydl_opts_basic "https://youtu.be/list"
  = Returns (Some null_playlist)
  /\ has_entries null_playlist = true
  /\ not_none (info_entries null_playlist) = []
  /\ fetch_video_info ydl_null_playlist "https://youtu.be/list"
     = [Status "Fetching video information...";
        Status "Found playlist with 0 videos. Getting details...";
        Videos [];
        Status "Successfully loaded 0 video(s)"].
Proof.
  repeat (split; [reflexivity|]).
  apply (playlist_of_none_entries ydl_null_playlist "https://youtu.be/list"
           null_playlist); reflexivity.
Defined.

Lemma has_entries_false_iff (info : InfoDict) :
  has_entries info = false
  <-> (k_entries info = Absent \/ k_entries info = Null \/ k_entries info = Present []).
Proof.
  unfold has_entries. destruct (k_entries info) as [| |[|e l]]; split; intros H;
    try reflexivity; try discriminate H; auto;
    destruct H as [H|[H|H]]; discriminate H.
Qed.

(** X4: a result of the first resolution whose ['entries'] is missing,
    [None] or the empty list is handled as a single video: the run puts
    the notice "Getting video details..." and makes one detailed call.
    When the descriptor is built, the run delivers exactly that one
    descriptor, whose URL is the requested one; an empty playlist
    therefore shows up as one item.  When it is not built (neither pass
    yields a duration text), the run ends with the exception's notice
    and delivers nothing. *)
Theorem empty_entries_is_single_video (ydl : extractor) (link : string)
    (info : InfoDict)
    (Hshallow : ydl 0%nat ydl_opts_basic link = Returns (Some info))
    (Hentries : k_entries info = Absent \/ k_entries info = Null
                \/ k_entries info = Present []) :
  if single_builds ydl link info
  then exists v,
         fetch_video_info ydl link
         = [Status "Fetching video information..."; Status "Getting video details...";
            Videos [v]; Status "Successfully loaded 1 video(s)"]
         /\ url v = link /\ selected v = false
  else fetch_video_info ydl link
       = [Status "Fetching video information..."; Status "Getting video details...";
          Status "Error: Unknown format code 'd' for object of type 'float'"].
Proof.
  apply has_entries_false_iff in Hentries.
  destruct (single_builds ydl link info) eqn:Hb.
  - destruct (fetch_single_run ydl link info Hshallow Hentries Hb) as (v & Hsv & Hrun).
    exists v. split; [exact Hrun|].
    destruct (single_video_built ydl link info Hb) as (v' & Hsv' & Hu).
    rewrite Hsv in Hsv'. injection Hsv' as <-. exact Hu.
  - exact (fetch_single_failed ydl link info Hshallow Hentries Hb).
Qed.

Lemma empty_entries_is_single_video_witness :
  ydl_empty_playlist 0%nat ydl_opts_basic "https://youtu.be/list"
  = Returns (Some empty_playlist)
  /\ k_entries empty_playlist = Present []
  /\ single_builds ydl_empty_playlist "https://youtu.be/list" empty_playlist = true
  /\ exists v,
       fetch_video_info ydl_empty_playlist "https://youtu.be/list"
       = [Status "Fetching video information..."; Status "Getting video details...";
          Videos [v]; Status "Successfully loaded 1 video(s)"]
       /\ url v = "https://youtu.be/list" /\ selected v = false.
Proof.
  assert (E : single_builds ydl_empty_playlist "https://youtu.be/list" empty_playlist
              = true) by reflexivity.
  repeat (split; [reflexivity|]).
  pose proof (empty_entries_is_single_video ydl_empty_playlist "https://youtu.be/list"
                empty_playlist eq_refl (or_intror (or_intror eq_refl))) as H.
  rewrite E in H. exact H.
Defined.

(** X29: for a single-video URL whose detailed resolution raises and
    whose shallow duration can be formatted (it is missing, [None], an
    [int] or a zero [float]), the run still puts a [Videos] message; it
    carries exactly one descriptor, whose title, duration and uploader
    are those of the shallow pass. *)
Theorem single_video_fallback (ydl : extractor) (link text : string) (info : InfoDict)
    (Hshallow : ydl 0%nat ydl_opts_basic link = Returns (Some info))
    (Hsingle : has_entries info = false)
    (Hdetail : ydl 1%nat ydl_opts_detailed link = Raises text)
    (Hdur : formattable (get (k_duration (keys info))) = true) :
  exists v,
    fetch_video_info ydl link
    = [Status "Fetching video information..."; Status "Getting video details...";
       Videos [v]; Status "Successfully loaded 1 video(s)"]
    /\ title v = get_default (k_title (keys info)) (Some "Untitled Video")
    /\ _format_duration (get_default (k_duration (keys info)) (Some (Int 0)))
       = Returns (duration v)
    /\ uploader v = get_default (k_uploader (keys info)) (Some "Unknown Channel").
Proof.
  assert (Hb : single_builds ydl link info = true).
  { unfold single_builds. rewrite Hdur. apply orb_true_r. }
  destruct (fetch_single_run ydl link info Hshallow Hsingle Hb) as (v & Hsv & Hrun).
  exists v. split; [assumption|].
  destruct (format_get_default_returns _ Hdur) as (t & Ht).
  unfold single_video, bind, emit, call, try_except, deref, raise, ret in Hsv.
  rewrite Hdetail, Ht in Hsv. rewrite Ht. cbn in Hsv.
  injection Hsv as <-. repeat split.
Qed.

Lemma single_video_fallback_witness :
  ydl_detail_fails 0%nat ydl_opts_basic "https://youtu.be/a"
  = Returns (Some (mkInfoDict (entry_of "a") Absent))
  /\ has_entries (mkInfoDict (entry_of "a") Absent) = false
  /\ ydl_detail_fails 1%nat ydl_opts_detailed "https://youtu.be/a"
     = Raises "HTTP Error 429"
  /\ formattable (get (k_duration (entry_of "a"))) = true
  /\ exists v,
       fetch_video_info ydl_detail_fails "https://youtu.be/a"
       = [Status "Fetching video information..."; Status "Getting video details...";
          Videos [v]; Status "Successfully loaded 1 video(s)"]
       /\ title v = Some "Title a"
       /\ _format_duration (Some (Int 65)) = Returns (duration v)
       /\ uploader v = Some "Unknown Channel".
Proof.
  repeat (split; [reflexivity|]).
  apply (single_video_fallback ydl_detail_fails "https://youtu.be/a" "HTTP Error 429"
           (mkInfoDict (entry_of "a") Absent)); reflexivity.
Defined.

(** X5: whatever the extraction service answers, a run of the fetch
    worker begins with the opening [Status], ends with a [Status], puts
    at most one [Videos] message and never a [Progress] message. *)
Theorem fetch_run_shape (ydl : extractor) (link : string) :
  (exists rest t,
     fetch_video_info ydl link
     = Status "Fetching video information..." :: rest ++ [Status t])
  /\ (List.length (results (fetch_video_info ydl link)) <= 1)%nat
  /\ progresses (fetch_video_info ydl link) = [].
Proof.
  destruct (ydl 0%nat ydl_opts_basic link) as [[info|]|e] eqn:Hshallow.
  - destruct (has_entries info) eqn:Hkind.
    + destruct (fetch_playlist_run ydl link info Hshallow Hkind)
        as (msgs & vs & Hrun & _ & Hr & Hp).
      rewrite Hrun. split; [|split].
      * exists (msgs ++ [Videos vs]). eexists. cbn. rewrite <- app_assoc. reflexivity.
      * cbn. rewrite results_app, Hr. cbn. lia.
      * cbn. rewrite progresses_app, Hp. reflexivity.
    + destruct (single_builds ydl link info) eqn:Hb.
      * destruct (fetch_single_run ydl link info Hshallow Hkind Hb) as (v & _ & Hrun).
        rewrite Hrun. split; [|split; [cbn; lia | reflexivity]].
        exists [Status "Getting video details..."; Videos [v]]. eexists. reflexivity.
      * rewrite (fetch_single_failed ydl link info Hshallow Hkind Hb).
        split; [|split; [cbn; lia | reflexivity]].
        exists [Status "Getting video details..."]. eexists. reflexivity.
  - unfold fetch_video_info, fetch_body. cbn. rewrite Hshallow. cbn.
    split; [|split; [lia | reflexivity]]. exists []. eexists. reflexivity.
  - unfold fetch_video_info, fetch_body. cbn. rewrite Hshallow. cbn.
    split; [|split; [lia | reflexivity]]. exists []. eexists. reflexivity.
Qed.

(** X6: when the first resolution returns [None] instead of raising, the
    membership test on it raises inside the worker and the outermost
    handler reports it: the run puts the opening notice, then "Error: "
    followed by the [TypeError] text (no pattern of the classifier
    occurs in it), and no [Videos] message. *)
Theorem fetch_none_reported (ydl : extractor) (link : string)
    (Hnone : ydl 0%nat ydl_opts_basic link = Returns None) :
  fetch_video_info ydl link
  = [Status "Fetching video information...";
     Status "Error: argument of type 'NoneType' is not iterable"].
Proof.
  unfold fetch_video_info, fetch_body. cbn. rewrite Hnone. reflexivity.
Qed.

Lemma fetch_none_reported_witness :
  ydl_returns_none 0%nat ydl_opts_basic "https://youtu.be/x" = Returns None
  /\ fetch_video_info ydl_returns_none "https://youtu.be/x"
     = [Status "Fetching video information...";
        Status "Error: argument of type 'NoneType' is not iterable"].
Proof.
  split; [reflexivity|].
  apply (fetch_none_reported ydl_returns_none "https://youtu.be/x"). reflexivity.
Defined.

Lemma described_kept_unselected (ydl : extractor) (i : nat) (es : list EntryDict)
    (vs : list VideoInfo) :
  described_kept ydl i es vs -> filter selected vs = [].
Proof.
  induction 1 as [|i e es v vs _ (_ & _ & _ & Hsel) _ IH|i e es vs _ _ IH];
    [reflexivity| |assumption].
  cbn. now rewrite Hsel.
Qed.

(** The list of a [Videos] message of a run is the run's only one, and
    has nothing selected. *)
Lemma fetched_result (ydl : extractor) (link : string) (vs : list VideoInfo) :
  In (Videos vs) (fetch_video_info ydl link) ->
  results (fetch_video_info ydl link) = [vs] /\ filter selected vs = [].
Proof.
  intros Hin. apply In_Videos_results in Hin.
  destruct (ydl 0%nat ydl_opts_basic link) as [[info|]|e] eqn:Hshallow.
  - destruct (has_entries info) eqn:Hkind.
    + destruct (fetch_playlist_run ydl link info Hshallow Hkind)
        as (msgs & vs0 & Hrun & Hdf & Hr & _).
      rewrite Hrun in Hin |- *. cbn in Hin |- *. rewrite results_app, Hr in Hin |- *.
      destruct Hin as [<-|[]]. split; [reflexivity|].
      exact (described_kept_unselected _ _ _ _ Hdf).
    + destruct (single_builds ydl link info) eqn:Hb.
      * destruct (fetch_single_run ydl link info Hshallow Hkind Hb) as (v & Hsv & Hrun).
        rewrite Hrun in Hin |- *. destruct Hin as [<-|[]]. split; [reflexivity|].
        destruct (single_video_built ydl link info Hb) as (v' & Hsv' & _ & Hsel).
        rewrite Hsv in Hsv'. injection Hsv' as <-.
        cbn. now rewrite Hsel.
      * rewrite (fetch_single_failed ydl link info Hshallow Hkind Hb) in Hin.
        contradiction Hin.
  - unfold fetch_video_info, fetch_body in Hin. cbn in Hin.
    rewrite Hshallow in Hin. contradiction Hin.
  - unfold fetch_video_info, fetch_body in Hin. cbn in Hin.
    rewrite Hshallow in Hin. contradiction Hin.
Qed.

(** Draining leaves in [videos] the list of the last [Videos] message of
    the queue, and in [status_text] the last [Status] text. *)
Lemma fold_videos (msgs : list message) :
  forall a : App,
    videos (fold_left apply_message msgs a) = last (results msgs) (videos a).
Proof.
  induction msgs as [|m msgs IH]; intros a; [reflexivity|].
  cbn [fold_left]. rewrite IH.
  destruct m as [t|t|d]; cbn [results]; try reflexivity.
  rewrite last_cons_any. reflexivity.
Qed.

Lemma fold_status_text (msgs : list message) :
  forall a : App,
    status_text (fold_left apply_message msgs a)
    = last (statuses msgs) (status_text a).
Proof.
  induction msgs as [|m msgs IH]; intros a; [reflexivity|].
  cbn [fold_left]. rewrite IH.
  destruct m as [t|t|d]; cbn [statuses]; try reflexivity.
  rewrite last_cons_any. reflexivity.
Qed.

(** X7: every descriptor a fetch delivers is unselected.  After [update]
    has applied the messages of a successful run, the coordinator's list
    is the delivered one with nothing selected, and a download worker run
    on it only puts "No videos selected". *)
Theorem fetched_list_unselected (ydl : extractor) (link : string)
    (vs : list VideoInfo) (a : App) (env : download_env) (dt : float)
    (Hin : In (Videos vs) (fetch_video_info ydl link)) :
  filter selected vs = []
  /\ videos (update (set_message_queue (fetch_video_info ydl link) a) dt) = vs
  /\ download_videos env
       (videos (update (set_message_queue (fetch_video_info ydl link) a) dt))
     = [Put (Status "No videos selected")].
Proof.
  destruct (fetched_result ydl link vs Hin) as [Hres Hsel].
  assert (Hv : videos (update (set_message_queue (fetch_video_info ydl link) a) dt) = vs).
  { unfold update, drain. cbn. rewrite fold_videos, Hres. reflexivity. }
  split; [exact Hsel|]. split; [exact Hv|].
  rewrite Hv. unfold download_videos, download_body. now rewrite Hsel.
Qed.

Lemma fetched_list_unselected_witness :
  In (Videos [video_of "a" false])
     (fetch_video_info ydl_video_a "https://www.youtube.com/watch?v=a")
  /\ filter selected [video_of "a" false] = [].
Proof.
  assert (Hin : In (Videos [video_of "a" false])
                  (fetch_video_info ydl_video_a "https://www.youtube.com/watch?v=a")).
  { vm_compute. right. right. left. reflexivity. }
  split; [exact Hin|].
  apply (fetched_list_unselected _ _ _ init
           (mk_download_env (fun _ => false) (fun _ _ => Returns tt)) frame_time Hin).
Defined.

(** ** The classifier of the outermost handler *)

Lemma lower_app (a b : string) : lower (a ++ b) = (lower a ++ lower b)%string.
Proof. induction a as [|c a IH]; cbn; [reflexivity | now rewrite IH]. Qed.

Lemma prefix_app (n s : string) : prefix n (n ++ s) = true.
Proof.
  induction n as [|c n IH]; cbn; [now destruct s|].
  destruct (ascii_dec c c) as [_|Hne]; [exact IH | now elim Hne].
Qed.

Lemma contains_infix (n p s : string) : contains n (p ++ n ++ s) = true.
Proof.
  induction p as [|c p IH].
  - cbn [String.append]. destruct (n ++ s)%string eqn:E; cbn [contains];
      rewrite <- E, prefix_app; reflexivity.
  - cbn [String.append contains]. rewrite IH. apply orb_true_r.
Qed.

(** X8: a failure text that has the word "timeout" anywhere, in whatever
    letter case, is reported as a timed-out request, whatever else the
    text mentions. *)
Theorem timeout_is_classified_first (before word after : string)
    (Hword : lower word = "timeout") :
  fetch_error_status (before ++ word ++ after)
  = "Error: Request timed out. Check your internet connection.".
Proof.
  unfold fetch_error_status.
  rewrite !lower_app, Hword, contains_infix. reflexivity.
Qed.

Lemma timeout_is_classified_first_witness :
  lower "TimeOut" = "timeout"
  /\ fetch_error_status ("Video unavailable: read " ++ "TimeOut" ++ " (not found)")
     = "Error: Request timed out. Check your internet connection.".
Proof.
  split; [reflexivity|].
  apply (timeout_is_classified_first "Video unavailable: read " "TimeOut" " (not found)").
  reflexivity.
Defined.

(** ** The download worker: order, completion and the ways to end *)

Lemma download_loop_prefix (env : download_env) (total : nat) (sel : list VideoInfo) :
  forall i : nat,
    is_prefix_of (downloads_of (fst (download_loop env total i sel))) (map url sel).
Proof.
  induction sel as [|v sel IH]; intros i.
  - exists []. reflexivity.
  - destruct (item_passes env i v) eqn:Hv.
    + rewrite (download_loop_step _ _ _ _ _ Hv). cbn [fst passed_actions app downloads_of].
      destruct (IH (S i)) as (rest & Hrest).
      exists rest. cbn [map]. now rewrite Hrest.
    + cbn [download_loop]. unfold item_passes in Hv.
      destruct (is_set env i); [exists (map url (v :: sel)); reflexivity|].
      unfold title_prefix.
      destruct (title v) as [t|]; [|exists (map url (v :: sel)); reflexivity].
      destruct (download env i (url v)) as [[]|e]; [discriminate Hv|].
      exists (map url sel). reflexivity.
Qed.

(** X9: whatever the flag and the download service do, the download
    calls of a run are an initial part of the URLs of the selected
    videos, in list order: an unselected video is never downloaded, no
    video is downloaded twice or out of order. *)
Theorem downloads_follow_selection (env : download_env) (videos : list VideoInfo) :
  is_prefix_of (downloads_of (download_videos env videos))
               (map url (filter selected videos)).
Proof.
  unfold download_videos, download_body.
  destruct (filter selected videos) as [|v0 l0] eqn:E.
  - exists []. reflexivity.
  - pose proof (download_loop_prefix env (List.length (v0 :: l0)) (v0 :: l0) 0) as Hp.
    destruct (download_loop env (List.length (v0 :: l0)) 0 (v0 :: l0))
      as [acts [[|]|e]]; cbn [fst] in Hp; cbn; rewrite ?downloads_of_app; cbn;
      rewrite ?app_nil_r; exact Hp.
Qed.

(** X10: when at least one video is selected, the flag is clear at every
    check and no item raises, the worker downloads every selected video,
    in list order, and its messages are the opening [Status], one
    progress line per item, "Successfully downloaded N video(s)" and an
    empty [Progress]. *)
Theorem download_completes (env : download_env) (videos : list VideoInfo)
    (Hsome : filter selected videos <> [])
    (Hall : items_pass env 0 (filter selected videos) = true) :
  downloads_of (download_videos env videos) = map url (filter selected videos)
  /\ messages_of (download_videos env videos)
     = Status ("Downloading " ++ str_nat (List.length (filter selected videos))
               ++ " video(s)...")
       :: map Progress
            (progress_lines (List.length (filter selected videos)) 0
               (filter selected videos))
       ++ [Status ("Successfully downloaded "
                   ++ str_nat (List.length (filter selected videos)) ++ " video(s)");
           Progress EmptyString].
Proof.
  rewrite (download_completed_run env videos Hsome Hall). split.
  - cbn [downloads_of]. rewrite downloads_of_app, downloads_of_passed. cbn.
    apply app_nil_r.
  - cbn [messages_of]. rewrite messages_of_app, messages_of_passed. reflexivity.
Qed.

Lemma download_completes_witness :
  filter selected three_videos <> []
  /\ items_pass (mk_download_env (fun _ => false) (fun _ _ => Returns tt)) 0
       (filter selected three_videos) = true
  /\ downloads_of (download_videos
                     (mk_download_env (fun _ => false) (fun _ _ => Returns tt))
                     three_videos)
     = ["https://www.youtube.com/watch?v=a"; "https://www.youtube.com/watch?v=c";
        "https://www.youtube.com/watch?v=d"].
Proof.
  assert (H1 : filter selected three_videos <> []) by (vm_compute; discriminate).
  split; [exact H1|]. split; [reflexivity|].
  apply (download_completes (mk_download_env (fun _ => false) (fun _ _ => Returns tt))
           three_videos H1).
  reflexivity.
Defined.

(** The loop returns at its end, or returns early right after putting
    "Download cancelled", or raises. *)
Lemma download_loop_ends (env : download_env) (total : nat) (sel : list VideoInfo) :
  forall i : nat,
    (exists acts, download_loop env total i sel = (acts, Returns true))
    \/ (exists acts,
          download_loop env total i sel
          = (acts ++ [Put (Status "Download cancelled")], Returns false))
    \/ (exists acts e, download_loop env total i sel = (acts, Raises e)).
Proof.
  induction sel as [|v sel IH]; intros i.
  - left. exists []. reflexivity.
  - destruct (item_passes env i v) eqn:Hv.
    + rewrite (download_loop_step _ _ _ _ _ Hv).
      destruct (IH (S i)) as [(acts & ->)|[(acts & ->)|(acts & e & ->)]]; cbn [fst snd].
      * left. eexists. reflexivity.
      * right. left. exists (passed_actions total i [v] ++ acts).
        now rewrite app_assoc.
      * right. right. eexists. eexists. reflexivity.
    + cbn [download_loop]. unfold item_passes in Hv.
      destruct (is_set env i).
      * right. left. exists []. reflexivity.
      * unfold title_prefix. destruct (title v) as [t|].
        -- destruct (download env i (url v)) as [[]|e]; [discriminate Hv|].
           right. right. eexists. eexists. reflexivity.
        -- right. right. eexists. eexists. reflexivity.
Qed.

(** X11: a run of the download worker ends in exactly one of four ways:
    the single message "No videos selected"; or, after the opening
    [Status], with "Download cancelled" as its last message; or with
    "Successfully downloaded N video(s)" followed by an empty
    [Progress]; or with "Download error: " and the exception text
    followed by an empty [Progress]. *)
Theorem download_run_ends (env : download_env) (videos : list VideoInfo) :
  (filter selected videos = []
   /\ download_videos env videos = [Put (Status "No videos selected")])
  \/ (filter selected videos <> []
      /\ exists acts,
           download_videos env videos
           = Put (Status ("Downloading "
                          ++ str_nat (List.length (filter selected videos))
                          ++ " video(s)..."))
             :: acts
           /\ ((exists pre, acts = pre ++ [Put (Status "Download cancelled")])
               \/ (exists pre,
                     acts = pre ++ [Put (Status
                                           ("Successfully downloaded "
                                            ++ str_nat (List.length
                                                          (filter selected videos))
                                            ++ " video(s)"));
                                    Put (Progress EmptyString)])
               \/ (exists pre e,
                     acts = pre ++ [Put (Status ("Download error: " ++ e));
                                    Put (Progress EmptyString)]))).
Proof.
  unfold download_videos, download_body.
  destruct (filter selected videos) as [|v0 l0] eqn:E.
  - left. split; reflexivity.
  - right. split; [discriminate|].
    destruct (download_loop_ends env (List.length (v0 :: l0)) (v0 :: l0) 0)
      as [(acts & ->)|[(acts & ->)|(acts & e & ->)]].
    + eexists. split; [cbn; reflexivity|]. right. left. exists acts. reflexivity.
    + eexists. split; [cbn; reflexivity|]. left. exists acts.
      now rewrite app_nil_r.
    + eexists. split; [cbn; reflexivity|]. right. right. exists acts, e. reflexivity.
Qed.

(** ** The coordinator: what an event can and cannot do *)

(** The button statements leave the loop flag, the text field, the list
    widget and the list alone. *)
Lemma on_fetch_button_frame (a : App) (ev : Event) :
  running (fst (on_fetch_button a ev)) = running a
  /\ url_input (fst (on_fetch_button a ev)) = url_input a
  /\ video_list (fst (on_fetch_button a ev)) = video_list a
  /\ videos (fst (on_fetch_button a ev)) = videos a.
Proof.
  unfold on_fetch_button, start_thread.
  destruct (Button_handle_event (fetch_button a) ev) as [b [|]]; [|repeat split].
  destruct (truthy (strip (text (url_input (set_fetch_button b a)))));
    [|repeat split].
  destruct (thread_alive (set_fetch_button b a) (fetch_thread (set_fetch_button b a)));
    repeat split.
Qed.

Lemma on_download_button_frame (a : App) (ev : Event) :
  running (on_download_button a ev) = running a
  /\ url_input (on_download_button a ev) = url_input a
  /\ video_list (on_download_button a ev) = video_list a
  /\ videos (on_download_button a ev) = videos a.
Proof.
  unfold on_download_button, start_thread.
  destruct (Button_handle_event (download_button a) ev) as [b [|]]; [|repeat split].
  destruct (negb (Nat.eqb (List.length (videos (set_download_button b a))) 0)
            && negb (thread_alive (set_download_button b a)
                       (download_thread (set_download_button b a))));
    repeat split.
Qed.

Lemma on_cancel_button_frame (a : App) (ev : Event) :
  running (on_cancel_button a ev) = running a
  /\ url_input (on_cancel_button a ev) = url_input a
  /\ video_list (on_cancel_button a ev) = video_list a
  /\ videos (on_cancel_button a ev) = videos a.
Proof.
  unfold on_cancel_button.
  destruct (Button_handle_event (cancel_button a) ev) as [b [|]]; repeat split.
Qed.

Lemma on_bg_buttons_frame (a : App) (ev : Event) :
  running (on_bg_buttons a ev) = running a
  /\ url_input (on_bg_buttons a ev) = url_input a
  /\ video_list (on_bg_buttons a ev) = video_list a
  /\ videos (on_bg_buttons a ev) = videos a.
Proof. repeat split. Qed.

Lemma on_video_list_frame (a : App) (i : Input) :
  running (on_video_list a i) = running a
  /\ url_input (on_video_list a i) = url_input a.
Proof.
  unfold on_video_list.
  destruct (ScrollableList_handle_event (video_list a) (videos a)
              (mouse_get_pos i) (event i)) as [l [n|]]; repeat split.
Qed.

(** The statements before the list widget, taken together. *)
Lemma before_video_list_frame (a : App) (i : Input) :
  running (on_bg_buttons (on_cancel_button (on_download_button a (event i))
                            (event i)) (event i)) = running a
  /\ url_input (on_bg_buttons (on_cancel_button (on_download_button a (event i))
                                 (event i)) (event i)) = url_input a
  /\ video_list (on_bg_buttons (on_cancel_button (on_download_button a (event i))
                                  (event i)) (event i)) = video_list a
  /\ videos (on_bg_buttons (on_cancel_button (on_download_button a (event i))
                              (event i)) (event i)) = videos a.
Proof.
  destruct (on_bg_buttons_frame
              (on_cancel_button (on_download_button a (event i)) (event i)) (event i))
    as (R3 & U3 & L3 & V3).
  destruct (on_cancel_button_frame (on_download_button a (event i)) (event i))
    as (R2 & U2 & L2 & V2).
  destruct (on_download_button_frame a (event i)) as (R1 & U1 & L1 & V1).
  repeat split; congruence.
Qed.

Lemma Button_not_clicked (b : Button) (ev : Event) :
  (forall pos, ev <> MOUSEBUTTONUP pos) -> snd (Button_handle_event b ev) = false.
Proof.
  intros Hev. destruct (snd (Button_handle_event b ev)) eqn:E; [|reflexivity].
  destruct (Button_clicked_release b ev E) as (pos & ->). now elim (Hev pos).
Qed.

Lemma on_download_button_not_clicked (a : App) (ev : Event) :
  snd (Button_handle_event (download_button a) ev) = false ->
  on_download_button a ev
  = set_download_button (fst (Button_handle_event (download_button a) ev)) a.
Proof.
  intros H. unfold on_download_button.
  destruct (Button_handle_event (download_button a) ev) as [b c].
  cbn in H. now subst c.
Qed.

(** X12: workers are started and cancellation is requested on a mouse
    release only: handling any other event (a key, a mouse press, a mouse
    move, the wheel, [QUIT]) leaves the thread table, both handles and
    the flag as they were. *)
Theorem only_release_starts_or_cancels (a : App) (i : Input)
    (Hev : forall pos, event i <> MOUSEBUTTONUP pos) :
  threads (handle_event a i) = threads a
  /\ fetch_thread (handle_event a i) = fetch_thread a
  /\ download_thread (handle_event a i) = download_thread a
  /\ cancel_download (handle_event a i) = cancel_download a.
Proof.
  destruct (on_quit_and_url_input_spec a i) as (T0 & F0 & D0 & C0 & _).
  unfold handle_event.
  rewrite on_fetch_button_not_clicked by (now apply Button_not_clicked).
  unfold after_fetch_button. cbv zeta.
  rewrite on_download_button_not_clicked by (now apply Button_not_clicked).
  match goal with
  | |- context [on_video_list (on_bg_buttons (on_cancel_button ?x _) _) _] =>
      set (a2 := x)
  end.
  destruct (on_video_list_spec (on_bg_buttons (on_cancel_button a2 (event i)) (event i)) i)
    as (T4 & F4 & D4 & C4).
  destruct (on_bg_buttons_spec (on_cancel_button a2 (event i)) (event i))
    as (T3 & F3 & D3 & C3).
  destruct (on_cancel_button_spec a2 (event i)) as (T2 & F2 & D2 & C2).
  rewrite (Button_not_clicked _ _ Hev), orb_false_r in C2.
  rewrite T4, T3, T2, F4, F3, F2, D4, D3, D2, C4, C3, C2.
  repeat split; assumption.
Qed.

Lemma only_release_starts_or_cancels_witness :
  (forall pos, event (press (700, 60)%Z "https://youtu.be/x") <> MOUSEBUTTONUP pos)
  /\ threads (handle_event app_fetching (press (700, 60)%Z "https://youtu.be/x"))
     = threads app_fetching.
Proof.
  assert (H : forall pos,
             event (press (700, 60)%Z "https://youtu.be/x") <> MOUSEBUTTONUP pos)
    by (intros pos; discriminate).
  split; [exact H|].
  apply (only_release_starts_or_cancels app_fetching
           (press (700, 60)%Z "https://youtu.be/x") H).
Defined.

Lemma url_input_after_editing (a : App) (i : Input) :
  url_input (on_quit_and_url_input a i) = url_input_handle_event i (url_input a).
Proof. unfold on_quit_and_url_input. now destruct (event i). Qed.

Lemma on_fetch_button_blank (a : App) (ev : Event) :
  truthy (strip (text (url_input a))) = false ->
  snd (on_fetch_button a ev) = false
  /\ threads (fst (on_fetch_button a ev)) = threads a
  /\ fetch_thread (fst (on_fetch_button a ev)) = fetch_thread a.
Proof.
  intros Hblank. unfold on_fetch_button.
  destruct (Button_handle_event (fetch_button a) ev) as [b [|]]; [|repeat split].
  change (url_input (set_fetch_button b a)) with (url_input a).
  rewrite Hblank. repeat split.
Qed.

(** X13: when the text field is empty or holds only white space once
    the event has been applied to it, handling the event starts no fetch
    worker, whether or not the fetch button reports a click. *)
Theorem blank_url_starts_no_fetch (a : App) (i : Input)
    (Hblank : truthy (strip (text (url_input_handle_event i (url_input a)))) = false) :
  filter is_fetch (threads (handle_event a i)) = filter is_fetch (threads a)
  /\ fetch_thread (handle_event a i) = fetch_thread a.
Proof.
  rewrite handle_event_eq.
  destruct (on_quit_and_url_input_spec a i) as (T0 & F0 & _).
  pose proof (url_input_after_editing a i) as U0.
  rewrite <- U0 in Hblank.
  destruct (on_fetch_button_blank (on_quit_and_url_input a i) (event i) Hblank)
    as (Hc & T1 & F1).
  rewrite Hc.
  destruct (after_fetch_button_spec
              (fst (on_fetch_button (on_quit_and_url_input a i) (event i))) i)
    as (F2 & [(T2 & _)|(_ & _ & _ & T2 & _)]).
  - split; congruence.
  - rewrite T2, filter_app_singleton_false by reflexivity. split; congruence.
Qed.

Lemma blank_url_starts_no_fetch_witness :
  truthy (strip (text (url_input_handle_event (release (700, 60)%Z "   ")
                         (url_input (handle_event init (press (700, 60)%Z "x"))))))
  = false
  /\ fetch_thread (handle_event (handle_event init (press (700, 60)%Z "x"))
                     (release (700, 60)%Z "   ")) = None.
Proof.
  split; [reflexivity|].
  apply (blank_url_starts_no_fetch (handle_event init (press (700, 60)%Z "x"))
           (release (700, 60)%Z "   ")).
  reflexivity.
Defined.

(** X14: while the coordinator holds no videos, handling an event starts
    no download worker and leaves the download handle alone, whatever the
    download button reports. *)
Theorem empty_list_starts_no_download (a : App) (i : Input)
    (Hempty : videos a = []) :
  filter is_download (threads (handle_event a i)) = filter is_download (threads a)
  /\ download_thread (handle_event a i) = download_thread a.
Proof.
  rewrite handle_event_eq.
  destruct (on_quit_and_url_input_spec a i) as (T0 & _ & D0 & _ & V0 & _).
  destruct (on_fetch_button_spec (on_quit_and_url_input a i) (event i))
    as (_ & V1 & _ & D1 & Hf).
  assert (Hthreads : filter is_download
                       (threads (fst (on_fetch_button (on_quit_and_url_input a i)
                                        (event i))))
                     = filter is_download (threads a)).
  { destruct Hf as [(T1 & _)|(_ & _ & u & T1 & _)].
    - congruence.
    - rewrite T1, filter_app_singleton_false by reflexivity. congruence. }
  destruct (snd (on_fetch_button (on_quit_and_url_input a i) (event i)));
    [split; congruence|].
  destruct (after_fetch_button_spec
              (fst (on_fetch_button (on_quit_and_url_input a i) (event i))) i)
    as (_ & [(T2 & D2 & _)|(_ & Hne & _)]).
  - split; congruence.
  - elim Hne. congruence.
Qed.

Lemma empty_list_starts_no_download_witness :
  videos (handle_event init (press (800, 60)%Z "x")) = []
  /\ download_thread (handle_event (handle_event init (press (800, 60)%Z "x"))
                        (release (800, 60)%Z "x")) = None.
Proof.
  split; [reflexivity|].
  apply (empty_list_starts_no_download (handle_event init (press (800, 60)%Z "x"))
           (release (800, 60)%Z "x")).
  reflexivity.
Defined.

(** ** The list widget *)

Lemma ScrollableList_click_in_range (l l' : ScrollableList) (items : list VideoInfo)
    (pos : Z * Z) (ev : Event) (n : nat) :
  ScrollableList_handle_event l items pos ev = (l', Some n) ->
  (n < List.length items)%nat /\ l' = l.
Proof.
  unfold ScrollableList_handle_event.
  destruct (negb (collidepoint (l_rect l) pos)); [discriminate|].
  destruct ev as [|p|p button|p|y| |]; try discriminate.
  destruct (button =? 1)%Z; [|discriminate].
  destruct ((0 <=? (snd p - top (l_rect l) + scroll_y l) / item_height)%Z
            && ((snd p - top (l_rect l) + scroll_y l) / item_height
                <? Z.of_nat (List.length items))%Z) eqn:E; [|discriminate].
  intros H. injection H as <- <-.
  apply andb_prop in E. destruct E as [E1 E2].
  apply Z.leb_le in E1. apply Z.ltb_lt in E2. split; [lia|reflexivity].
Qed.

Lemma toggle_selected_spec (l : list VideoInfo) :
  forall (n : nat) (v : VideoInfo),
    nth_error l n = Some v ->
    List.length (toggle_selected n l) = List.length l
    /\ nth_error (toggle_selected n l) n = Some (toggle v)
    /\ (forall m, m <> n -> nth_error (toggle_selected n l) m = nth_error l m).
Proof.
  induction l as [|x l IH]; intros n v H; [destruct n; discriminate H|].
  destruct n as [|n]; cbn in H |- *.
  - injection H as <-. repeat split. intros [|m] Hm; [now elim Hm | reflexivity].
  - destruct (IH n v H) as (Hlen & Hn & Hother).
    repeat split; [now rewrite Hlen | exact Hn|].
    intros [|m] Hm; [reflexivity|]. cbn. apply Hother. congruence.
Qed.

Lemma toggle_selected_twice (l : list VideoInfo) :
  forall n : nat, toggle_selected n (toggle_selected n l) = l.
Proof.
  induction l as [|x l IH]; intros [|n]; cbn; try reflexivity.
  - destruct x as [i t d u k th s]. unfold toggle. cbn. now rewrite negb_involutive.
  - now rewrite IH.
Qed.

(** What the list statement does to the list of videos. *)
Lemma on_video_list_videos (a : App) (i : Input) :
  (videos (on_video_list a i) = videos a
   /\ video_list (on_video_list a i)
      = fst (ScrollableList_handle_event (video_list a) (videos a)
               (mouse_get_pos i) (event i)))
  \/ (exists n v,
        ScrollableList_handle_event (video_list a) (videos a)
          (mouse_get_pos i) (event i) = (video_list a, Some n)
        /\ nth_error (videos a) n = Some v
        /\ videos (on_video_list a i) = toggle_selected n (videos a)
        /\ video_list (on_video_list a i)
           = set_items (video_list a) (toggle_selected n (videos a))).
Proof.
  unfold on_video_list.
  destruct (ScrollableList_handle_event (video_list a) (videos a)
              (mouse_get_pos i) (event i)) as [l [n|]] eqn:E.
  - right. destruct (ScrollableList_click_in_range _ _ _ _ _ _ E) as [Hn ->].
    destruct (nth_error (videos a) n) as [v|] eqn:Hv;
      [|apply nth_error_None in Hv; lia].
    exists n, v. repeat split; assumption || reflexivity.
  - left. split; reflexivity.
Qed.

Lemma on_video_list_none (a : App) (i : Input) (l : ScrollableList) :
  ScrollableList_handle_event (video_list a) (videos a) (mouse_get_pos i) (event i)
  = (l, None) ->
  videos (on_video_list a i) = videos a /\ video_list (on_video_list a i) = l.
Proof. intros E. unfold on_video_list. rewrite E. split; reflexivity. Qed.

Lemma on_video_list_some (a : App) (i : Input) (l : ScrollableList) (n : nat) :
  ScrollableList_handle_event (video_list a) (videos a) (mouse_get_pos i) (event i)
  = (l, Some n) ->
  videos (on_video_list a i) = toggle_selected n (videos a)
  /\ video_list (on_video_list a i) = set_items l (toggle_selected n (videos a)).
Proof. intros E. unfold on_video_list. rewrite E. split; reflexivity. Qed.

(** An event that the widget did not take as a click on a row is not
    taken as one by the widget it leaves either. *)
Lemma no_click_again (l l' : ScrollableList) (items : list VideoInfo)
    (pos : Z * Z) (ev : Event) :
  ScrollableList_handle_event l items pos ev = (l', None) ->
  snd (ScrollableList_handle_event l' items pos ev) = None.
Proof.
  unfold ScrollableList_handle_event.
  destruct (negb (collidepoint (l_rect l) pos)) eqn:Hc.
  - intros H. injection H as <-. now rewrite Hc.
  - destruct ev as [|p|p button|p|y| |];
      try (intros H; injection H as <-; now rewrite Hc).
    + destruct (button =? 1)%Z eqn:Hb;
        [|intros H; injection H as <-; now rewrite Hc].
      destruct ((0 <=? (snd p - top (l_rect l) + scroll_y l) / item_height)%Z
                && ((snd p - top (l_rect l) + scroll_y l) / item_height
                    <? Z.of_nat (List.length items))%Z) eqn:Hidx; [discriminate|].
      intros H. injection H as <-. now rewrite Hc, ?Hidx.
    + intros H. injection H as <-. cbn [l_rect]. now rewrite Hc.
Qed.

(** X15: handling an event changes the list of videos in at most one
    way: the list widget reports a clicked row, that row exists, and its
    descriptor alone has its [selected] flag flipped; the list keeps its
    length and every other descriptor.  The index the widget reports is
    never out of range. *)
Theorem click_toggles_one_row (a : App) (i : Input) :
  videos (handle_event a i) = videos a
  \/ exists n v,
       nth_error (videos a) n = Some v
       /\ List.length (videos (handle_event a i)) = List.length (videos a)
       /\ nth_error (videos (handle_event a i)) n = Some (toggle v)
       /\ forall m, m <> n ->
            nth_error (videos (handle_event a i)) m = nth_error (videos a) m.
Proof.
  rewrite handle_event_eq.
  destruct (on_quit_and_url_input_spec a i) as (_ & _ & _ & _ & V0 & _).
  destruct (on_fetch_button_frame (on_quit_and_url_input a i) (event i))
    as (_ & _ & _ & V1).
  destruct (snd (on_fetch_button (on_quit_and_url_input a i) (event i)));
    [left; congruence|].
  unfold after_fetch_button. cbv zeta.
  destruct (before_video_list_frame
              (fst (on_fetch_button (on_quit_and_url_input a i) (event i))) i)
    as (_ & _ & _ & V2).
  match goal with |- context [on_video_list ?x i] => set (a3 := x) in * end.
  assert (V3 : videos a3 = videos a) by congruence.
  destruct (on_video_list_videos a3 i) as [(Hsame & _)|(n & v & _ & Hv & Ht & _)].
  - left. congruence.
  - right. exists n, v. rewrite Ht, V3 in *.
    destruct (toggle_selected_spec (videos a) n v Hv) as (Hlen & Hn & Hother).
    repeat split; assumption.
Qed.

(** X16: clicking the same row twice restores the selection, when the
    list widget is in step with the list (its scroll range is the one
    [set_items] computes for it). *)
Theorem click_twice_restores (a : App) (i : Input)
    (Hsync : set_items (video_list a) (videos a) = video_list a) :
  videos (on_video_list (on_video_list a i) i) = videos a.
Proof.
  destruct (ScrollableList_handle_event (video_list a) (videos a)
              (mouse_get_pos i) (event i)) as [l [n|]] eqn:E.
  - destruct (ScrollableList_click_in_range _ _ _ _ _ _ E) as [Hn ->].
    destruct (on_video_list_some a i _ n E) as [Hv Hl].
    assert (Hlen : List.length (toggle_selected n (videos a)) = List.length (videos a)).
    { destruct (nth_error (videos a) n) as [v|] eqn:Hnth;
        [apply (toggle_selected_spec _ _ _ Hnth) | apply nth_error_None in Hnth; lia]. }
    assert (Hl' : video_list (on_video_list a i) = video_list a).
    { rewrite Hl. unfold set_items. rewrite Hlen. exact Hsync. }
    assert (E' : ScrollableList_handle_event (video_list (on_video_list a i))
                   (videos (on_video_list a i)) (mouse_get_pos i) (event i)
                 = (video_list a, Some n)).
    { rewrite Hl', Hv. revert E. unfold ScrollableList_handle_event. now rewrite Hlen. }
    destruct (on_video_list_some (on_video_list a i) i _ n E') as [Hv2 _].
    rewrite Hv2, Hv. apply toggle_selected_twice.
  - destruct (on_video_list_none a i l E) as [Hv Hl].
    pose proof (no_click_again _ _ _ _ _ E) as Hagain.
    destruct (ScrollableList_handle_event (video_list (on_video_list a i))
                (videos (on_video_list a i)) (mouse_get_pos i) (event i))
      as [l2 [m|]] eqn:E2.
    + rewrite Hl, Hv in E2. rewrite E2 in Hagain. discriminate Hagain.
    + destruct (on_video_list_none (on_video_list a i) i l2 E2) as [Hv2 _].
      congruence.
Qed.

Lemma click_twice_restores_witness :
  set_items (video_list app_twelve) (videos app_twelve) = video_list app_twelve
  /\ selected (hd (video_of "a" false)
                 (videos (on_video_list app_twelve click_first_row))) = true
  /\ videos (on_video_list (on_video_list app_twelve click_first_row) click_first_row)
     = videos app_twelve.
Proof.
  assert (H : set_items (video_list app_twelve) (videos app_twelve)
              = video_list app_twelve) by (vm_compute; reflexivity).
  split; [exact H|]. split; [vm_compute; reflexivity|].
  apply (click_twice_restores app_twelve click_first_row H).
Defined.

Lemma running_handle_event (a : App) (i : Input) :
  running (handle_event a i)
  = match event i with QUIT => false | _ => running a end.
Proof.
  rewrite handle_event_eq.
  assert (R0 : running (on_quit_and_url_input a i)
               = match event i with QUIT => false | _ => running a end).
  { unfold on_quit_and_url_input. now destruct (event i). }
  destruct (on_fetch_button_frame (on_quit_and_url_input a i) (event i))
    as (R1 & _).
  destruct (snd (on_fetch_button (on_quit_and_url_input a i) (event i)));
    [congruence|].
  unfold after_fetch_button. cbv zeta.
  destruct (before_video_list_frame
              (fst (on_fetch_button (on_quit_and_url_input a i) (event i))) i)
    as (R2 & _).
  match goal with |- context [on_video_list ?x i] => set (a3 := x) in * end.
  destruct (on_video_list_frame a3 i) as (R3 & _). congruence.
Qed.

Lemma fold_running (msgs : list message) :
  forall a : App, running (fold_left apply_message msgs a) = running a.
Proof.
  induction msgs as [|m msgs IH]; intros a; [reflexivity|].
  cbn [fold_left]. rewrite IH. now destruct m.
Qed.

(** X17: a [QUIT] event clears the loop flag, and once the flag is
    clear no step of the system sets it again. *)
Theorem quit_stops_for_good (a : App) (i : Input) (Hquit : event i = QUIT) :
  running (handle_event a i) = false
  /\ forall b b' : App, step b b' -> running b = false -> running b' = false.
Proof.
  split; [now rewrite running_handle_event, Hquit|].
  intros b b' Hstep Hstop. destruct Hstep as [b j|b|b h m Halive|b h|b Hs].
  - rewrite running_handle_event. now destruct (event j).
  - unfold update, drain. cbn. now rewrite fold_running.
  - exact Hstop.
  - exact Hstop.
  - exact Hstop.
Qed.

Lemma quit_stops_for_good_witness :
  event (mkInput QUIT (0, 0)%Z (fun f => f)) = QUIT
  /\ running (handle_event app_fetching (mkInput QUIT (0, 0)%Z (fun f => f))) = false.
Proof.
  split; [reflexivity|].
  apply (quit_stops_for_good app_fetching (mkInput QUIT (0, 0)%Z (fun f => f))).
  reflexivity.
Defined.

(** ** The scroll range of the list widget *)

Lemma set_items_range (l : ScrollableList) (items : list VideoInfo) :
  (0 <= scroll_y l)%Z ->
  scroll_ok (set_items l items)
  /\ max_scroll (set_items l items) = scroll_range (set_items l items) (List.length items).
Proof.
  intros H. unfold scroll_ok, set_items, scroll_range. cbn. lia.
Qed.

Lemma widget_event_range (l : ScrollableList) (items : list VideoInfo)
    (pos : Z * Z) (ev : Event) :
  scroll_ok l ->
  scroll_ok (fst (ScrollableList_handle_event l items pos ev))
  /\ max_scroll (fst (ScrollableList_handle_event l items pos ev)) = max_scroll l
  /\ l_rect (fst (ScrollableList_handle_event l items pos ev)) = l_rect l.
Proof.
  unfold scroll_ok, ScrollableList_handle_event. intros H.
  destruct (negb (collidepoint (l_rect l) pos)); [now cbn|].
  destruct ev as [|p|p button|p|y| |]; try (now cbn).
  - destruct (button =? 1)%Z; [|now cbn].
    destruct ((0 <=? (snd p - top (l_rect l) + scroll_y l) / item_height)%Z
              && ((snd p - top (l_rect l) + scroll_y l) / item_height
                  <? Z.of_nat (List.length items))%Z); now cbn.
  - cbn. repeat split; lia.
Qed.

Lemma list_in_step_same (a a' : App) :
  video_list a' = video_list a -> videos a' = videos a ->
  list_in_step a -> list_in_step a'.
Proof. unfold list_in_step. now intros -> ->. Qed.

Lemma list_in_step_on_video_list (a : App) (i : Input) :
  list_in_step a -> list_in_step (on_video_list a i).
Proof.
  intros [Hok Hmax]. unfold list_in_step.
  destruct (on_video_list_videos a i) as [(Hv & Hl)|(n & v & _ & Hnth & Hv & Hl)].
  - rewrite Hv, Hl.
    destruct (widget_event_range (video_list a) (videos a) (mouse_get_pos i) (event i) Hok)
      as (Hok' & Hmax' & Hrect).
    split; [exact Hok'|]. unfold scroll_range in *. now rewrite Hmax', Hrect.
  - rewrite Hv, Hl. apply set_items_range. apply Hok.
Qed.

Lemma list_in_step_handle_event (a : App) (i : Input) :
  list_in_step a -> list_in_step (handle_event a i).
Proof.
  intros Hin. rewrite handle_event_eq.
  destruct (on_quit_and_url_input_spec a i) as (_ & _ & _ & _ & V0 & _).
  assert (L0 : video_list (on_quit_and_url_input a i) = video_list a).
  { unfold on_quit_and_url_input. now destruct (event i). }
  destruct (on_fetch_button_frame (on_quit_and_url_input a i) (event i))
    as (_ & _ & L1 & V1).
  assert (Hin1 : list_in_step (fst (on_fetch_button (on_quit_and_url_input a i)
                                      (event i))))
    by (apply (list_in_step_same a); congruence).
  destruct (snd (on_fetch_button (on_quit_and_url_input a i) (event i)));
    [exact Hin1|].
  unfold after_fetch_button. cbv zeta.
  destruct (before_video_list_frame
              (fst (on_fetch_button (on_quit_and_url_input a i) (event i))) i)
    as (_ & _ & L2 & V2).
  apply list_in_step_on_video_list.
  now apply (list_in_step_same
               (fst (on_fetch_button (on_quit_and_url_input a i) (event i)))).
Qed.

Lemma list_in_step_fold (msgs : list message) :
  forall a : App, list_in_step a -> list_in_step (fold_left apply_message msgs a).
Proof.
  induction msgs as [|m msgs IH]; intros a Hin; [exact Hin|].
  cbn [fold_left]. apply IH. destruct m as [t|t|d]; try exact Hin.
  unfold list_in_step. cbn. apply set_items_range. apply Hin.
Qed.

Lemma list_in_step_step (a a' : App) : step a a' -> list_in_step a -> list_in_step a'.
Proof.
  intros Hstep Hin. destruct Hstep as [a i|a dt|a h m Halive|a h|a Hstop].
  - now apply list_in_step_handle_event.
  - unfold update, drain.
    apply (list_in_step_same
             (fold_left apply_message (message_queue a)
                (set_message_queue []
                   (set_url_input (InputField_update (url_input a) dt) a))));
      [reflexivity | reflexivity |].
    apply list_in_step_fold. exact Hin.
  - exact Hin.
  - exact Hin.
  - exact Hin.
Qed.

(** X18: in every reachable state the list widget's scroll position
    lies between 0 and its scroll range, and the scroll range is the one
    the current list calls for: the height of all rows beyond the
    widget's own height, or 0. *)
Theorem scroll_stays_in_range (a : App) (Hreach : reachable a) :
  (0 <= scroll_y (video_list a) <= max_scroll (video_list a))%Z
  /\ max_scroll (video_list a)
     = Z.max 0 (Z.of_nat (List.length (videos a)) * item_height
                - height (l_rect (video_list a))).
Proof.
  assert (Hin : list_in_step a).
  { induction Hreach as [|a a' _ IH Hstep].
    - unfold list_in_step, scroll_ok, scroll_range. cbn. lia.
    - now apply (list_in_step_step a). }
  exact Hin.
Qed.

Lemma scroll_stays_in_range_witness :
  reachable (handle_event app_fetching (wheel (-3)))
  /\ (0 <= scroll_y (video_list (handle_event app_fetching (wheel (-3))))
      <= max_scroll (video_list (handle_event app_fetching (wheel (-3)))))%Z.
Proof.
  assert (Hr : reachable (handle_event app_fetching (wheel (-3)))).
  { unfold app_fetching.
    eapply reachable_step;
      [eapply reachable_step; [eapply reachable_step; [apply reachable_init|]|]|];
      apply step_event. }
  split; [exact Hr|].
  apply (scroll_stays_in_range (handle_event app_fetching (wheel (-3))) Hr).
Defined.

(** ** [update]: how queued messages are applied *)

Lemma fold_view (msgs : list message) :
  forall a : App,
    fold_left apply_message msgs a
    = with_view (fold_left apply_view msgs (view_of a)) a.
Proof.
  induction msgs as [|m msgs IH]; intros a.
  - now destruct a.
  - cbn [fold_left]. rewrite IH.
    replace (view_of (apply_message a m)) with (apply_view (view_of a) m)
      by (now destruct m).
    destruct (fold_left apply_view msgs (apply_view (view_of a) m))
      as [[[l st] pt] vs].
    destruct m; now destruct a.
Qed.

(** X19: [update] empties the queue and applies its messages in order,
    so that the last one of each kind wins: the status text is the text
    of the last queued [Status] (or stays when there is none), likewise
    the progress text and the list of videos.  With an empty queue the
    three are left as they were. *)
Theorem update_last_message_wins (a : App) (dt : float) :
  message_queue (update a dt) = []
  /\ status_text (update a dt) = last (statuses (message_queue a)) (status_text a)
  /\ progress_text (update a dt) = last (progresses (message_queue a)) (progress_text a)
  /\ videos (update a dt) = last (results (message_queue a)) (videos a).
Proof.
  split; [|split; [|split]].
  - unfold update, drain. cbn. rewrite fold_view.
    destruct (fold_left apply_view (message_queue a) _) as [[[l st] pt] vs].
    reflexivity.
  - unfold update, drain. cbn. now rewrite fold_status_text.
  - apply update_progress_text.
  - unfold update, drain. cbn. now rewrite fold_videos.
Qed.

(** The blink of the cursor leaves the text, the focus and the cursor
    position as they are. *)
Lemma InputField_update_text (f : InputField) (dt : float) :
  text (InputField_update f dt) = text f
  /\ active (InputField_update f dt) = active f
  /\ cursor_pos (InputField_update f dt) = cursor_pos f.
Proof.
  unfold InputField_update.
  destruct (float_le (float_of_int 500) (add_float (cursor_timer f) dt));
    repeat split.
Qed.

(** [update] on an application given field by field. *)
Lemma update_mk (r : bool) (u : InputField) (fb db cb pb sb : Button)
    (vl : ScrollableList) (st pt : string) (vs : list VideoInfo)
    (ft dl : option nat) (cd : bool) (mq : list message) (th : list Thread)
    (dt : float) :
  update (mkApp r u fb db cb pb sb vl st pt vs ft dl cd mq th) dt
  = let '(l, st', pt', vs') := fold_left apply_view mq (vl, st, pt, vs) in
    let live := thread_alive (mkApp r u fb db cb pb sb vl st pt vs ft dl cd mq th) dl in
    mkApp r (InputField_update u dt)
          (set_enabled (truthy (strip (text u))) fb)
          (set_enabled (negb (Nat.eqb (List.length vs') 0) && negb live) db)
          (set_enabled live cb)
          pb sb l st' pt' vs' ft dl cd [] th.
Proof.
  unfold update, drain. rewrite fold_view. cbn [message_queue set_url_input].
  change (view_of _) with (vl, st, pt, vs).
  destruct (fold_left apply_view mq (vl, st, pt, vs)) as [[[l st'] pt'] vs'].
  cbn. destruct (InputField_update_text u dt) as (-> & _). reflexivity.
Qed.

(** X20: a second [update] with nothing put in between changes nothing
    but the blink state of the text field's cursor: the queue stays
    empty, and the texts, the list, the widgets and the three button
    states are those of the first. *)
Theorem second_update_only_blinks (a : App) (dt dt' : float) :
  update (update a dt) dt'
  = set_url_input (InputField_update (url_input (update a dt)) dt') (update a dt).
Proof.
  destruct a as [r u fb db cb pb sb vl st pt vs ft dl cd mq th].
  rewrite (update_mk r u fb db cb pb sb vl st pt vs ft dl cd mq th).
  destruct (fold_left apply_view mq (vl, st, pt, vs)) as [[[l st'] pt'] vs'].
  cbv zeta. rewrite update_mk. cbn.
  destruct (InputField_update_text u dt) as (-> & _). reflexivity.
Qed.

(** X21: it does not matter on which side of a frame boundary a worker's
    messages arrive: draining a queue, then the messages [later] put
    after it, gives the same state as draining them all at once, but
    for the blink state of the text field's cursor, which has seen two
    passes. *)
Theorem update_frames_compose (a : App) (later : list message) (dt1 dt2 dt : float) :
  update (set_message_queue (message_queue (update a dt1) ++ later) (update a dt1)) dt2
  = set_url_input (InputField_update (InputField_update (url_input a) dt1) dt2)
      (update (set_message_queue (message_queue a ++ later) a) dt).
Proof.
  destruct a as [r u fb db cb pb sb vl st pt vs ft dl cd mq th].
  rewrite (update_mk r u fb db cb pb sb vl st pt vs ft dl cd mq th).
  change (set_message_queue (message_queue _ ++ later)
            (mkApp r u fb db cb pb sb vl st pt vs ft dl cd mq th))
    with (mkApp r u fb db cb pb sb vl st pt vs ft dl cd (mq ++ later) th).
  rewrite (update_mk r u fb db cb pb sb vl st pt vs ft dl cd (mq ++ later) th).
  rewrite fold_left_app.
  destruct (fold_left apply_view mq (vl, st, pt, vs)) as [[[l1 st1] pt1] vs1].
  cbv zeta. unfold set_message_queue.
  cbn [app running url_input fetch_button download_button
       cancel_button play_bg_button stop_bg_button video_list status_text
       progress_text videos fetch_thread download_thread cancel_download
       message_queue threads].
  rewrite update_mk.
  destruct (fold_left apply_view later (l1, st1, pt1, vs1)) as [[[l2 st2] pt2] vs2].
  cbn. destruct (InputField_update_text u dt1) as (-> & _). reflexivity.
Qed.


(** ** The buttons *)

(** X23: an enabled button that is not held down reports a click on a
    release exactly when the press before it and the release itself both
    fall inside its rectangle, whichever mouse button is used; a release
    without a press reports none; after the release the button is not
    held down. *)
Theorem button_click_protocol (b : Button) (p q : Z * Z) (button : Z)
    (Henabled : enabled b = true) (Hup : pressed b = false) :
  snd (Button_handle_event (fst (Button_handle_event b (MOUSEBUTTONDOWN p button)))
         (MOUSEBUTTONUP q))
  = collidepoint (b_rect b) p && collidepoint (b_rect b) q
  /\ pressed (fst (Button_handle_event
                     (fst (Button_handle_event b (MOUSEBUTTONDOWN p button)))
                     (MOUSEBUTTONUP q))) = false
  /\ snd (Button_handle_event b (MOUSEBUTTONUP q)) = false.
Proof.
  unfold Button_handle_event. rewrite Henabled, Hup. cbn.
  destruct (collidepoint (b_rect b) p) eqn:Hp; cbn; rewrite ?Henabled, ?Hup; cbn;
    destruct (collidepoint (b_rect b) q); cbn; repeat split.
Qed.

Lemma button_click_protocol_witness :
  enabled (download_button app_listed) = true
  /\ pressed (download_button app_listed) = false
  /\ snd (Button_handle_event
            (fst (Button_handle_event (download_button app_listed)
                    (MOUSEBUTTONDOWN (800, 60)%Z 3)))
            (MOUSEBUTTONUP (800, 95)%Z)) = false.
Proof.
  assert (H1 : enabled (download_button app_listed) = true) by (vm_compute; reflexivity).
  assert (H2 : pressed (download_button app_listed) = false) by (vm_compute; reflexivity).
  split; [exact H1|]. split; [exact H2|].
  destruct (button_click_protocol (download_button app_listed) (800, 60)%Z (800, 95)%Z 3
              H1 H2) as [H _].
  rewrite H. vm_compute. reflexivity.
Defined.

(** ** The text field *)

Lemma length_app_string (a b : string) :
  String.length (a ++ b) = (String.length a + String.length b)%nat.
Proof. induction a as [|c a IH]; cbn; [reflexivity | now rewrite IH]. Qed.

Lemma append_assoc_string (a b c : string) :
  ((a ++ b) ++ c = a ++ (b ++ c))%string.
Proof. induction a as [|x a IH]; cbn; [reflexivity | now rewrite IH]. Qed.

Lemma substring_split (s : string) :
  forall b m : nat,
    (b <= String.length s)%nat -> (String.length s - b <= m)%nat ->
    (substring 0 b s ++ substring b m s)%string = s.
Proof.
  induction s as [|c s IH]; intros b m Hb Hm.
  - destruct b, m; reflexivity.
  - destruct b as [|b].
    + cbn in Hm. destruct m as [|m]; [lia|]. cbn. f_equal.
      specialize (IH 0%nat m). cbn in IH. replace (substring 0 0 s) with EmptyString in IH
        by (now destruct s).
      apply IH; cbn; lia.
    + cbn. f_equal. apply IH; cbn in *; lia.
Qed.

Lemma length_substring_0 (s : string) :
  forall b : nat, (b <= String.length s)%nat -> String.length (substring 0 b s) = b.
Proof.
  induction s as [|c s IH]; intros b Hb.
  - destruct b; [reflexivity | cbn in Hb; lia].
  - destruct b as [|b]; [reflexivity|]. cbn. f_equal. apply IH. cbn in Hb. lia.
Qed.

Lemma substring_0_app (a b : string) : substring 0 (String.length a) (a ++ b) = a.
Proof.
  induction a as [|c a IH]; cbn; [now destruct b | now rewrite IH].
Qed.

Lemma substring_from_app (a b : string) (m : nat) :
  (String.length b <= m)%nat -> substring (String.length a) m (a ++ b) = b.
Proof.
  intros Hm. induction a as [|c a IH]; cbn; [|exact IH].
  clear - Hm. revert m Hm. induction b as [|c b IH]; intros m Hm.
  - now destruct m.
  - destruct m as [|m]; [cbn in Hm; lia|]. cbn. f_equal. apply IH. cbn in Hm. lia.
Qed.

Lemma slice_bound_le (n : Z) (s : string) : (slice_bound n s <= String.length s)%nat.
Proof. unfold slice_bound, py_len. destruct (n <? 0)%Z; lia. Qed.

Lemma slice_bound_inside (n : Z) (s : string) :
  (0 <= n <= py_len s)%Z -> slice_bound n s = Z.to_nat n.
Proof.
  unfold slice_bound, py_len. intros H.
  destruct (Z.ltb_spec n 0); lia.
Qed.

(** [s[:n] + s[n:] == s], for every [n]. *)
Lemma slice_join (n : Z) (s : string) : (slice_until n s ++ slice_from n s)%string = s.
Proof.
  unfold slice_until, slice_from. apply substring_split; [apply slice_bound_le | lia].
Qed.

Lemma py_len_app (a b : string) : py_len (a ++ b) = (py_len a + py_len b)%Z.
Proof. unfold py_len. rewrite length_app_string. lia. Qed.

Lemma py_len_slice_until (n : Z) (s : string) :
  py_len (slice_until n s) = Z.of_nat (slice_bound n s).
Proof.
  unfold py_len, slice_until. rewrite length_substring_0; [reflexivity|].
  apply slice_bound_le.
Qed.

Lemma py_len_slice_from (n : Z) (s : string) :
  py_len (slice_from n s) = (py_len s - Z.of_nat (slice_bound n s))%Z.
Proof.
  pose proof (slice_join n s) as Hj. apply (f_equal py_len) in Hj.
  rewrite py_len_app, py_len_slice_until in Hj. lia.
Qed.

Lemma inserted_length (n : Z) (s u : string) :
  py_len (slice_until n s ++ u ++ slice_from n s) = (py_len s + py_len u)%Z.
Proof.
  rewrite !py_len_app, py_len_slice_until, py_len_slice_from. lia.
Qed.

Lemma py_len_nonempty (u : string) : u <> EmptyString -> (1 <= py_len u)%Z.
Proof. destruct u; [congruence | unfold py_len; cbn; lia]. Qed.

(** X24: the cursor stays inside the text or at one of its ends under
    every event, provided a key press that inserts text carries at least
    one character. *)
Theorem cursor_stays_in_text (rect : Rect) (f : InputField) (ev : Event) (k : KeyInfo)
    (Hok : cursor_ok f)
    (Htext : inserts_text k = true -> unicode k <> EmptyString) :
  cursor_ok (InputField_handle_event rect f ev k).
Proof.
  unfold cursor_ok in *. unfold InputField_handle_event.
  destruct ev as [|p|p button|p|y| |]; try exact Hok.
  destruct (active f); [|exact Hok].
  unfold inserts_text in Htext.
  assert (Hins : ctrl_held k = false -> isprintable (unicode k) = true ->
                 match key k with
                 | K_v | K_c | K_a | K_x | K_other => true
                 | _ => false
                 end = true ->
                 (0 <= cursor_pos f + 1
                  <= py_len (slice_until (cursor_pos f) (text f) ++ unicode k
                             ++ slice_from (cursor_pos f) (text f)))%Z).
  { intros Hc Hp Hk. rewrite Hc, Hp, Hk in Htext.
    pose proof (py_len_nonempty _ (Htext eq_refl)). rewrite inserted_length. lia. }
  destruct (ctrl_held k).
  - destruct (key k); try exact Hok; cbn [text cursor_pos].
    + destruct (clipboard_get k) as [clip|]; [|exact Hok]. cbn [text cursor_pos].
      rewrite inserted_length. unfold py_len in *. lia.
    + lia.
    + destruct (clipboard_set k); [cbn; lia | exact Hok].
  - specialize (Hins eq_refl).
    destruct (key k);
      try (destruct (isprintable (unicode k)); [now apply Hins | exact Hok]);
      cbn [text cursor_pos]; try lia.
    + destruct (Z.ltb_spec 0 (cursor_pos f)); [|exact Hok]. cbn [text cursor_pos].
      rewrite py_len_app, py_len_slice_until, py_len_slice_from.
      rewrite !slice_bound_inside by lia. lia.
    + destruct (Z.ltb_spec (cursor_pos f) (py_len (text f))); [|exact Hok].
      cbn [text cursor_pos].
      rewrite py_len_app, py_len_slice_until, py_len_slice_from.
      rewrite !slice_bound_inside by lia. lia.
Qed.

Lemma cursor_stays_in_text_witness :
  cursor_ok (mkInputField "abc" true 3 true (Int 0))
  /\ (inserts_text (typed "d") = true -> unicode (typed "d") <> EmptyString)
  /\ cursor_ok (InputField_handle_event url_input_rect
                  (mkInputField "abc" true 3 true (Int 0)) KEYDOWN (typed "d")).
Proof.
  assert (H1 : cursor_ok (mkInputField "abc" true 3 true (Int 0)))
    by (unfold cursor_ok, py_len; cbn; lia).
  assert (H2 : inserts_text (typed "d") = true -> unicode (typed "d") <> EmptyString)
    by (intros _; discriminate).
  split; [exact H1|]. split; [exact H2|].
  apply (cursor_stays_in_text url_input_rect
           (mkInputField "abc" true 3 true (Int 0)) KEYDOWN (typed "d") H1 H2).
Defined.

(** X25: a key press that reaches the inserting branch with an empty
    [unicode] (a modifier key, say) leaves the text as it is and still
    moves the cursor one place to the right; with the cursor at the end
    of the text it ends up past the end. *)
Theorem empty_key_moves_cursor (rect : Rect) (f : InputField) (k : KeyInfo)
    (Hactive : active f = true)
    (Hins : inserts_text k = true)
    (Hempty : unicode k = EmptyString) :
  InputField_handle_event rect f KEYDOWN k
  = mkInputField (text f) (active f) (cursor_pos f + 1)
                 (cursor_visible f) (cursor_timer f)
  /\ (cursor_pos f = py_len (text f) ->
      ~ cursor_ok (InputField_handle_event rect f KEYDOWN k)).
Proof.
  assert (Heq : InputField_handle_event rect f KEYDOWN k
                = mkInputField (text f) (active f) (cursor_pos f + 1)
                               (cursor_visible f) (cursor_timer f)).
  { unfold InputField_handle_event, inserts_text in *. rewrite Hactive.
    destruct (ctrl_held k); [discriminate Hins|].
    rewrite Hempty in *. cbn [String.append].
    destruct (key k); try discriminate Hins; cbn; now rewrite slice_join. }
  split; [exact Heq|].
  intros Hend. rewrite Heq. unfold cursor_ok. cbn. lia.
Qed.

Lemma empty_key_moves_cursor_witness :
  active (mkInputField "abc" true 3 true (Int 0)) = true
  /\ inserts_text shift_key = true
  /\ unicode shift_key = EmptyString
  /\ InputField_handle_event url_input_rect
       (mkInputField "abc" true 3 true (Int 0)) KEYDOWN shift_key
     = mkInputField "abc" true 4 true (Int 0).
Proof.
  repeat (split; [reflexivity|]).
  apply (empty_key_moves_cursor url_input_rect
           (mkInputField "abc" true 3 true (Int 0)) shift_key);
    reflexivity.
Defined.

(** X26: typing one character and then pressing backspace gives back
    the field as it was, text and cursor, when the cursor was inside the
    text. *)
Theorem type_then_backspace (rect : Rect) (f : InputField) (c : ascii)
    (k1 k2 : KeyInfo)
    (Hactive : active f = true)
    (Hok : cursor_ok f)
    (Hins : inserts_text k1 = true)
    (Hchar : unicode k1 = String c EmptyString)
    (Hkey : key k2 = K_BACKSPACE)
    (Hctrl : ctrl_held k2 = false) :
  InputField_handle_event rect (InputField_handle_event rect f KEYDOWN k1) KEYDOWN k2 = f.
Proof.
  destruct f as [t act cp vis timer]. cbn in Hactive. subst act.
  unfold cursor_ok in Hok. cbn in Hok.
  assert (H1 : InputField_handle_event rect (mkInputField t true cp vis timer)
                 KEYDOWN k1
               = mkInputField (slice_until cp t ++ String c EmptyString
                               ++ slice_from cp t) true (cp + 1) vis timer).
  { unfold InputField_handle_event, inserts_text in *.
    cbn [active text cursor_pos cursor_visible cursor_timer].
    destruct (ctrl_held k1); [discriminate Hins|].
    rewrite Hchar in *.
    destruct (key k1); try discriminate Hins; cbn [negb andb] in Hins;
      rewrite Hins; reflexivity. }
  rewrite H1. unfold InputField_handle_event.
  cbn [active text cursor_pos cursor_visible cursor_timer].
  rewrite Hctrl, Hkey.
  destruct (Z.ltb_spec 0 (cp + 1)); [|lia].
  replace (cp + 1 - 1)%Z with cp by lia. f_equal.
  set (pre := slice_until cp t). set (post := slice_from cp t).
  assert (Hpre : String.length pre = Z.to_nat cp).
  { unfold pre, slice_until. rewrite length_substring_0 by apply slice_bound_le.
    apply slice_bound_inside. exact Hok. }
  assert (Hjoin : (pre ++ post)%string = t) by apply slice_join.
  assert (Hlen : py_len (pre ++ String c EmptyString ++ post) = (py_len t + 1)%Z).
  { unfold pre, post. rewrite inserted_length. reflexivity. }
  unfold slice_until at 1. unfold slice_from at 1.
  rewrite !slice_bound_inside by lia.
  rewrite <- Hpre at 1. rewrite substring_0_app.
  replace (Z.to_nat (cp + 1)) with (String.length (pre ++ String c EmptyString))
    by (rewrite length_app_string, Hpre; cbn; lia).
  rewrite <- (append_assoc_string pre (String c EmptyString) post).
  rewrite substring_from_app; [exact Hjoin|].
  rewrite !length_app_string. lia.
Qed.

Lemma type_then_backspace_witness :
  active (mkInputField "abc" true 1 true (Int 0)) = true
  /\ cursor_ok (mkInputField "abc" true 1 true (Int 0))
  /\ InputField_handle_event url_input_rect
       (InputField_handle_event url_input_rect
          (mkInputField "abc" true 1 true (Int 0)) KEYDOWN (typed "x"))
       KEYDOWN backspace
     = mkInputField "abc" true 1 true (Int 0).
Proof.
  assert (H : cursor_ok (mkInputField "abc" true 1 true (Int 0)))
    by (unfold cursor_ok, py_len; cbn; lia).
  split; [reflexivity|]. split; [exact H|].
  apply (type_then_backspace url_input_rect
           (mkInputField "abc" true 1 true (Int 0)) "x"
           (typed "x") backspace eq_refl H eq_refl eq_refl eq_refl eq_refl).
Defined.

(** ** The loop of [run] *)

Lemma running_handle_events (inputs : list Input) :
  forall a : App,
    running (handle_events a inputs)
    = running a && forallb (fun i => match event i with QUIT => false | _ => true end)
                           inputs.
Proof.
  unfold handle_events.
  induction inputs as [|i inputs IH]; intros a; cbn [fold_left forallb].
  - now rewrite andb_true_r.
  - rewrite IH, running_handle_event.
    destruct (event i); cbn; now rewrite ?andb_false_r.
Qed.

Lemma running_workers_before (a : App) (f : Frame) :
  running (workers_before a f) = running a.
Proof.
  unfold workers_before.
  assert (H1 : forall l b, running (fold_left (fun a h => thread_exit h a) l b)
                           = running b).
  { induction l as [|h l IH]; intros b; [reflexivity|]. cbn [fold_left]. now rewrite IH. }
  assert (H2 : forall l b, running (fold_left (fun a m => put m a) l b) = running b).
  { induction l as [|m l IH]; intros b; [reflexivity|]. cbn [fold_left]. now rewrite IH. }
  now rewrite H2, H1.
Qed.

Lemma running_update (a : App) (dt : float) : running (update a dt) = running a.
Proof. unfold update, drain. cbn. now rewrite fold_running. Qed.

Lemma running_frame (a : App) (f : Frame) :
  running (frame a f)
  = running a && forallb (fun i => match event i with QUIT => false | _ => true end)
                         (inputs f).
Proof.
  unfold frame.
  now rewrite running_update, running_handle_events, running_workers_before.
Qed.

(** X27: the loop of [run] stops at the first frame that holds a [QUIT]
    event: that frame is still handled in full (all its events, then
    [update]), no later frame is handled, and the cancellation flag is
    set on the way out. *)
Theorem run_stops_at_quit (a : App) (before after : list Frame) (f : Frame)
    (Hrunning : running a = true)
    (Hbefore : forallb (fun g => forallb (fun i => match event i with
                                                   | QUIT => false
                                                   | _ => true
                                                   end) (inputs g)) before = true)
    (Hquit : forallb (fun i => match event i with QUIT => false | _ => true end)
                     (inputs f) = false) :
  run a (before ++ f :: after)
  = Some (set_cancel_download true (frame (fold_left frame before a) f)).
Proof.
  revert a Hrunning. induction before as [|g before IH]; intros a Hrunning.
  - cbn [app fold_left run]. rewrite Hrunning.
    assert (Hstop : running (frame a f) = false)
      by (now rewrite running_frame, Hquit, andb_false_r).
    destruct after; cbn [run]; now rewrite Hstop.
  - cbn [forallb] in Hbefore. apply andb_prop in Hbefore. destruct Hbefore as [Hg Hrest].
    cbn [app fold_left run]. rewrite Hrunning.
    apply (IH Hrest). now rewrite running_frame, Hrunning, Hg.
Qed.

Lemma run_stops_at_quit_witness :
  running init = true
  /\ forallb (fun g => forallb (fun i => match event i with
                                         | QUIT => false
                                         | _ => true
                                         end) (inputs g)) [idle_frame] = true
  /\ forallb (fun i => match event i with QUIT => false | _ => true end)
             (inputs quit_frame) = false
  /\ run init ([idle_frame] ++ quit_frame :: [idle_frame; idle_frame])
     = Some (set_cancel_download true
               (frame (fold_left frame [idle_frame] init) quit_frame)).
Proof.
  split; [reflexivity|]. split; [vm_compute; reflexivity|].
  split; [vm_compute; reflexivity|].
  apply (run_stops_at_quit init [idle_frame] [idle_frame; idle_frame] quit_frame);
    vm_compute; reflexivity.
Defined.

(** ** The background playback *)

Lemma start_playback_fields (v : VideoBackground) :
  cap (fst (start_playback v)) = cap v
  /\ clip (fst (start_playback v)) = clip v
  /\ audio_started (fst (start_playback v)) = audio_started v || (cap v && clip v)
  /\ snd (start_playback v) = negb (audio_started v) && (cap v && clip v).
Proof.
  unfold start_playback. destruct (cap v && clip v) eqn:E; cbn;
    now rewrite ?orb_true_r, ?orb_false_r, ?andb_true_r, ?andb_false_r.
Qed.

(** X28: over any sequence of play and stop requests the audio thread
    is started at most once: exactly once when the video and its audio
    were loaded, the audio had not been started and some request is a
    play, and never otherwise.  A stop request does not let a later play
    start it again. *)
Theorem audio_thread_started_once (calls : list bool) (v : VideoBackground) :
  snd (playback_calls calls v)
  = (if negb (audio_started v) && (cap v && clip v) && existsb (fun c => c) calls
     then 1 else 0)%nat
  /\ audio_started (fst (playback_calls calls v))
     = audio_started v || (cap v && clip v && existsb (fun c => c) calls).
Proof.
  revert v. induction calls as [|c calls IH]; intros v.
  - cbn. now rewrite !andb_false_r, orb_false_r.
  - destruct c; cbn [playback_calls existsb orb].
    + destruct (start_playback_fields v) as (Hc & Hk & Ha & Hs).
      destruct (start_playback v) as [v' started]. cbn [fst snd] in *.
      destruct (IH v') as [IHn IHa].
      destruct (playback_calls calls v') as [v'' n]. cbn [fst snd] in *.
      rewrite IHn, IHa, Hc, Hk, Ha, Hs.
      destruct (audio_started v), (cap v), (clip v), (existsb (fun c => c) calls);
        split; reflexivity.
    + destruct (IH (stop_playback v)) as [IHn IHa]. cbn [stop_playback cap clip
        audio_started] in IHn, IHa. now rewrite IHn, IHa.
Qed.
